(** * QA dashboard: ingestion, normalisation and analysis dispatch

    A shallow embedding of the call-ingestion pipeline of the QA dashboard
    server ([server/sync.ts], [server/analysis.ts], the OpenPhone webhook
    receiver and the prompt guards of the QA criteria modules), followed by
    the statements proved about it.

    Conventions of the embedding.
    - A JavaScript string is a [string]: a sequence of code units below 256.
    - A JavaScript number is the rational value of a finite double, kept in
      canonical form ([Qc]), so that equal numbers are equal terms.
    - Loosely typed data (parsed LLM output, stored JSON payloads) is a
      [jsval]; data typed by the provider interfaces is a record whose
      optional fields are [option]s.  [None] is a missing field.  A
      [null] in such a field is not told apart from a missing one: the
      truthiness tests and the [||] defaults of the code treat both
      alike, and where the code would tell them apart (a strict
      comparison with [undefined], a template literal, a column written
      with [null]) the embedding follows the missing field.
    - Asynchronous functions are state-passing functions over a [World]
      (the three tables, the health table and the logs of the requests
      sent to the telephony provider and to the LLM); a thrown [Error] is
      the [Throw] outcome carrying its message, and the world reached
      before the throw is kept, as in JavaScript.
    - A table keeps a row as its columns allow ([drizzle/schema.ts]): a
      number written to an [int] column is rounded to a whole number.
    - The provider, the LLM and the failures of the persistence layer are
      oracles gathered in [Env]. *)

From Stdlib Require Import String Ascii List Bool Arith ZArith QArith Qcanon Lia.
From Stdlib Require Import DecimalString.
Import ListNotations.

Set Implicit Arguments.
Set Warnings "-register-all".
Local Close Scope Q_scope.
Local Close Scope Qc_scope.
Local Open Scope nat_scope.
Local Open Scope list_scope.
Local Open Scope string_scope.

(* ================================================================== *)
(** * Part I: the embedding *)
(* ================================================================== *)

(** ** JavaScript strings and values *)

Module Js.

(** [WhiteSpace] and [LineTerminator] code units below 256, the ones
    [String.prototype.trim] strips. *)
Definition is_white_space (c : ascii) : bool :=
  let n := nat_of_ascii c in
  (Nat.leb 9 n && Nat.leb n 13) || Nat.eqb n 32 || Nat.eqb n 160.

Fixpoint trimStart (s : string) : string :=
  match s with
  | EmptyString => EmptyString
  | String c r => if is_white_space c then trimStart r else s
  end.

Fixpoint trimEnd (s : string) : string :=
  match s with
  | EmptyString => EmptyString
  | String c r =>
      match trimEnd r with
      | EmptyString => if is_white_space c then EmptyString else String c EmptyString
      | r' => String c r'
      end
  end.

Definition trim (s : string) : string := trimEnd (trimStart s).

Definition lower_char (c : ascii) : ascii :=
  let n := nat_of_ascii c in
  if (Nat.leb 65 n && Nat.leb n 90) ||
     (Nat.leb 192 n && Nat.leb n 222 && negb (Nat.eqb n 215))
  then ascii_of_nat (n + 32) else c.

Fixpoint toLowerCase (s : string) : string :=
  match s with
  | EmptyString => EmptyString
  | String c r => String (lower_char c) (toLowerCase r)
  end.

Fixpoint startsWith (s p : string) : bool :=
  match p, s with
  | EmptyString, _ => true
  | String a p', String b s' => Ascii.eqb a b && startsWith s' p'
  | String _ _, EmptyString => false
  end.

(** [s.includes(needle)] *)
Fixpoint includes (s needle : string) : bool :=
  startsWith s needle ||
  match s with
  | EmptyString => false
  | String _ r => includes r needle
  end.

Definition newline : string := String (ascii_of_nat 10) EmptyString.

(** The double-quote character. *)
Definition quote : string := String (ascii_of_nat 34) EmptyString.

(** [lines.join("\n")] *)
Definition join_lines (lines : list string) : string :=
  String.concat newline lines.

(** A string is falsy exactly when it is empty. *)
Definition nonempty (s : string) : bool :=
  match s with EmptyString => false | String _ _ => true end.

(** [a || b] on optional strings whose right operand is a string. *)
Definition str_or (a : option string) (b : string) : string :=
  match a with
  | Some s => if nonempty s then s else b
  | None => b
  end.

(** [a || b] on optional strings. *)
Definition opt_or (a b : option string) : option string :=
  match a with
  | Some s => if nonempty s then a else b
  | None => b
  end.

(** How a template literal renders an optional string. *)
Definition render (a : option string) : string :=
  match a with Some s => s | None => "undefined" end.

(** Numbers. *)
Definition num (z : Z) : Qc := Q2Qc (inject_Z z).

Definition num_ltb (a b : Qc) : bool :=
  match (a ?= b)%Qc with Lt => true | _ => false end.

Definition num_is_zero (a : Qc) : bool := Qeq_bool a (inject_Z 0).

(** A number in canonical form is an integer when its denominator is 1. *)
Definition is_integer (a : Qc) : bool := Pos.eqb (Qden a) 1.

(** [n || 0] on an optional number. *)
Definition num_or_zero (a : option Qc) : Qc :=
  match a with
  | Some n => if num_is_zero n then num 0 else n
  | None => num 0
  end.

Inductive jsval : Type :=
| JUndefined
| JNull
| JBool (b : bool)
| JNum (n : Qc)
| JStr (s : string)
| JArr (items : list jsval)
| JObj (props : list (string * jsval)).

Definition truthy (v : jsval) : bool :=
  match v with
  | JUndefined | JNull => false
  | JBool b => b
  | JNum n => negb (num_is_zero n)
  | JStr s => nonempty s
  | JArr _ | JObj _ => true
  end.

(** [a || b] *)
Definition or_else (a b : jsval) : jsval := if truthy a then a else b.

Fixpoint lookup (k : string) (props : list (string * jsval)) : jsval :=
  match props with
  | [] => JUndefined
  | (k', v) :: r => if String.eqb k k' then v else lookup k r
  end.

(** [v.k] for a field name [k] that no primitive wrapper defines;
    [None] is the [TypeError] raised on [null] and [undefined]. *)
Definition get (v : jsval) (k : string) : option jsval :=
  match v with
  | JUndefined | JNull => None
  | JObj props => Some (lookup k props)
  | _ => Some JUndefined
  end.

(** [v?.k] *)
Definition get_opt (v : jsval) (k : string) : jsval :=
  match get v k with Some x => x | None => JUndefined end.

Definition is_number (v : jsval) : bool :=
  match v with JNum _ => true | _ => false end.

(** [v === "s"] *)
Definition is_str (v : jsval) (s : string) : bool :=
  match v with JStr t => String.eqb t s | _ => false end.

(** [v === true] *)
Definition is_true (v : jsval) : bool :=
  match v with JBool true => true | _ => false end.

Definition of_opt_num (a : option Qc) : jsval :=
  match a with Some n => JNum n | None => JUndefined end.

Fixpoint chars (s : string) : list jsval :=
  match s with
  | EmptyString => []
  | String c r => JStr (String c EmptyString) :: chars r
  end.

(** [Object.values(v)]; [Object.keys(v)] has the same length. *)
Definition values (v : jsval) : list jsval :=
  match v with
  | JObj props => map snd props
  | JArr items => items
  | JStr s => chars s
  | _ => []
  end.

End Js.

Import Js.

(** ** Data model *)

(** Provider payloads ([server/openphone.ts]). *)

Record OpenPhoneCall : Type := {
  c_id : string;
  c_phoneNumberId : string;
  c_userId : string;
  c_direction : string;
  c_status : string;
  c_participants : list string;   (* the [phoneNumber] of each participant *)
  c_duration : option Qc;
  c_createdAt : string;
  c_completedAt : option string;
  c_answeredAt : option string;
  c_from : option string;
  c_to : option string
}.

Record DialogueItem : Type := {
  d_content : option string;
  d_start : option Qc;
  d_end : option Qc;
  d_identifier : option string;
  d_userId : option string
}.

Record OpenPhoneTranscript : Type := {
  tr_callId : string;
  tr_duration : option Qc;
  tr_status : option string;
  tr_dialogue : option (list DialogueItem)
}.

(** Rows of the three tables ([drizzle/schema.ts]).  The surrogate [id]
    and the [createdAt] default of the database are left to the database.
    A [Date] is kept abstract: it stands for an instant at the precision
    of the [timestamp] column that holds it. *)

Inductive Date : Type :=
| DateOf (iso : string)      (* [new Date(iso)] *)
| DateNow.                   (* [new Date()] *)

Record WebhookMeta : Type := {
  m_phoneLine : string;
  m_shouldAnalyze : bool;
  m_filterReason : string;
  m_answeredBy : option string;
  m_initiatedBy : option string;
  m_webhookReceivedAt : Date;
  m_webhookEventType : option string;
  m_participants : list string;
  m_hasTranscript : bool
}.

Inductive CallMeta : Type :=
| MetaOfCall (call : OpenPhoneCall)      (* [metadata: call] of the poll path *)
| MetaOfWebhook (m : WebhookMeta).

Record CallRow : Type := {
  r_callId : string;
  r_direction : option string;
  r_fromNumber : string;
  r_toNumber : string;
  r_duration : Qc;
  r_status : option string;
  r_createdAt : Date;
  r_answeredAt : option Date;
  r_completedAt : option Date;
  r_phoneNumberId : option string;
  r_userId : option string;
  r_metadata : CallMeta
}.

Record Segment : Type := {
  seg_start : jsval;
  seg_end : jsval;
  seg_speaker : jsval;
  seg_text : jsval
}.

(** [segments = None]: the payload has no [segments] array. *)
Record JsonPayload : Type := { segments : option (list Segment) }.

Record TranscriptRow : Type := {
  t_callId : string;
  t_fullText : string;
  t_jsonPayload : option JsonPayload;
  t_duration : option Qc;
  t_status : option string
}.

Inductive Compliance : Type := Pass | Fail | Review.

Inductive AnalysisMeta : Type :=
| MetaScored (complianceChecks : jsval)
             (phoneNumberId : option string) (phoneLine : option string)
| MetaNoContent (phoneLine : string)
                (emptyTranscript brokenTranscript : bool) (reason : string).

(** The columns shared by both call directions.  The direction-specific
    columns ([hasGreeting], [concernsAddressed], [actionItems],
    [bestPractices], [outcome], ...) and [analyzedAt] are copies of fields
    of the response and are not represented. *)
Record AnalysisRow : Type := {
  a_callId : string;
  a_score : Qc;
  a_summary : jsval;
  a_sentiment : jsval;
  a_complianceCheck : Compliance;
  a_complianceNotes : jsval;
  a_metadata : AnalysisMeta
}.

Record HealthRow : Type := {
  h_lastWebhookReceived : Date;
  h_eventType : option string;
  h_callId : option string
}.

Record Db : Type := {
  calls : list CallRow;
  transcripts : list TranscriptRow;
  analyses : list AnalysisRow;
  webhookHealth : list HealthRow
}.

(** ** Environment and world *)

Record FetchParams : Type := {
  fp_phoneNumberId : string;
  fp_participants : option (list string);
  fp_userId : option string;
  fp_daysToSync : Z;                (* determines [createdAfter] *)
  fp_pageToken : option string
}.

Inductive FetchCallsOutcome : Type :=
| CallsPage (data : list OpenPhoneCall) (nextPageToken : option string)
| CallsError (msg : string).

Inductive FetchTranscriptOutcome : Type :=
| TranscriptData (data : option OpenPhoneTranscript)
| TranscriptError (msg : string).

(** The request sent to [invokeLLM]: which of the two schemas the system
    message carries, and the user prompt. *)
Record LLMRequest : Type := {
  llm_inbound_schema : bool;
  llm_prompt : string
}.

(** What [invokeLLM] followed by [JSON.parse] of the first choice gives. *)
Inductive LLMOutcome : Type :=
| LLMThrows (msg : string)          (* [invokeLLM] rejects *)
| LLMNoContent                      (* no content in the first choice *)
| LLMParseError (msg : string)      (* [JSON.parse] throws *)
| LLMParsed (analysisResult : jsval).

Record Env : Type := {
  OPENPHONE_MAIN_PHONE_NUMBER_ID : option string;
  OPENPHONE_OUTBOUND_PHONE_NUMBER_ID : option string;
  fetchCalls : FetchParams -> FetchCallsOutcome;
  fetchTranscript : string -> FetchTranscriptOutcome;
  invokeLLM : LLMRequest -> LLMOutcome;
  (** the template bodies of the two prompt builders *)
  inboundPromptBody : string -> string;
  outboundPromptBody : string -> string;
  (** how a template literal renders a value that is not a string *)
  String_of : jsval -> string;
  (** the error, if any, with which the database rejects a write to the
      row keyed by a call id *)
  write_fault : string -> option string;
  (** the error, if any, with which the database rejects the insertion of
      a webhook health record *)
  health_fault : HealthRow -> option string
}.

Record World : Type := {
  db_available : bool;              (* whether [getDb()] yields a handle *)
  tables : Db;
  fetch_log : list string;          (* call ids passed to [fetchTranscript] *)
  llm_log : list LLMRequest         (* requests passed to [invokeLLM] *)
}.

Definition with_tables (w : World) (d : Db) : World :=
  {| db_available := db_available w; tables := d;
     fetch_log := fetch_log w; llm_log := llm_log w |}.

Definition log_fetch (w : World) (callId : string) : World :=
  {| db_available := db_available w; tables := tables w;
     fetch_log := fetch_log w ++ [callId]; llm_log := llm_log w |}.

Definition log_llm (w : World) (request : LLMRequest) : World :=
  {| db_available := db_available w; tables := tables w;
     fetch_log := fetch_log w; llm_log := llm_log w ++ [request] |}.

Definition with_calls (d : Db) (l : list CallRow) : Db :=
  {| calls := l; transcripts := transcripts d;
     analyses := analyses d; webhookHealth := webhookHealth d |}.

Definition with_transcripts (d : Db) (l : list TranscriptRow) : Db :=
  {| calls := calls d; transcripts := l;
     analyses := analyses d; webhookHealth := webhookHealth d |}.

Definition with_analyses (d : Db) (l : list AnalysisRow) : Db :=
  {| calls := calls d; transcripts := transcripts d;
     analyses := l; webhookHealth := webhookHealth d |}.

Definition with_webhookHealth (d : Db) (l : list HealthRow) : Db :=
  {| calls := calls d; transcripts := transcripts d;
     analyses := analyses d; webhookHealth := l |}.

(** ** The monad of asynchronous, throwing code *)

Inductive outcome (A : Type) : Type :=
| Ret (a : A)
| Throw (msg : string).

Arguments Ret {A} a.
Arguments Throw {A} msg.

Definition M (A : Type) : Type := World -> outcome A * World.

Definition ret {A : Type} (a : A) : M A := fun w => (Ret a, w).

Definition throw {A : Type} (msg : string) : M A := fun w => (Throw msg, w).

Definition bind {A B : Type} (m : M A) (k : A -> M B) : M B :=
  fun w =>
    match m w with
    | (Ret a, w') => k a w'
    | (Throw msg, w') => (Throw msg, w')
    end.

(** [try { m } catch (error) { h(error.message) }] *)
Definition try_catch {A : Type} (m : M A) (h : string -> M A) : M A :=
  fun w =>
    match m w with
    | (Ret a, w') => (Ret a, w')
    | (Throw msg, w') => h msg w'
    end.

Declare Scope js_scope.
Delimit Scope js_scope with js.
Notation "x <- c ;; k" := (bind c (fun x => k))
  (at level 61, c at next level, right associativity) : js_scope.
Notation "c ;;; k" := (bind c (fun _ => k))
  (at level 61, right associativity) : js_scope.
Local Open Scope js_scope.

(** ** The persistence interface *)

Module Store.

(** [const db = await getDb(); if (!db) throw ...] *)
Definition getDb : M unit :=
  fun w => if db_available w then (Ret tt, w)
           else (Throw "Database not available", w).

Definition modify (f : Db -> Db) : M unit :=
  fun w => (Ret tt, with_tables w (f (tables w))).

Definition reject {A : Type} (env : Env) (key : string) (m : M A) : M A :=
  match write_fault env key with
  | Some msg => throw msg
  | None => m
  end.

Definition has_key {R : Type} (key_of : R -> string) (k : string) (r : R) : bool :=
  String.eqb (key_of r) k.

(** *** Column types ([drizzle/schema.ts])

    An [int] column keeps a whole number.  A number with a fractional
    part reaches the database as a decimal literal, which MySQL rounds to
    the nearest whole number, a half away from zero.  The [int] columns
    written by the pipeline are [calls.duration], [transcripts.duration]
    and [analyses.score].  A write that the database refuses (a value out
    of the range of its column, a text longer than its column) is a
    [write_fault]. *)
Definition round_half_away (q : Qc) : Z :=
  let n := Qnum q in
  let d := Zpos (Qden q) in
  if (0 <=? n)%Z then ((2 * n + d) / (2 * d))%Z
  else (- ((2 * - n + d) / (2 * d)))%Z.

Definition int_column (q : Qc) : Qc := num (round_half_away q).

(** A row as its table keeps it. *)
Definition call_columns (row : CallRow) : CallRow :=
  {| r_callId := r_callId row;
     r_direction := r_direction row;
     r_fromNumber := r_fromNumber row;
     r_toNumber := r_toNumber row;
     r_duration := int_column (r_duration row);
     r_status := r_status row;
     r_createdAt := r_createdAt row;
     r_answeredAt := r_answeredAt row;
     r_completedAt := r_completedAt row;
     r_phoneNumberId := r_phoneNumberId row;
     r_userId := r_userId row;
     r_metadata := r_metadata row |}.

Definition transcript_columns (row : TranscriptRow) : TranscriptRow :=
  {| t_callId := t_callId row;
     t_fullText := t_fullText row;
     t_jsonPayload := t_jsonPayload row;
     t_duration := option_map int_column (t_duration row);
     t_status := t_status row |}.

Definition analysis_columns (row : AnalysisRow) : AnalysisRow :=
  {| a_callId := a_callId row;
     a_score := int_column (a_score row);
     a_summary := a_summary row;
     a_sentiment := a_sentiment row;
     a_complianceCheck := a_complianceCheck row;
     a_complianceNotes := a_complianceNotes row;
     a_metadata := a_metadata row |}.

(** [.select().from(t).where(eq(t.callId, k)).limit(1)] *)
Definition select_call (k : string) : M (option CallRow) :=
  fun w => (Ret (find (has_key r_callId k) (calls (tables w))), w).

Definition select_transcript (k : string) : M (option TranscriptRow) :=
  fun w => (Ret (find (has_key t_callId k) (transcripts (tables w))), w).

Definition select_analysis (k : string) : M (option AnalysisRow) :=
  fun w => (Ret (find (has_key a_callId k) (analyses (tables w))), w).

Definition update_where {R : Type} (key_of : R -> string) (k : string)
           (f : R -> R) (rows : list R) : list R :=
  map (fun r => if has_key key_of k r then f r else r) rows.

(** [.update(t).set(...).where(eq(t.callId, k))] *)
Definition update_call (env : Env) (k : string) (f : CallRow -> CallRow) : M unit :=
  reject env k
    (modify (fun d => with_calls d
               (update_where r_callId k (fun r => call_columns (f r)) (calls d)))).

Definition update_transcript (env : Env) (k : string)
           (f : TranscriptRow -> TranscriptRow) : M unit :=
  reject env k
    (modify (fun d => with_transcripts d
               (update_where t_callId k (fun r => transcript_columns (f r))
                             (transcripts d)))).

Definition update_analysis (env : Env) (k : string)
           (f : AnalysisRow -> AnalysisRow) : M unit :=
  reject env k
    (modify (fun d => with_analyses d
               (update_where a_callId k (fun r => analysis_columns (f r))
                             (analyses d)))).

(** [.insert(t).values(row)] *)
Definition insert_call (env : Env) (row : CallRow) : M unit :=
  reject env (r_callId row)
    (modify (fun d => with_calls d (calls d ++ [call_columns row]))).

Definition insert_transcript (env : Env) (row : TranscriptRow) : M unit :=
  reject env (t_callId row)
    (modify (fun d => with_transcripts d (transcripts d ++ [transcript_columns row]))).

Definition insert_analysis (env : Env) (row : AnalysisRow) : M unit :=
  reject env (a_callId row)
    (modify (fun d => with_analyses d (analyses d ++ [analysis_columns row]))).

Definition insert_health (env : Env) (row : HealthRow) : M unit :=
  match health_fault env row with
  | Some msg => throw msg
  | None => modify (fun d => with_webhookHealth d (webhookHealth d ++ [row]))
  end.

(** The rows of a table stored under a call id. *)
Definition rows_of {R : Type} (key_of : R -> string) (k : string)
           (rows : list R) : list R :=
  filter (has_key key_of k) rows.

End Store.

Import Store.

(** ** Line identifiers *)

(** [process.env.X || dflt] *)
Definition mainPhoneId (env : Env) : string :=
  str_or (OPENPHONE_MAIN_PHONE_NUMBER_ID env) "PNVbbBqeqM".

Definition outboundPhoneId (env : Env) : string :=
  str_or (OPENPHONE_OUTBOUND_PHONE_NUMBER_ID env) "PNBANAZERt".

(** [a === b] on optional strings, [None] being [undefined] *)
Definition opt_eqb (a b : option string) : bool :=
  match a, b with
  | Some x, Some y => String.eqb x y
  | None, None => true
  | _, _ => false
  end.

(** ** The analysis dispatcher ([server/analysis.ts]) *)

Module Analysis.

Record AnalyzeCallOptions : Type := {
  o_callId : string;
  o_transcriptText : option string;
  o_callDirection : option string;
  o_phoneNumberId : option string
}.

Record AnalyzeCallResult : Type := {
  success : bool;
  res_callId : string;
  analysis : option jsval;
  error : option string
}.

Definition failure (callId msg : string) : AnalyzeCallResult :=
  {| success := false; res_callId := callId; analysis := None; error := Some msg |}.

(** The guard shared by [buildInboundQAPrompt] and [buildOutboundQAPrompt]. *)
Definition corrupted_or_empty (transcriptText : string) : bool :=
  negb (nonempty transcriptText)
  || Nat.eqb (String.length (trim transcriptText)) 0
  || includes transcriptText "undefined: undefined".

Definition buildInboundQAPrompt (env : Env) (transcriptText : string) : M string :=
  if corrupted_or_empty transcriptText
  then throw "Cannot analyze corrupted or empty transcript"
  else ret (inboundPromptBody env transcriptText).

Definition buildOutboundQAPrompt (env : Env) (transcriptText : string) : M string :=
  if corrupted_or_empty transcriptText
  then throw "Cannot analyze corrupted or empty transcript"
  else ret (outboundPromptBody env transcriptText).

(** *** Content-quality check *)

Definition validSegment (seg : Segment) : bool :=
  match seg_text seg with
  | JStr s => nonempty s && Nat.ltb 0 (String.length (trim s))
  | _ => false
  end
  && truthy (seg_speaker seg)
  && negb (is_str (seg_speaker seg) "undefined").

Definition is_undefined (v : jsval) : bool :=
  match v with JUndefined => true | _ => false end.

Definition brokenSegment (seg : Segment) : bool :=
  negb (is_undefined (seg_start seg))
  && negb (is_undefined (seg_end seg))
  && (negb (truthy (seg_text seg))
      || negb (truthy (seg_speaker seg))
      || is_str (seg_speaker seg) "undefined").

(** The pair is ([hasContent], [isBroken]). *)
Definition textCheck (transcriptText : string) : bool * bool :=
  if nonempty transcriptText && Nat.ltb 0 (String.length (trim transcriptText)) then
    if includes transcriptText "undefined: undefined" then (false, true)
    else
      let trimmedText := trim transcriptText in
      if Nat.ltb 10 (String.length trimmedText)
         && negb (includes (toLowerCase trimmedText) "no transcript")
         && negb (includes (toLowerCase trimmedText) "transcript unavailable")
      then (true, false)
      else (false, false)
  else (false, false).

Definition segmentsCheck (flags : bool * bool)
           (transcriptRecord : option TranscriptRow) : bool * bool :=
  let (hasContent, isBroken) := flags in
  if negb hasContent && negb isBroken then
    match transcriptRecord with
    | Some t =>
        match t_jsonPayload t with
        | Some jsonPayload =>
            match segments jsonPayload with
            | Some segs =>
                if Nat.ltb 0 (List.length (filter validSegment segs))
                then (true, isBroken)
                else if Nat.ltb 0 (List.length (filter brokenSegment segs))
                     then (hasContent, true)
                     else flags
            | None => flags
            end
        | None => flags
        end
    | None => flags
    end
  else flags.

Definition contentCheck (transcriptText : string)
           (transcriptRecord : option TranscriptRow) : bool * bool :=
  segmentsCheck (textCheck transcriptText) transcriptRecord.

Inductive Classification : Type := Valid | Empty | Broken.

(** The branch taken by [if (!hasContent || isBroken)] and the label the
    dispatcher gives it. *)
Definition classify (transcriptText : string)
           (transcriptRecord : option TranscriptRow) : Classification :=
  let (hasContent, isBroken) := contentCheck transcriptText transcriptRecord in
  if negb hasContent || isBroken
  then if isBroken then Broken else Empty
  else Valid.

(** *** saveAnalysisToDatabase *)

Definition show (env : Env) (v : jsval) : string :=
  match v with JStr s => s | _ => String_of env v end.

Definition type_error (v : jsval) (k : string) : string :=
  "Cannot read properties of "
  ++ match v with JNull => "null" | _ => "undefined" end
  ++ " (reading '" ++ k ++ "')".

(** [v.k], raising the [TypeError] of a [null] or [undefined] receiver *)
Definition prop (v : jsval) (k : string) : M jsval :=
  match get v k with
  | Some x => ret x
  | None => throw (type_error v k)
  end.

Definition inboundCompliance (checks : jsval) : Compliance :=
  let compliantCount :=
    List.length (filter (fun c => is_true (get_opt c "compliant")) (values checks)) in
  let totalChecks := List.length (values checks) in
  if Nat.eqb compliantCount totalChecks then Pass
  else if Nat.ltb (2 * compliantCount) totalChecks then Fail
  else Review.

Definition note (env : Env) (checks : jsval) (label key : string) : list string :=
  let c := get_opt checks key in
  if truthy c
  then [label ++ ": " ++ show env (or_else (get_opt c "notes") (JStr "N/A"))]
  else [].

Definition inboundNotes (env : Env) (checks : jsval) : string :=
  String.concat " | "
    (note env checks "Greeting" "greeting"
     ++ note env checks "Needs Assessment" "needsAssessment"
     ++ note env checks "Problem Solving" "problemSolving"
     ++ note env checks "Scheduling" "scheduling"
     ++ note env checks "Empathy" "empathy").

Definition outboundCompliance (analysis : jsval) : Compliance :=
  let outcome := get_opt analysis "outcome" in
  if is_str outcome "Appointment" || is_str outcome "Callback Scheduled" then Pass
  else if is_str outcome "Not Interested"
          || is_str (get_opt analysis "breakdownPoint") "Introduction" then Fail
  else Review.

Definition scoredMetadata (env : Env) (analysis : jsval)
           (phoneNumberId : option string) : AnalysisMeta :=
  let checks := or_else (get_opt analysis "complianceChecks") (JObj []) in
  match phoneNumberId with
  | Some p =>
      if nonempty p then
        MetaScored checks (Some p)
          (if String.eqb p (mainPhoneId env) then Some "main"
           else if String.eqb p (outboundPhoneId env) then Some "outbound"
           else None)
      else MetaScored checks None None
  | None => MetaScored checks None None
  end.

(** The overall verdict and the notes, by call direction. *)
Definition complianceOf (env : Env) (analysis : jsval)
           (callDirection : option string) : M (Compliance * jsval) :=
  if opt_eqb callDirection (Some "incoming") then
    complianceChecks <- prop analysis "complianceChecks" ;;
    let checks := or_else complianceChecks (JObj []) in
    ret (inboundCompliance checks, JStr (inboundNotes env checks))
  else
    coachingNotes <- prop analysis "coachingNotes" ;;
    ret (outboundCompliance analysis, or_else coachingNotes (JStr "")).

(** [const analysisData: InsertAnalysis = { ... }] *)
Definition analysisData (env : Env) (callId : string) (analysis : jsval)
           (phoneNumberId : option string) (compliance : Compliance * jsval)
  : AnalysisRow :=
  {| a_callId := callId;
     a_score := match get_opt analysis "score" with JNum n => n | _ => num 0 end;
     a_summary := or_else (get_opt analysis "summary") (JStr "No summary available");
     a_sentiment := or_else (get_opt analysis "sentiment") JNull;
     a_complianceCheck := fst compliance;
     a_complianceNotes := or_else (snd compliance) JNull;
     a_metadata := scoredMetadata env analysis phoneNumberId |}.

Definition saveAnalysisToDatabase (env : Env) (callId : string) (analysis : jsval)
           (phoneNumberId : option string) (callDirection : option string) : M unit :=
  getDb ;;;
  compliance <- complianceOf env analysis callDirection ;;
  let data := analysisData env callId analysis phoneNumberId compliance in
  existing <- select_analysis callId ;;
  match existing with
  | Some _ => update_analysis env callId (fun _ => data)
  | None => insert_analysis env data
  end.

(** *** analyzeCall *)

Definition noContentReason (isBroken : bool) : string :=
  if isBroken
  then "Transcript contains corrupted data (undefined: undefined) - cannot analyze"
  else "No dialogue content in transcript".

Definition noContentSummary (isBroken : bool) : string :=
  if isBroken
  then "Transcript data is corrupted and cannot be analyzed. Please re-sync this transcript."
  else "Transcript contains no dialogue. This may be a Sona AI call, voicemail, or silent call.".

Definition noContentNotes (isBroken : bool) : string :=
  "Unable to analyze - " ++ toLowerCase (noContentReason isBroken) ++ ".".

Definition noContentLine (env : Env) (phoneNumberId : option string) : string :=
  if opt_eqb phoneNumberId (OPENPHONE_MAIN_PHONE_NUMBER_ID env) then "main"
  else if opt_eqb phoneNumberId (OPENPHONE_OUTBOUND_PHONE_NUMBER_ID env) then "outbound"
  else "unknown".

Definition minimalAnalysis (isBroken : bool) : jsval :=
  JObj [ ("summary", JStr (noContentSummary isBroken));
         ("sentiment", JStr "Neutral");
         ("complianceChecks",
           JObj [ ("greeting", JStr "NA"); ("verification", JStr "NA");
                  ("recordingConsent", JStr "NA"); ("professionalism", JStr "NA") ]);
         ("keyActionItems", JArr []);
         ("score", JNum (num 0));
         ("detailedNotes", JStr (noContentNotes isBroken)) ].

Definition noContentResult (env : Env) (phoneNumberId : option string)
           (isBroken : bool) : jsval :=
  JObj [ ("score", JNum (num 0));
         ("summary", JStr (noContentSummary isBroken));
         ("sentiment", JNull);
         ("complianceCheck", JStr "Review");
         ("complianceNotes", JStr (noContentNotes isBroken));
         ("actionItems", JNull);
         ("metadata",
           JObj [ ("phoneLine", JStr (noContentLine env phoneNumberId));
                  ("emptyTranscript", JBool (negb isBroken));
                  ("brokenTranscript", JBool isBroken);
                  ("reason", JStr (noContentReason isBroken)) ]) ].

(** The [set] of the update that follows the save of the minimal result. *)
Definition noContentUpdate (env : Env) (phoneNumberId : option string)
           (isBroken : bool) (row : AnalysisRow) : AnalysisRow :=
  {| a_callId := a_callId row;
     a_score := num 0;
     a_summary := a_summary row;
     a_sentiment := JNull;
     a_complianceCheck := Review;
     a_complianceNotes := JStr (noContentNotes isBroken);
     a_metadata :=
       MetaNoContent (noContentLine env phoneNumberId)
                     (negb isBroken) isBroken (noContentReason isBroken) |}.

(** The branch [if (!hasContent || isBroken)]: no LLM call. *)
Definition savePlaceholder (env : Env) (callId : string)
           (phoneNumberId : option string) (isBroken : bool) : M AnalyzeCallResult :=
  saveAnalysisToDatabase env callId (minimalAnalysis isBroken) phoneNumberId None ;;;
  update_analysis env callId (noContentUpdate env phoneNumberId isBroken) ;;;
  ret {| success := true; res_callId := callId;
         analysis := Some (noContentResult env phoneNumberId isBroken);
         error := None |}.

(** [await invokeLLM(...)] followed by the parse of the first choice. *)
Definition askLLM (env : Env) (request : LLMRequest) : M jsval :=
  fun w =>
    let w' := log_llm w request in
    match invokeLLM env request with
    | LLMThrows msg => (Throw msg, w')
    | LLMNoContent => (Throw "No response from LLM", w')
    | LLMParseError msg => (Throw msg, w')
    | LLMParsed analysisResult => (Ret analysisResult, w')
    end.

Definition score_in_range (score : jsval) : bool :=
  match score with
  | JNum n => negb (num_ltb n (num 0)) && negb (num_ltb (num 100) n)
  | _ => false
  end.

Definition scoreWithLLM (env : Env) (callId : string) (call : CallRow)
           (providedDirection phoneNumberId : option string)
           (transcriptText : string) : M AnalyzeCallResult :=
  let callDirection := opt_or providedDirection (r_direction call) in
  let inbound := opt_eqb callDirection (Some "incoming") in
  prompt <- (if inbound then buildInboundQAPrompt env transcriptText
             else buildOutboundQAPrompt env transcriptText) ;;
  analysisResult <- askLLM env {| llm_inbound_schema := inbound; llm_prompt := prompt |} ;;
  score <- prop analysisResult "score" ;;
  if negb (score_in_range score) then throw "Invalid score in analysis result"
  else
    saveAnalysisToDatabase env callId analysisResult phoneNumberId callDirection ;;;
    ret {| success := true; res_callId := callId;
           analysis := Some analysisResult; error := None |}.

(** The transcript text and record the dispatcher works with; [None]
    when neither the caller nor the store has a transcript. *)
Definition resolveTranscript (callId : string) (providedTranscript : option string)
  : M (option (string * option TranscriptRow)) :=
  if nonempty (str_or providedTranscript "")
  then ret (Some (str_or providedTranscript "", None))
  else
    transcript <- select_transcript callId ;;
    match transcript with
    | None => ret None
    | Some t => ret (Some (t_fullText t, Some t))
    end.

(** The body of the [try] block. *)
Definition analyzeCall_try (env : Env) (options : AnalyzeCallOptions)
  : M AnalyzeCallResult :=
  let callId := o_callId options in
  getDb ;;;
  call <- select_call callId ;;
  match call with
  | None => ret (failure callId "Call not found")
  | Some call =>
      resolved <- resolveTranscript callId (o_transcriptText options) ;;
      match resolved with
      | None => ret (failure callId "Transcript not found for this call")
      | Some (transcriptText, transcriptRecord) =>
          let (hasContent, isBroken) := contentCheck transcriptText transcriptRecord in
          if negb hasContent || isBroken
          then savePlaceholder env callId (o_phoneNumberId options) isBroken
          else scoreWithLLM env callId call (o_callDirection options)
                            (o_phoneNumberId options) transcriptText
      end
  end.

Definition analyzeCall (env : Env) (options : AnalyzeCallOptions) (w : World)
  : AnalyzeCallResult * World :=
  match analyzeCall_try env options w with
  | (Ret result, w') => (result, w')
  | (Throw errorMessage, w') => (failure (o_callId options) errorMessage, w')
  end.

Definition defaultOptions (callId : string) : AnalyzeCallOptions :=
  {| o_callId := callId; o_transcriptText := None;
     o_callDirection := None; o_phoneNumberId := None |}.

Record BatchResult : Type := {
  total : nat;
  successful : nat;
  failed : nat;
  results : list AnalyzeCallResult
}.

(** The [for] loop of [batchAnalyzeCalls], from the accumulated state. *)
Fixpoint batchLoop (env : Env) (callIds : list string)
         (acc : list AnalyzeCallResult) (successful failed : nat) (w : World)
  : (list AnalyzeCallResult * nat * nat) * World :=
  match callIds with
  | [] => ((acc, successful, failed), w)
  | callId :: rest =>
      let (result, w') := analyzeCall env (defaultOptions callId) w in
      if success result
      then batchLoop env rest (acc ++ [result]) (S successful) failed w'
      else batchLoop env rest (acc ++ [result]) successful (S failed) w'
  end.

Definition batchAnalyzeCalls (env : Env) (callIds : list string) (w : World)
  : BatchResult * World :=
  match batchLoop env callIds [] 0 0 w with
  | ((results, successful, failed), w') =>
      ({| total := List.length callIds; successful := successful;
          failed := failed; results := results |}, w')
  end.

End Analysis.

(** ** The poll pipeline ([server/sync.ts]) *)

Module Sync.

Import Analysis.

Record SyncResult : Type := {
  s_success : bool;
  callsSynced : nat;
  transcriptsSynced : nat;
  analysesTriggered : nat;
  errors : list string
  (* [duration], a wall-clock difference, is not represented *)
}.

Record SyncOptions : Type := {
  s_phoneNumberId : string;
  s_participants : option (list string);
  s_daysToSync : Z;
  s_userId : option string;
  s_autoAnalyze : option bool
}.

Definition add_error (result : SyncResult) (e : string) : SyncResult :=
  {| s_success := s_success result; callsSynced := callsSynced result;
     transcriptsSynced := transcriptsSynced result;
     analysesTriggered := analysesTriggered result;
     errors := errors result ++ [e] |}.

Definition count_call (result : SyncResult) : SyncResult :=
  {| s_success := s_success result; callsSynced := S (callsSynced result);
     transcriptsSynced := transcriptsSynced result;
     analysesTriggered := analysesTriggered result;
     errors := errors result |}.

Definition count_transcript (result : SyncResult) : SyncResult :=
  {| s_success := s_success result; callsSynced := callsSynced result;
     transcriptsSynced := S (transcriptsSynced result);
     analysesTriggered := analysesTriggered result;
     errors := errors result |}.

Definition count_analysis (result : SyncResult) : SyncResult :=
  {| s_success := s_success result; callsSynced := callsSynced result;
     transcriptsSynced := transcriptsSynced result;
     analysesTriggered := S (analysesTriggered result);
     errors := errors result |}.

(** [s ? new Date(s) : null] *)
Definition date_or_null (s : option string) : option Date :=
  match s with
  | Some iso => if nonempty iso then Some (DateOf iso) else None
  | None => None
  end.

Definition callData (call : OpenPhoneCall) : CallRow :=
  {| r_callId := c_id call;
     r_direction := Some (c_direction call);
     r_fromNumber := str_or (c_from call) (str_or (nth_error (c_participants call) 0) "");
     r_toNumber := str_or (c_to call) (str_or (nth_error (c_participants call) 1) "");
     r_duration := num_or_zero (c_duration call);
     r_status := Some (c_status call);
     r_createdAt := DateOf (c_createdAt call);
     r_answeredAt := date_or_null (c_answeredAt call);
     r_completedAt := date_or_null (c_completedAt call);
     r_phoneNumberId := Some (c_phoneNumberId call);
     r_userId := Some (c_userId call);
     r_metadata := MetaOfCall call |}.

(** Returns [true] if the call was updated, [false] if it was inserted. *)
Definition upsertCall (env : Env) (call : OpenPhoneCall) : M bool :=
  getDb ;;;
  existing <- select_call (c_id call) ;;
  match existing with
  | Some _ => update_call env (c_id call) (fun _ => callData call) ;;; ret true
  | None => insert_call env (callData call) ;;; ret false
  end.

(** The predicate of the [filter] in [filterCallsForAnalysis]. *)
Definition qualifies (env : Env) (phoneNumberId : string) (call : OpenPhoneCall) : bool :=
  let isMainLine := String.eqb phoneNumberId (mainPhoneId env) in
  let isOutboundLine := String.eqb phoneNumberId (outboundPhoneId env) in
  if isMainLine && String.eqb (c_direction call) "incoming"
     && num_ltb (num 30) (num_or_zero (c_duration call))
  then true
  else if isOutboundLine && String.eqb (c_direction call) "outgoing"
  then true
  else false.

Definition filterCallsForAnalysis (env : Env) (calls : list OpenPhoneCall)
           (phoneNumberId : string) : list OpenPhoneCall :=
  filter (qualifies env phoneNumberId) calls.

(** The line named in the log entry of [filterCallsForAnalysis]; the
    function records nothing else about its decision. *)
Definition loggedLine (env : Env) (phoneNumberId : string) : string :=
  if String.eqb phoneNumberId (mainPhoneId env) then "main line"
  else if String.eqb phoneNumberId (outboundPhoneId env) then "outbound line"
  else "unknown line".

(** *** Transcript normalisation of the poll path *)

Definition speakerOf (d : DialogueItem) : string :=
  str_or (d_userId d) (str_or (d_identifier d) "Unknown").

Definition lineOf (d : DialogueItem) : string :=
  speakerOf d ++ ": " ++ str_or (d_content d) "".

Definition fullTextOf (dialogue : list DialogueItem) : string :=
  join_lines (map lineOf dialogue).

Definition segmentOf (d : DialogueItem) : Segment :=
  {| seg_start := of_opt_num (d_start d);
     seg_end := of_opt_num (d_end d);
     seg_speaker := JStr (speakerOf d);
     seg_text := JStr (str_or (d_content d) "") |}.

Definition transcriptData (transcript : OpenPhoneTranscript)
           (dialogue : list DialogueItem) : TranscriptRow :=
  {| t_callId := tr_callId transcript;
     t_fullText := fullTextOf dialogue;
     t_jsonPayload := Some {| segments := Some (map segmentOf dialogue) |};
     t_duration := tr_duration transcript;
     t_status := tr_status transcript |}.

(** [await fetchTranscript(callId)], giving [response.data]. *)
Definition requestTranscript (env : Env) (callId : string)
  : M (option OpenPhoneTranscript) :=
  fun w =>
    let w' := log_fetch w callId in
    match fetchTranscript env callId with
    | TranscriptData data => (Ret data, w')
    | TranscriptError msg => (Throw msg, w')
    end.

(** [.set(transcriptData)]: a column whose value is [undefined] is left
    as it was. *)
Definition setTranscript (row old : TranscriptRow) : TranscriptRow :=
  {| t_callId := t_callId row;
     t_fullText := t_fullText row;
     t_jsonPayload :=
       match t_jsonPayload row with Some p => Some p | None => t_jsonPayload old end;
     t_duration :=
       match t_duration row with Some d => Some d | None => t_duration old end;
     t_status :=
       match t_status row with Some s => Some s | None => t_status old end |}.

Definition upsertTranscript (env : Env) (callId : string) (row : TranscriptRow) : M unit :=
  existing <- select_transcript callId ;;
  match existing with
  | Some _ => update_transcript env callId (setTranscript row)
  | None => insert_transcript env row
  end.

(** [fetchTranscriptForCall] of [server/sync.ts]; the webhook receiver
    has a private copy with the same body. *)
Definition fetchTranscriptForCall (env : Env) (callId : string) : M bool :=
  getDb ;;;
  try_catch
    (transcript <- requestTranscript env callId ;;
     match transcript with
     | None => ret false
     | Some transcript =>
         match tr_dialogue transcript with
         | None => ret false
         | Some [] => ret false
         | Some dialogue =>
             upsertTranscript env callId (transcriptData transcript dialogue) ;;;
             ret true
         end
     end)
    (fun msg => if includes msg "404" then ret false else throw msg).

(** *** syncCalls *)

Definition fetchParams (options : SyncOptions) (pageToken : option string) : FetchParams :=
  {| fp_phoneNumberId := s_phoneNumberId options;
     fp_participants :=
       match s_participants options with
       | Some (p :: ps) => Some (p :: ps)
       | _ => None
       end;
     fp_userId := opt_or (s_userId options) None;
     fp_daysToSync := s_daysToSync options;
     fp_pageToken := opt_or pageToken None |}.

(** The [do ... while (pageToken)] loop: the calls accumulated and the
    message of the fetch error that stopped the loop, if any.  [None]
    when the provider has not served a last page within [fuel] pages. *)
Fixpoint fetchAllPages (fuel : nat) (env : Env) (options : SyncOptions)
         (pageToken : option string) (allCalls : list OpenPhoneCall)
  : option (list OpenPhoneCall * option string) :=
  match fuel with
  | O => None
  | S fuel' =>
      match fetchCalls env (fetchParams options pageToken) with
      | CallsPage data nextPageToken =>
          if nonempty (str_or nextPageToken "")
          then fetchAllPages fuel' env options nextPageToken (allCalls ++ data)%list
          else Some ((allCalls ++ data)%list, None)
      | CallsError msg => Some (allCalls, Some msg)
      end
  end.

Definition show_Z (z : Z) : string := NilZero.string_of_int (Z.to_int z).

Definition fetchErrors (options : SyncOptions) (errorMessage : string) : list string :=
  ("Failed to fetch calls: " ++ errorMessage)
  :: (if includes errorMessage "API key is invalid"
      then ["OpenPhone API key is invalid"]
      else if includes errorMessage "Phone number ID not found"
      then ["Phone number ID " ++ quote ++ s_phoneNumberId options
            ++ quote ++ " not found in your OpenPhone account"]
      else []).

Definition afterPaging (options : SyncOptions) (allCalls : list OpenPhoneCall)
           (fetchError : option string) : SyncResult :=
  let errs :=
    match fetchError with
    | Some errorMessage => fetchErrors options errorMessage
    | None => []
    end in
  {| s_success := match fetchError with Some _ => false | None => true end;
     callsSynced := 0; transcriptsSynced := 0; analysesTriggered := 0;
     errors :=
       if Nat.eqb (List.length allCalls) 0 && Nat.eqb (List.length errs) 0
       then ["No calls found in the last " ++ show_Z (s_daysToSync options)
             ++ " days for this phone number"]
       else errs |}.

Fixpoint saveCalls (env : Env) (completedCalls : list OpenPhoneCall)
         (result : SyncResult) (w : World) : SyncResult * World :=
  match completedCalls with
  | [] => (result, w)
  | call :: rest =>
      match upsertCall env call w with
      | (Ret _, w') => saveCalls env rest (count_call result) w'
      | (Throw errorMessage, w') =>
          saveCalls env rest
            (add_error result
               ("Failed to save call " ++ c_id call ++ ": " ++ errorMessage)) w'
      end
  end.

Fixpoint saveTranscripts (env : Env) (completedCalls : list OpenPhoneCall)
         (result : SyncResult) (w : World) : SyncResult * World :=
  match completedCalls with
  | [] => (result, w)
  | call :: rest =>
      match fetchTranscriptForCall env (c_id call) w with
      | (Ret true, w') => saveTranscripts env rest (count_transcript result) w'
      | (Ret false, w') => saveTranscripts env rest result w'
      | (Throw _, w') =>
          (* logged only: "No transcript available for call ..." *)
          saveTranscripts env rest result w'
      end
  end.

Definition analysisOptions (options : SyncOptions) (call : OpenPhoneCall)
  : AnalyzeCallOptions :=
  {| o_callId := c_id call; o_transcriptText := None; o_callDirection := None;
     o_phoneNumberId := Some (s_phoneNumberId options) |}.

(** [analyzeCall] returns in every case, so the [catch] of this loop
    has no counterpart here. *)
Fixpoint analyzeCalls (env : Env) (options : SyncOptions)
         (callsToAnalyze : list OpenPhoneCall)
         (result : SyncResult) (w : World) : SyncResult * World :=
  match callsToAnalyze with
  | [] => (result, w)
  | call :: rest =>
      let (analysisResult, w') := analyzeCall env (analysisOptions options call) w in
      if success analysisResult
      then analyzeCalls env options rest (count_analysis result) w'
      else analyzeCalls env options rest
             (add_error result
                ("Analysis failed for call " ++ c_id call ++ ": "
                 ++ render (error analysisResult))) w'
  end.

Definition completed (allCalls : list OpenPhoneCall) : list OpenPhoneCall :=
  filter (fun call => String.eqb (c_status call) "completed") allCalls.

Definition shouldAutoAnalyze (options : SyncOptions) : bool :=
  match s_autoAnalyze options with Some false => false | _ => true end.

(** The work done once the pages are in. *)
Definition processCalls (env : Env) (options : SyncOptions)
           (allCalls : list OpenPhoneCall) (fetchError : option string)
           (w : World) : SyncResult * World :=
  let result := afterPaging options allCalls fetchError in
  let completedCalls := completed allCalls in
  let (result1, w1) := saveCalls env completedCalls result w in
  let (result2, w2) := saveTranscripts env completedCalls result1 w1 in
  if shouldAutoAnalyze options
  then analyzeCalls env options
         (filterCallsForAnalysis env completedCalls (s_phoneNumberId options))
         result2 w2
  else (result2, w2).

Definition syncCalls (fuel : nat) (env : Env) (options : SyncOptions) (w : World)
  : option (SyncResult * World) :=
  if db_available w then
    match fetchAllPages fuel env options None [] with
    | None => None
    | Some (allCalls, fetchError) =>
        Some (processCalls env options allCalls fetchError w)
    end
  else
    Some ({| s_success := false; callsSynced := 0; transcriptsSynced := 0;
             analysesTriggered := 0; errors := ["Database not available"] |}, w).

End Sync.

(** ** The push pipeline (the OpenPhone webhook receiver) *)

Module Webhook.

Import Analysis.

(** The call object of an event; every field may be missing. *)
Record CallData : Type := {
  w_id : option string;
  w_callId : option string;
  w_phoneNumberId : option string;
  w_direction : option string;
  w_duration : option Qc;
  w_status : option string;
  w_createdAt : option string;
  w_answeredAt : option string;
  w_completedAt : option string;
  w_userId : option string;
  w_answeredBy : option string;
  w_initiatedBy : option string;
  w_participants : option (list string);
  w_from : option string;
  w_to : option string;
  w_dialogue : option (list DialogueItem);
  w_transcript_dialogue : option (list DialogueItem)   (* [transcript?.dialogue] *)
}.

(** [data]: its own fields, and the [object] it may wrap. *)
Record EventData : Type := {
  e_object : option CallData;
  e_fields : CallData
}.

(** [req.body] *)
Record Body : Type := {
  b_type : option string;
  b_data : option EventData
}.

Record HttpResponse : Type := {
  status : nat;
  received : bool;
  processed : option bool;
  reason : option string;
  resp_callId : option string;
  willAnalyze : option bool;
  resp_phoneLine : option string;
  resp_error : option string
}.

(** [data?.object || data] *)
Definition callDataOf (data : option EventData) : option CallData :=
  match data with
  | Some e => match e_object e with Some o => Some o | None => Some (e_fields e) end
  | None => None
  end.

(** [a || b] on optional arrays: an array, even empty, is truthy. *)
Definition arr_or {A : Type} (a b : option (list A)) : option (list A) :=
  match a with Some l => Some l | None => b end.

Definition arr_or_empty {A : Type} (a : option (list A)) : list A :=
  match a with Some l => l | None => [] end.

(** [s ? new Date(s) : new Date()] *)
Definition date_or_now (s : option string) : Date :=
  match s with
  | Some iso => if nonempty iso then DateOf iso else DateNow
  | None => DateNow
  end.

Record Extracted : Type := {
  x_callId : option string;
  x_phoneNumberId : option string;
  x_direction : option string;
  x_duration : Qc;
  x_status : option string;
  x_fromNumber : string;
  x_toNumber : string;
  x_participants : list string;
  x_dialogue : list DialogueItem;
  x_createdAt : Date;
  x_answeredAt : option Date;
  x_completedAt : option Date;
  x_userId : option string;
  x_answeredBy : option string;
  x_initiatedBy : option string
}.

(** The branch [if (isTranscriptCompleted)]. *)
Definition extractTranscriptCompleted (data : option EventData) (callData : CallData)
  : Extracted :=
  {| x_callId := opt_or (w_callId callData) (w_id callData);
     x_phoneNumberId := w_phoneNumberId callData;
     x_direction := w_direction callData;
     x_duration := num_or_zero (w_duration callData);
     x_status := Some (str_or (w_status callData) "completed");
     x_fromNumber := str_or (w_from callData) "";
     x_toNumber := str_or (w_to callData) "";
     x_participants := arr_or_empty (w_participants callData);
     x_dialogue :=
       arr_or_empty
         (arr_or (w_dialogue callData)
            (arr_or (w_transcript_dialogue callData)
               (match data with Some e => w_dialogue (e_fields e) | None => None end)));
     x_createdAt := date_or_now (w_createdAt callData);
     x_answeredAt := None;
     x_completedAt := Some (date_or_now (w_completedAt callData));
     x_userId := None;
     x_answeredBy := None;
     x_initiatedBy := None |}.

(** The [else] branch: a [call.completed] event. *)
Definition extractCallCompleted (callData : CallData) : Extracted :=
  let direction := w_direction callData in
  let incoming := opt_eqb direction (Some "incoming") in
  let participants := arr_or_empty (w_participants callData) in
  {| x_callId := w_id callData;
     x_phoneNumberId := w_phoneNumberId callData;
     x_direction := direction;
     x_duration := num_or_zero (w_duration callData);
     x_status := w_status callData;
     x_fromNumber :=
       if incoming
       then str_or (nth_error participants 1) (str_or (w_from callData) "")
       else str_or (nth_error participants 0) (str_or (w_from callData) "");
     x_toNumber :=
       if incoming
       then str_or (nth_error participants 0) (str_or (w_to callData) "")
       else str_or (nth_error participants 1) (str_or (w_to callData) "");
     x_participants := participants;
     x_dialogue :=
       arr_or_empty (arr_or (w_transcript_dialogue callData) (w_dialogue callData));
     x_createdAt := date_or_now (w_createdAt callData);
     x_answeredAt := Sync.date_or_null (w_answeredAt callData);
     x_completedAt := Sync.date_or_null (w_completedAt callData);
     x_userId := w_userId callData;
     x_answeredBy := w_answeredBy callData;
     x_initiatedBy := w_initiatedBy callData |}.

(** *** The inline line-routing decision *)

Record Routing : Type := {
  shouldAnalyze : bool;
  phoneLine : string;
  filterReason : string
}.

Definition routing (env : Env) (phoneNumberId direction : option string)
           (duration : Qc) : Routing :=
  if opt_eqb phoneNumberId (OPENPHONE_MAIN_PHONE_NUMBER_ID env) then
    let shouldAnalyze :=
      opt_eqb direction (Some "incoming") && num_ltb (num 30) duration in
    {| shouldAnalyze := shouldAnalyze;
       phoneLine := "main";
       filterReason :=
         if negb shouldAnalyze
         then "Main line filter: " ++ render direction ++ " call, "
              ++ String_of env (JNum duration) ++ "s (need incoming >30s)"
         else "Qualifies: Incoming >30s" |}
  else if opt_eqb phoneNumberId (OPENPHONE_OUTBOUND_PHONE_NUMBER_ID env) then
    let shouldAnalyze := opt_eqb direction (Some "outgoing") in
    {| shouldAnalyze := shouldAnalyze;
       phoneLine := "outbound";
       filterReason :=
         if negb shouldAnalyze
         then "Outbound line filter: " ++ render direction ++ " call (need outgoing)"
         else "Qualifies: Outgoing call" |}
  else
    {| shouldAnalyze := false;
       phoneLine := "unknown";
       filterReason := "Unknown phone number: " ++ render phoneNumberId |}.

(** *** Saving the call *)

(** A statement keyed by an [undefined] call id is rejected by the
    database driver. *)
Definition keyed {A : Type} (callId : option string) (f : string -> M A) : M A :=
  match callId with
  | Some k => f k
  | None => throw "Bind parameters must not contain undefined. To pass SQL NULL specify JS null"
  end.

Definition webhookMeta (eventType : option string) (x : Extracted) (r : Routing)
  : WebhookMeta :=
  {| m_phoneLine := phoneLine r;
     m_shouldAnalyze := shouldAnalyze r;
     m_filterReason := filterReason r;
     m_answeredBy := x_answeredBy x;
     m_initiatedBy := x_initiatedBy x;
     m_webhookReceivedAt := DateNow;
     m_webhookEventType := eventType;
     m_participants := x_participants x;
     m_hasTranscript := Nat.ltb 0 (List.length (x_dialogue x)) |}.

Definition callRecord (callId : string) (eventType : option string)
           (x : Extracted) (r : Routing) : CallRow :=
  {| r_callId := callId;
     r_direction := x_direction x;
     r_fromNumber := x_fromNumber x;
     r_toNumber := x_toNumber x;
     r_duration := x_duration x;
     r_status := x_status x;
     r_createdAt := x_createdAt x;
     r_answeredAt := x_answeredAt x;
     r_completedAt := x_completedAt x;
     r_phoneNumberId := x_phoneNumberId x;
     r_userId := x_userId x;
     r_metadata := MetaOfWebhook (webhookMeta eventType x r) |}.

(** The [set] of the update of an existing call: the event's status,
    completion time, duration and metadata, and the line, numbers and
    direction only where the event carries them.  A column whose new
    value is [undefined] is left as it is. *)
Definition mergeCall (eventType : option string) (x : Extracted) (r : Routing)
           (existing row : CallRow) : CallRow :=
  {| r_callId := r_callId row;
     r_direction := opt_or (x_direction x) (r_direction existing);
     r_fromNumber :=
       if nonempty (x_fromNumber x) then x_fromNumber x else r_fromNumber existing;
     r_toNumber :=
       if nonempty (x_toNumber x) then x_toNumber x else r_toNumber existing;
     r_duration := x_duration x;
     r_status := match x_status x with Some s => Some s | None => r_status row end;
     r_createdAt := r_createdAt row;
     r_answeredAt := r_answeredAt row;
     r_completedAt := x_completedAt x;
     r_phoneNumberId := opt_or (x_phoneNumberId x) (r_phoneNumberId existing);
     r_userId := r_userId row;
     r_metadata := MetaOfWebhook (webhookMeta eventType x r) |}.

(** The inner [try] around the call upsert; its [catch] only logs. *)
Definition saveCall (env : Env) (eventType : option string)
           (x : Extracted) (r : Routing) : M unit :=
  try_catch
    (getDb ;;;
     keyed (x_callId x) (fun callId =>
       existing <- select_call callId ;;
       match existing with
       | Some row => update_call env callId (mergeCall eventType x r row)
       | None => insert_call env (callRecord callId eventType x r)
       end))
    (fun _ => ret tt).

(** *** Transcript normalisation of the push path *)

Definition is_some {A : Type} (a : option A) : bool :=
  match a with Some _ => true | None => false end.

Definition hasContent (d : DialogueItem) : bool :=
  match d_content d with
  | Some content => Nat.ltb 0 (String.length (trim content))
  | None => false
  end.

Definition hasSpeaker (d : DialogueItem) : bool :=
  is_some (d_userId d) || is_some (d_identifier d).

Definition validItem (d : DialogueItem) : bool := hasContent d && hasSpeaker d.

Definition segmentOf (d : DialogueItem) : Segment :=
  {| seg_start := JNum (num_or_zero (d_start d));
     seg_end := JNum (num_or_zero (d_end d));
     seg_speaker := JStr (Sync.speakerOf d);
     seg_text := JStr (str_or (d_content d) "") |}.

Definition fullTextOf (validDialogue : list DialogueItem) : string :=
  join_lines (map Sync.lineOf validDialogue).

Definition transcriptData (callId : string) (x : Extracted)
           (validDialogue : list DialogueItem) : TranscriptRow :=
  {| t_callId := callId;
     t_fullText := fullTextOf validDialogue;
     t_jsonPayload := Some {| segments := Some (map segmentOf validDialogue) |};
     t_duration := Some (x_duration x);
     t_status := x_status x |}.

Definition dispatch (env : Env) (callId : string) (phoneNumberId : option string)
  : M AnalyzeCallResult :=
  fun w =>
    let (result, w') :=
      analyzeCall env {| o_callId := callId; o_transcriptText := None;
                         o_callDirection := None;
                         o_phoneNumberId := phoneNumberId |} w in
    (Ret result, w').

(** The branch [if (dialogue.length > 0)], inside its [try]. *)
Definition saveTranscript (env : Env) (x : Extracted) (r : Routing) : M unit :=
  getDb ;;;
  let validDialogue := filter validItem (x_dialogue x) in
  match validDialogue with
  | [] => throw "No valid dialogue items in transcript"
  | _ :: _ =>
      keyed (x_callId x) (fun callId =>
        Sync.upsertTranscript env callId (transcriptData callId x validDialogue) ;;;
        if shouldAnalyze r
        then dispatch env callId (x_phoneNumberId x) ;;; ret tt
        else ret tt)
  end.

(** The delayed task of the branch [else if (shouldAnalyze && isCallCompleted)],
    inside its [try].  The delay itself is not represented. *)
Definition delayedFetch (env : Env) (x : Extracted) : M unit :=
  match x_callId x with
  | Some callId =>
      transcriptSaved <- Sync.fetchTranscriptForCall env callId ;;
      if (transcriptSaved : bool)
      then dispatch env callId (x_phoneNumberId x) ;;; ret tt
      else ret tt
  | None =>
      getDb ;;;
      try_catch
        (transcript <- Sync.requestTranscript env "undefined" ;;
         match transcript with
         | None => ret tt
         | Some transcript =>
             match tr_dialogue transcript with
             | None | Some [] => ret tt
             | Some _ => keyed None (fun _ => ret tt)
             end
         end)
        (fun msg => if includes msg "404" then ret tt else throw msg)
  end.

(** What the handler does after it has responded. *)
Definition afterResponse (env : Env) (isCallCompleted : bool)
           (x : Extracted) (r : Routing) (w : World) : World :=
  if Nat.ltb 0 (List.length (x_dialogue x)) then
    snd (try_catch (saveTranscript env x r) (fun _ => ret tt) w)
  else if shouldAnalyze r && isCallCompleted then
    snd (try_catch (delayedFetch env x) (fun _ => ret tt) w)
  else w.

(** *** The handler *)

Definition healthRecord (eventType : option string) (callData : option CallData)
  : HealthRow :=
  {| h_lastWebhookReceived := DateNow;
     h_eventType := eventType;
     h_callId :=
       match callData with
       | Some c => opt_or (w_id c) (opt_or (w_callId c) None)
       | None => None
       end |}.

(** The [try] block that tracks the health of the webhook; its [catch]
    only logs. *)
Definition trackHealth (env : Env) (eventType : option string)
           (callData : option CallData) : M unit :=
  try_catch
    (fun w =>
       if db_available w
       then insert_health env (healthRecord eventType callData) w
       else (Ret tt, w))
    (fun _ => ret tt).

Definition ignored (eventType : option string) : HttpResponse :=
  {| status := 200; received := true; processed := Some false;
     reason := Some ("Not a call event (type: " ++ render eventType ++ ")");
     resp_callId := None; willAnalyze := None; resp_phoneLine := None;
     resp_error := None |}.

Definition acknowledged (x : Extracted) (r : Routing) : HttpResponse :=
  {| status := 200; received := true; processed := Some true;
     reason := None;
     resp_callId := x_callId x; willAnalyze := Some (shouldAnalyze r);
     resp_phoneLine := Some (phoneLine r);
     resp_error := None |}.

Definition internalError : HttpResponse :=
  {| status := 200; received := true; processed := None;
     reason := None; resp_callId := None; willAnalyze := None;
     resp_phoneLine := None;
     resp_error := Some "Internal processing error" |}.

(** The work that remains once the response is sent. *)
Record Pending : Type := {
  p_isCallCompleted : bool;
  p_extracted : Extracted;
  p_routing : Routing
}.

(** The [try] block up to the response; [Throw] is taken by the outer
    [catch]. *)
Definition respond (env : Env) (body : option Body)
  : M (HttpResponse * option Pending) :=
  match body with
  | None => throw "Cannot read properties of undefined (reading 'type')"
  | Some body =>
      let data := b_data body in
      let type := b_type body in
      let callData := callDataOf data in
      trackHealth env type callData ;;;
      let isCallCompleted := opt_eqb type (Some "call.completed") in
      let isTranscriptCompleted := opt_eqb type (Some "call.transcript.completed") in
      if negb isCallCompleted && negb isTranscriptCompleted
      then ret (ignored type, None)
      else
        match callData with
        | None =>
            throw (if isTranscriptCompleted
                   then "Cannot read properties of undefined (reading 'callId')"
                   else "Cannot read properties of undefined (reading 'id')")
        | Some callData =>
            let x := if isTranscriptCompleted
                     then extractTranscriptCompleted data callData
                     else extractCallCompleted callData in
            let r := routing env (x_phoneNumberId x) (x_direction x) (x_duration x) in
            saveCall env type x r ;;;
            ret (acknowledged x r,
                 Some {| p_isCallCompleted := isCallCompleted;
                         p_extracted := x; p_routing := r |})
        end
  end.

Definition handler (env : Env) (body : option Body) (w : World)
  : HttpResponse * World :=
  match respond env body w with
  | (Ret (response, None), w') => (response, w')
  | (Ret (response, Some p), w') =>
      (response, afterResponse env (p_isCallCompleted p) (p_extracted p) (p_routing p) w')
  | (Throw _, w') => (internalError, w')
  end.

End Webhook.

(** ** Predicates used in the statements *)

(** [keeps proj m]: running [m] leaves the component [proj] of the world
    as it was, whether [m] returns or throws. *)
Definition keeps {A X : Type} (proj : World -> X) (m : M A) : Prop :=
  forall w, proj (snd (m w)) = proj w.

(** A component of the world that is not part of the tables. *)
Definition table_free {X : Type} (proj : World -> X) : Prop :=
  forall w d, proj (with_tables w d) = proj w.

(** A component of the world that is not the log of LLM requests, and one
    that is not the log of transcript requests. *)
Definition llm_free {X : Type} (proj : World -> X) : Prop :=
  forall w request, proj (log_llm w request) = proj w.

Definition fetch_free {X : Type} (proj : World -> X) : Prop :=
  forall w callId, proj (log_fetch w callId) = proj w.

(** ** Concrete scenarios *)

Module Scenario.

Definition mainLine : string := "PNVbbBqeqM".
Definition outboundLine : string := "PNBANAZERt".

Definition call (id direction status : string) (seconds : Z) : OpenPhoneCall :=
  {| c_id := id;
     c_phoneNumberId := mainLine;
     c_userId := "US1";
     c_direction := direction;
     c_status := status;
     c_participants := ["+14125550100"; "+14125739101"];
     c_duration := Some (num seconds);
     c_createdAt := "2025-01-06T15:00:00Z";
     c_completedAt := Some "2025-01-06T15:01:00Z";
     c_answeredAt := Some "2025-01-06T15:00:05Z";
     c_from := None;
     c_to := None |}.

Definition call1 : OpenPhoneCall := call "AC1" "incoming" "completed" 45.
Definition call2 : OpenPhoneCall := call "AC2" "incoming" "completed" 50.
Definition call3 : OpenPhoneCall := call "AC3" "incoming" "missed" 0.

Definition item (content : string) (start stop : Z)
           (identifier userId : option string) : DialogueItem :=
  {| d_content := Some content;
     d_start := Some (num start); d_end := Some (num stop);
     d_identifier := identifier; d_userId := userId |}.

(** Two well-formed utterances. *)
Definition dialogue_ok : list DialogueItem :=
  [ item "Thank you for calling, how can I help?" 0 4 None (Some "US1");
    item "Hi, my kitchen sink is leaking." 4 7 (Some "+14125550100") None ].

(** Two items with neither text nor speaker. *)
Definition dialogue_blank : list DialogueItem :=
  [ item "" 0 5 None None; item "" 5 9 None None ].

(** A well-formed utterance followed by one without text. *)
Definition dialogue_mixed : list DialogueItem :=
  [ item "Thank you for calling, how can I help?" 0 4 None (Some "US1");
    item "" 4 7 (Some "+14125550100") None ].

(** A well-formed utterance without start and end times. *)
Definition dialogue_untimed : list DialogueItem :=
  [ {| d_content := Some "Thank you for calling, how can I help?";
       d_start := None; d_end := None;
       d_identifier := None; d_userId := Some "US1" |} ].

Definition transcriptOf (callId : string) (dialogue : list DialogueItem)
  : FetchTranscriptOutcome :=
  TranscriptData
    (Some {| tr_callId := callId; tr_duration := Some (num 9);
             tr_status := Some "completed"; tr_dialogue := Some dialogue |}).

Definition response (score : Qc) : jsval :=
  JObj [ ("score", JNum score);
         ("sentiment", JStr "Positive");
         ("summary", JStr "Caller reported a leaking sink. A visit was scheduled.");
         ("complianceChecks",
           JObj [ ("greeting",
                    JObj [("compliant", JBool true); ("notes", JStr "Clear greeting")]);
                  ("empathy",
                    JObj [("compliant", JBool true); ("notes", JStr "Acknowledged")]) ]);
         ("coachingNotes", JStr "Confirm the address earlier.") ].

Definition mkEnv (pages : FetchParams -> FetchCallsOutcome)
           (transcript : string -> FetchTranscriptOutcome)
           (llm : LLMRequest -> LLMOutcome) : Env :=
  {| OPENPHONE_MAIN_PHONE_NUMBER_ID := Some mainLine;
     OPENPHONE_OUTBOUND_PHONE_NUMBER_ID := Some outboundLine;
     fetchCalls := pages;
     fetchTranscript := transcript;
     invokeLLM := llm;
     inboundPromptBody := fun t => "INBOUND " ++ t;
     outboundPromptBody := fun t => "OUTBOUND " ++ t;
     String_of := fun _ => "[value]";
     write_fault := fun _ => None;
     health_fault := fun _ => None |}.

Definition onePage (_ : FetchParams) : FetchCallsOutcome :=
  CallsPage [call1; call2; call3] None.

(** The LLM answers with score 85; every call has the transcript
    [dialogue_ok]. *)
Definition env_ok : Env :=
  mkEnv onePage (fun k => transcriptOf k dialogue_ok)
        (fun _ => LLMParsed (response (num 85))).

(** The LLM answers with score 50.5, which the [int] column keeps as 51. *)
Definition env_half : Env :=
  mkEnv onePage (fun k => transcriptOf k dialogue_ok)
        (fun _ => LLMParsed (response (Q2Qc (101 # 2)))).

(** The LLM answers with score 150. *)
Definition env_150 : Env :=
  mkEnv onePage (fun k => transcriptOf k dialogue_ok)
        (fun _ => LLMParsed (response (num 150))).

(** The provider serves [dialogue_blank] for every call. *)
Definition env_blank : Env :=
  mkEnv onePage (fun k => transcriptOf k dialogue_blank)
        (fun _ => LLMParsed (response (num 85))).


(** Both line variables name the same line. *)
Definition env_same : Env :=
  {| OPENPHONE_MAIN_PHONE_NUMBER_ID := Some "PNsame";
     OPENPHONE_OUTBOUND_PHONE_NUMBER_ID := Some "PNsame";
     fetchCalls := onePage;
     fetchTranscript := fun k => transcriptOf k dialogue_ok;
     invokeLLM := fun _ => LLMParsed (response (num 85));
     inboundPromptBody := fun t => "INBOUND " ++ t;
     outboundPromptBody := fun t => "OUTBOUND " ++ t;
     String_of := fun _ => "[value]";
     write_fault := fun _ => None;
     health_fault := fun _ => None |}.

Definition emptyDb : Db :=
  {| calls := []; transcripts := []; analyses := []; webhookHealth := [] |}.

Definition world0 : World :=
  {| db_available := true; tables := emptyDb; fetch_log := []; llm_log := [] |}.

(** The store holding [call1] and nothing else. *)
Definition world1 : World :=
  with_tables world0 (with_calls emptyDb [Sync.callData call1]).

(** [world1] with the transcript of [call1] as the poll path stores
    [dialogue_ok]. *)
Definition world2 : World :=
  snd (Sync.fetchTranscriptForCall env_ok "AC1" world1).



Definition options : Sync.SyncOptions :=
  {| Sync.s_phoneNumberId := mainLine; Sync.s_participants := None;
     Sync.s_daysToSync := 7; Sync.s_userId := None;
     Sync.s_autoAnalyze := None |}.

Definition noCallData : Webhook.CallData :=
  {| Webhook.w_id := None; Webhook.w_callId := None;
     Webhook.w_phoneNumberId := None; Webhook.w_direction := None;
     Webhook.w_duration := None; Webhook.w_status := None;
     Webhook.w_createdAt := None; Webhook.w_answeredAt := None;
     Webhook.w_completedAt := None; Webhook.w_userId := None;
     Webhook.w_answeredBy := None; Webhook.w_initiatedBy := None;
     Webhook.w_participants := None; Webhook.w_from := None;
     Webhook.w_to := None; Webhook.w_dialogue := None;
     Webhook.w_transcript_dialogue := None |}.

(** A [call.transcript.completed] event for [call1] carrying a dialogue. *)
Definition body_transcript (dialogue : list DialogueItem) : Webhook.Body :=
  {| Webhook.b_type := Some "call.transcript.completed";
     Webhook.b_data :=
       Some {| Webhook.e_object :=
                 Some {| Webhook.w_id := None; Webhook.w_callId := Some "AC1";
                         Webhook.w_phoneNumberId := Some mainLine;
                         Webhook.w_direction := Some "incoming";
                         Webhook.w_duration := Some (num 45);
                         Webhook.w_status := Some "completed";
                         Webhook.w_createdAt := None; Webhook.w_answeredAt := None;
                         Webhook.w_completedAt := None; Webhook.w_userId := None;
                         Webhook.w_answeredBy := None; Webhook.w_initiatedBy := None;
                         Webhook.w_participants := None; Webhook.w_from := None;
                         Webhook.w_to := None; Webhook.w_dialogue := Some dialogue;
                         Webhook.w_transcript_dialogue := None |};
               Webhook.e_fields := noCallData |} |}.

(** The provider serves [dialogue_mixed] for every call. *)
Definition env_mixed : Env :=
  mkEnv onePage (fun k => transcriptOf k dialogue_mixed)
        (fun _ => LLMParsed (response (num 85))).

(** The provider serves [dialogue_untimed] for every call. *)
Definition env_untimed : Env :=
  mkEnv onePage (fun k => transcriptOf k dialogue_untimed)
        (fun _ => LLMParsed (response (num 85))).

(** An event of a type the receiver does not process. *)
Definition body_other : Webhook.Body :=
  {| Webhook.b_type := Some "message.received";
     Webhook.b_data := Some {| Webhook.e_object := None;
                               Webhook.e_fields := noCallData |} |}.

(** A [call.completed] event that carries no [data]. *)
Definition body_no_data : Webhook.Body :=
  {| Webhook.b_type := Some "call.completed"; Webhook.b_data := None |}.

End Scenario.

(** ** Readers of the store ([server/db.ts]) *)

Module Queries.

Definition getCallById (callId : string) : M (option CallRow) :=
  getDb ;;;
  select_call callId.

Definition getTranscriptByCallId (callId : string) : M (option TranscriptRow) :=
  getDb ;;;
  select_transcript callId.

Definition getAnalysisByCallId (callId : string) : M (option AnalysisRow) :=
  getDb ;;;
  select_analysis callId.

Record CallDetails : Type := {
  call : CallRow;
  transcript : option TranscriptRow;
  analysis : option AnalysisRow
}.

Definition getCallWithDetails (callId : string) : M (option CallDetails) :=
  getDb ;;;
  found <- getCallById callId ;;
  match found with
  | None => ret None
  | Some row =>
      t <- getTranscriptByCallId callId ;;
      a <- getAnalysisByCallId callId ;;
      ret (Some {| call := row; transcript := t; analysis := a |})
  end.

End Queries.

(** ** Phone numbers ([normalizePhoneNumber] of [server/sync.ts]) *)

Module PhoneNumber.

(** [\d] *)
Definition is_digit (c : ascii) : bool :=
  let n := nat_of_ascii c in
  Nat.leb 48 n && Nat.leb n 57.

(** [s.replace(/[^\d+]/g, "")] *)
Fixpoint digits_and_plus (s : string) : string :=
  match s with
  | EmptyString => EmptyString
  | String c r =>
      if is_digit c || Ascii.eqb c "+"%char
      then String c (digits_and_plus r)
      else digits_and_plus r
  end.

Definition normalizePhoneNumber (phoneNumber : string) : string :=
  let cleaned := digits_and_plus phoneNumber in
  if startsWith cleaned "+" then cleaned
  else if Nat.eqb (String.length cleaned) 10 then "+1" ++ cleaned
  else if Nat.eqb (String.length cleaned) 11 && startsWith cleaned "1"
       then "+" ++ cleaned
       else cleaned.

(** A string of decimal digits. *)
Fixpoint all_digits (s : string) : bool :=
  match s with
  | EmptyString => true
  | String c r => is_digit c && all_digits r
  end.

End PhoneNumber.

(** ** The legacy result validator ([validateQAResult] of the QA criteria) *)

Module Criteria.

(** [typeof v === "object"] *)
Definition is_object (v : jsval) : bool :=
  match v with JNull | JArr _ | JObj _ => true | _ => false end.

Definition is_string (v : jsval) : bool :=
  match v with JStr _ => true | _ => false end.

Definition is_boolean (v : jsval) : bool :=
  match v with JBool _ => true | _ => false end.

(** [Array.isArray(v)] *)
Definition is_array (v : jsval) : bool :=
  match v with JArr _ => true | _ => false end.

(** [allowed.includes(v)] for an array of strings *)
Definition one_of (allowed : list string) (v : jsval) : bool :=
  existsb (is_str v) allowed.

Definition validValues : list string := ["Yes"; "No"; "NA"].

(** [typeof score !== "number" || score < 0 || score > 100] *)
Definition bad_score (score : jsval) : bool :=
  match score with
  | JNum n => num_ltb n (num 0) || num_ltb (num 100) n
  | _ => true
  end.

(** The three blocks guarded by [!== undefined]: [true] when the block
    makes the validator return [false]. *)
Definition bad_painPointIdentification (p : jsval) : bool :=
  if Analysis.is_undefined p then false
  else if negb (truthy p) || negb (is_object p) then true
  else if negb (one_of ["Strong"; "Moderate"; "Weak"; "None"] (get_opt p "strength"))
  then true
  else if negb (is_string (get_opt p "notes")) then true
  else false.

Definition bad_objectionHandling (o : jsval) : bool :=
  if Analysis.is_undefined o then false
  else if negb (truthy o) || negb (is_object o) then true
  else if negb (one_of ["Effective"; "Attempted"; "Poor"; "No objections"]
                       (get_opt o "rating"))
  then true
  else if negb (is_array (get_opt o "objections")) then true
  else if negb (is_string (get_opt o "response")) then true
  else false.

Definition bad_callToAction (c : jsval) : bool :=
  if Analysis.is_undefined c then false
  else if negb (truthy c) || negb (is_object c) then true
  else if negb (is_boolean (get_opt c "attempted")) then true
  else if negb (is_string (get_opt c "result")) then true
  else if negb (is_string (get_opt c "notes")) then true
  else false.

Definition validateQAResult (result : jsval) : bool :=
  if negb (truthy result) || negb (is_object result) then false
  else if negb (is_string (get_opt result "summary")) then false
  else if negb (one_of ["Positive"; "Neutral"; "Negative"] (get_opt result "sentiment"))
  then false
  else
    let checks := get_opt result "complianceChecks" in
    if negb (truthy checks) || negb (is_object checks) then false
    else if negb (one_of validValues (get_opt checks "greeting")) then false
    else if negb (one_of validValues (get_opt checks "verification")) then false
    else if negb (one_of validValues (get_opt checks "recordingConsent")) then false
    else if negb (one_of validValues (get_opt checks "professionalism")) then false
    else if negb (is_array (get_opt result "keyActionItems")) then false
    else if bad_score (get_opt result "score") then false
    else if negb (is_string (get_opt result "detailedNotes")) then false
    else if bad_painPointIdentification (get_opt result "painPointIdentification")
    then false
    else if bad_objectionHandling (get_opt result "objectionHandling") then false
    else if bad_callToAction (get_opt result "callToAction") then false
    else true.

End Criteria.

(** ** Error messages of the provider client ([server/openphone.ts]) *)

Module OpenPhone.

(** A response that is not [ok]: its status, its body, and what
    [JSON.parse] makes of the body, [None] when it throws. *)
Record ErrorResponse : Type := {
  status : Z;
  errorText : string;
  errorJson : option jsval
}.

(** [v?.includes(needle)]: [Some false] stands for the [undefined] of a
    missing receiver, [None] for the [TypeError] of a receiver without
    [includes]. *)
Definition includes_of (v : jsval) (needle : string) : option bool :=
  match v with
  | JUndefined | JNull => Some false
  | JStr s => Some (includes s needle)
  | JArr items => Some (existsb (fun x => is_str x needle) items)
  | _ => None
  end.

(** The message of the [Error] thrown by [makeOpenPhoneRequest] for such
    a response; [fetchTranscript] rethrows it as it is. *)
Definition requestError (env : Env) (response : ErrorResponse) : string :=
  let errorMessage :=
    "OpenPhone API error (" ++ Sync.show_Z (status response) ++ "): "
    ++ errorText response in
  if Z.eqb (status response) 401 then "OpenPhone API key is invalid"
  else if Z.eqb (status response) 404 then
    match errorJson response with
    | Some json =>
        match get json "message" with
        | Some message =>
            if truthy message then Analysis.show env message else errorMessage
        | None => errorMessage
        end
    | None => errorMessage
    end
  else if Z.eqb (status response) 400 then
    match errorJson response with
    | Some json =>
        match get json "message" with
        | Some message =>
            match includes_of message "phoneNumberId" with
            | Some true => "Phone number ID not found in your OpenPhone account"
            | Some false =>
                match includes_of message "phone number" with
                | Some true => "Phone number ID not found in your OpenPhone account"
                | Some false =>
                    if truthy message then Analysis.show env message
                    else errorText response
                | None => errorText response
                end
            | None => errorText response
            end
        | None => errorText response
        end
    | None => errorText response
    end
  else errorMessage.

(** What [fetchCalls] catches.  The body of a failed request is a text
    or a JSON object, seen through its [message] field and its
    [JSON.stringify]. *)
Inductive ErrorBody : Type :=
| BodyText (text : string)
| BodyObject (message : option string) (json : string).

Inductive Failure : Type :=
| AxiosError (status : option Z) (data : option ErrorBody) (message : string)
| OtherError (message : string).

(** [typeof errorText === "string" ? errorText : JSON.stringify(errorText)] *)
Definition text_or_json (errorText : ErrorBody) : string :=
  match errorText with
  | BodyText text => text
  | BodyObject _ json => json
  end.

(** The message of the [Error] thrown by the [catch] of [fetchCalls]. *)
Definition fetchCallsError (failure : Failure) : string :=
  match failure with
  | OtherError message => message
  | AxiosError status data message =>
      (* [error.response?.data || error.message] *)
      let errorText :=
        match data with
        | Some (BodyText text) => if nonempty text then BodyText text else BodyText message
        | Some body => body
        | None => BodyText message
        end in
      match status with
      | Some 401%Z => "OpenPhone API key is invalid"
      | Some 404%Z =>
          match errorText with
          | BodyText text => text
          | BodyObject m _ => str_or m "Resource not found"
          end
      | Some 400%Z =>
          match errorText with
          | BodyObject (Some m) json =>
              if nonempty m then
                if includes m "phoneNumberId" || includes m "phone number"
                then "Phone number ID not found in your OpenPhone account"
                else if includes m "participants" || includes m "Expected array"
                then "Participants parameter error: " ++ m
                else m
              else json
          | _ => text_or_json errorText
          end
      | _ => text_or_json errorText
      end
  end.

End OpenPhone.

(** ** The transcript step of the historical import
       ([server/utils/historical-import.ts]) *)

Module Historical.

Import Analysis.

Record HistoricalImportStats : Type := {
  callsFetched : nat;
  callsNew : nat;
  callsUpdated : nat;
  transcriptsFetched : nat;
  analyzed : nat;
  errors : list string
}.

Definition count_transcript (stats : HistoricalImportStats) : HistoricalImportStats :=
  {| callsFetched := callsFetched stats; callsNew := callsNew stats;
     callsUpdated := callsUpdated stats;
     transcriptsFetched := S (transcriptsFetched stats);
     analyzed := analyzed stats; errors := errors stats |}.

Definition count_analysis (stats : HistoricalImportStats) : HistoricalImportStats :=
  {| callsFetched := callsFetched stats; callsNew := callsNew stats;
     callsUpdated := callsUpdated stats;
     transcriptsFetched := transcriptsFetched stats;
     analyzed := S (analyzed stats); errors := errors stats |}.

Definition of_opt_str (a : option string) : jsval :=
  match a with Some s => JStr s | None => JUndefined end.

(** A dialogue item as the object the provider sends: the five fields of
    [OpenPhoneTranscript]. *)
Definition itemObject (d : DialogueItem) : jsval :=
  JObj [ ("content", of_opt_str (d_content d));
         ("start", of_opt_num (d_start d));
         ("end", of_opt_num (d_end d));
         ("identifier", of_opt_str (d_identifier d));
         ("userId", of_opt_str (d_userId d)) ].

(** How a template literal renders a value. *)
Definition template (env : Env) (v : jsval) : string :=
  match v with
  | JUndefined => "undefined"
  | JNull => "null"
  | JBool true => "true"
  | JBool false => "false"
  | JStr s => s
  | _ => String_of env v
  end.

(** [`${segment.speaker}: ${segment.text}`] *)
Definition lineOf (env : Env) (segment : jsval) : string :=
  template env (get_opt segment "speaker") ++ ": "
  ++ template env (get_opt segment "text").

Definition segmentOf (d : jsval) : Segment :=
  {| seg_start := get_opt d "start";
     seg_end := get_opt d "end";
     seg_speaker := get_opt d "speaker";
     seg_text := get_opt d "text" |}.

Definition transcriptData (env : Env) (transcript : OpenPhoneTranscript)
           (dialogue : list DialogueItem) : TranscriptRow :=
  {| t_callId := tr_callId transcript;
     t_fullText := join_lines (map (lineOf env) (map itemObject dialogue));
     t_jsonPayload :=
       Some {| segments := Some (map segmentOf (map itemObject dialogue)) |};
     t_duration := tr_duration transcript;
     t_status := tr_status transcript |}.

Definition analysisOptions (call : OpenPhoneCall) : AnalyzeCallOptions :=
  {| o_callId := c_id call; o_transcriptText := None;
     o_callDirection := Some (c_direction call);
     o_phoneNumberId := Some (c_phoneNumberId call) |}.

(** [call.duration > 0] *)
Definition has_duration (call : OpenPhoneCall) : bool :=
  match c_duration call with
  | Some n => num_ltb (num 0) n
  | None => false
  end.

(** The block [if (call.status === 'completed' && call.duration > 0)] of
    the loop over the fetched calls, with its [try] and the [catch] that
    only logs.  [analyzeCall] returns in every case, so the inner [catch]
    has no counterpart here. *)
Definition importTranscript (env : Env) (autoAnalyze : bool) (call : OpenPhoneCall)
           (stats : HistoricalImportStats) : M HistoricalImportStats :=
  if String.eqb (c_status call) "completed" && has_duration call then
    try_catch
      (response <- Sync.requestTranscript env (c_id call) ;;
       match response with
       | Some transcript =>
           match tr_dialogue transcript with
           | Some (d :: l) =>
               let data := transcriptData env transcript (d :: l) in
               Sync.upsertTranscript env (c_id call) data ;;;
               if autoAnalyze && Nat.ltb 0 (String.length (trim (t_fullText data)))
               then
                 (fun w => (Ret tt, snd (analyzeCall env (analysisOptions call) w))) ;;;
                 ret (count_analysis (count_transcript stats))
               else ret (count_transcript stats)
           | _ => ret stats
           end
       | None => ret stats
       end)
      (fun _ => ret stats)
  else ret stats.

End Historical.

(** ** Further predicates used in the statements *)

(** Components of the world that one table does not show through. *)
Definition calls_free {X : Type} (proj : World -> X) : Prop :=
  forall w l, proj (with_tables w (with_calls (tables w) l)) = proj w.

Definition transcripts_free {X : Type} (proj : World -> X) : Prop :=
  forall w l, proj (with_tables w (with_transcripts (tables w) l)) = proj w.

Definition analyses_free {X : Type} (proj : World -> X) : Prop :=
  forall w l, proj (with_tables w (with_analyses (tables w) l)) = proj w.

Definition health_free {X : Type} (proj : World -> X) : Prop :=
  forall w l, proj (with_tables w (with_webhookHealth (tables w) l)) = proj w.

(** The rows of a table stored under the other call ids. *)
Definition others {R : Type} (key_of : R -> string) (k : string)
           (rows : list R) : list R :=
  filter (fun r => negb (has_key key_of k r)) rows.

(** A component of the world that the writes of an analysis of call [k]
    do not show through: the requests sent to the LLM, the updates of
    the rows of [k] that keep the id, and the insertion of a row of [k]. *)
Definition analysis_blind {X : Type} (proj : World -> X) (k : string) : Prop :=
  llm_free proj
  /\ (forall f w,
        (forall r, has_key a_callId k r = true -> a_callId (f r) = k) ->
        proj (with_tables w (with_analyses (tables w)
                (update_where a_callId k f (analyses (tables w))))) = proj w)
  /\ (forall row w,
        a_callId row = k ->
        proj (with_tables w (with_analyses (tables w) (analyses (tables w) ++ [row])))
        = proj w).

Definition call_ids (w : World) : list string := map r_callId (calls (tables w)).
Definition transcript_ids (w : World) : list string :=
  map t_callId (transcripts (tables w)).
Definition analysis_ids (w : World) : list string :=
  map a_callId (analyses (tables w)).

(** No table holds two rows for one call id. *)
Definition ids_unique (w : World) : Prop :=
  NoDup (call_ids w) /\ NoDup (transcript_ids w) /\ NoDup (analysis_ids w).

(** The provider answers a transcript request with the transcript of the
    call it was asked for. *)
Definition echoes (env : Env) : Prop :=
  forall callId t,
    fetchTranscript env callId = TranscriptData (Some t) -> tr_callId t = callId.

(** The request [analyzeCall] sends to the LLM for a call and the text of
    its transcript. *)
Definition llmRequest (env : Env) (providedDirection : option string)
           (call : CallRow) (transcriptText : string) : LLMRequest :=
  let inbound :=
    opt_eqb (opt_or providedDirection (r_direction call)) (Some "incoming") in
  {| llm_inbound_schema := inbound;
     llm_prompt := if inbound then inboundPromptBody env transcriptText
                   else outboundPromptBody env transcriptText |}.

(** [preserves I m]: running [m] from a world that satisfies [I] leaves a
    world that satisfies [I], whether [m] returns or throws. *)
Definition preserves {A : Type} (I : World -> Prop) (m : M A) : Prop :=
  forall w, I w -> I (snd (m w)).

(** The list [l'] is [l], or [l] followed by the new element [k]. *)
Definition grows_by {A : Type} (k : A) (l l' : list A) : Prop :=
  l' = l \/ (l' = (l ++ [k])%list /\ ~ In k l).

(** ** Further scenarios *)

Module Cases.

Import Scenario.

(** An analysis of [call1] on a text handed over by the caller. *)
Definition options_text : Analysis.AnalyzeCallOptions :=
  {| Analysis.o_callId := "AC1";
     Analysis.o_transcriptText :=
       Some "Agent: Thank you for calling. Caller: My kitchen sink is leaking.";
     Analysis.o_callDirection := None;
     Analysis.o_phoneNumberId := None |}.

(** A stored transcript of [call1] whose text is blank while its one
    segment holds an utterance. *)
Definition transcript_blank_text : TranscriptRow :=
  {| t_callId := "AC1"; t_fullText := "   ";
     t_jsonPayload :=
       Some {| segments :=
                 Some [ {| seg_start := JNum (num 0); seg_end := JNum (num 4);
                           seg_speaker := JStr "US1";
                           seg_text := JStr "Thank you for calling." |} ] |};
     t_duration := None; t_status := Some "completed" |}.

Definition world_blank_text : World :=
  with_tables world1 (with_transcripts (tables world1) [transcript_blank_text]).

(** A poll of the main line with auto-analysis switched off. *)
Definition options_off : Sync.SyncOptions :=
  {| Sync.s_phoneNumberId := mainLine; Sync.s_participants := None;
     Sync.s_daysToSync := 7; Sync.s_userId := None;
     Sync.s_autoAnalyze := Some false |}.

(** The first page arrives with a page token; the request for the second
    page fails. *)
Definition twoPages (params : FetchParams) : FetchCallsOutcome :=
  match fp_pageToken params with
  | None => CallsPage [call1; call3] (Some "page-2")
  | Some _ => CallsError "OpenPhone API error (500): upstream failure"
  end.

Definition env_second_page_fails : Env :=
  mkEnv twoPages (fun k => transcriptOf k dialogue_ok)
        (fun _ => LLMParsed (response (num 85))).

(** A completed call of 30.5 seconds. *)
Definition call_fractional : OpenPhoneCall :=
  {| c_id := "AC4";
     c_phoneNumberId := mainLine;
     c_userId := "US1";
     c_direction := "incoming";
     c_status := "completed";
     c_participants := ["+14125550100"; "+14125739101"];
     c_duration := Some (Q2Qc (61 # 2));
     c_createdAt := "2025-01-06T15:00:00Z";
     c_completedAt := Some "2025-01-06T15:01:00Z";
     c_answeredAt := Some "2025-01-06T15:00:05Z";
     c_from := None;
     c_to := None |}.

(** The database refuses every webhook health record. *)
Definition env_refusing_health : Env :=
  {| OPENPHONE_MAIN_PHONE_NUMBER_ID := Some mainLine;
     OPENPHONE_OUTBOUND_PHONE_NUMBER_ID := Some outboundLine;
     fetchCalls := onePage;
     fetchTranscript := fun k => transcriptOf k dialogue_ok;
     invokeLLM := fun _ => LLMParsed (response (num 85));
     inboundPromptBody := fun t => "INBOUND " ++ t;
     outboundPromptBody := fun t => "OUTBOUND " ++ t;
     String_of := fun _ => "[value]";
     write_fault := fun _ => None;
     health_fault := fun _ => Some "Data too long for column 'eventType' at row 1" |}.

(** A result of the legacy shape. *)
Definition legacyResult : jsval :=
  JObj [ ("summary", JStr "Caller reported a leaking sink. A visit was scheduled.");
         ("sentiment", JStr "Positive");
         ("complianceChecks",
           JObj [ ("greeting", JStr "Yes"); ("verification", JStr "No");
                  ("recordingConsent", JStr "NA"); ("professionalism", JStr "Yes") ]);
         ("keyActionItems", JArr [JStr "Schedule a visit"]);
         ("score", JNum (num 72));
         ("detailedNotes", JStr "Greeting given, identity not verified.");
         ("callToAction",
           JObj [ ("attempted", JBool true); ("result", JStr "Visit booked");
                  ("notes", JStr "Asked for a time slot") ]) ].

(** A 404 whose body is not JSON, and one whose body is a JSON object
    with a message. *)
Definition notFoundText : OpenPhone.ErrorResponse :=
  {| OpenPhone.status := 404; OpenPhone.errorText := "Not Found";
     OpenPhone.errorJson := None |}.

Definition notFoundJson : OpenPhone.ErrorResponse :=
  {| OpenPhone.status := 404;
     OpenPhone.errorText :=
       "{" ++ quote ++ "message" ++ quote ++ ":" ++ quote
       ++ "Transcript is not ready" ++ quote ++ "}";
     OpenPhone.errorJson := Some (JObj [("message", JStr "Transcript is not ready")]) |}.

Definition env_failing_transcripts (response : OpenPhone.ErrorResponse) : Env :=
  mkEnv onePage
        (fun _ => TranscriptError (OpenPhone.requestError env_ok response))
        (fun _ => LLMParsed (Scenario.response (num 85))).

(** The page request is refused with status 401, and with status 400 and
    a message about the line. *)
Definition env_failing_pages (failure : OpenPhone.Failure) : Env :=
  mkEnv (fun _ => CallsError (OpenPhone.fetchCallsError failure))
        (fun k => transcriptOf k dialogue_ok)
        (fun _ => LLMParsed (response (num 85))).

Definition unauthorized : OpenPhone.Failure :=
  OpenPhone.AxiosError (Some 401%Z) None "Request failed with status code 401".

Definition unknownLine : OpenPhone.Failure :=
  OpenPhone.AxiosError
    (Some 400%Z)
    (Some (OpenPhone.BodyObject
             (Some "Invalid phoneNumberId")
             ("{" ++ quote ++ "message" ++ quote ++ ":" ++ quote
              ++ "Invalid phoneNumberId" ++ quote ++ "}")))
    "Request failed with status code 400".

End Cases.

(* ================================================================== *)
(** * Part II: statements and proofs *)
(* ================================================================== *)

Unset Implicit Arguments.
Local Open Scope string_scope.
Local Open Scope list_scope.
Local Open Scope js_scope.
Import Analysis.

(** ** The string functions on examples *)

Example trim_example : trim "  Agent: hello  " = "Agent: hello".
Proof. reflexivity. Qed.

Example trim_blank_example : trim (" " ++ newline ++ " ") = "".
Proof. reflexivity. Qed.

Example toLowerCase_example : toLowerCase "No Transcript" = "no transcript".
Proof. reflexivity. Qed.

Example includes_example :
  includes "Agent: undefined: undefined" "undefined: undefined" = true
  /\ includes "Unknown: " "undefined: undefined" = false.
Proof. split; reflexivity. Qed.

Example textCheck_examples :
  textCheck "undefined: undefined" = (false, true)
  /\ textCheck "   " = (false, false)
  /\ textCheck "No transcript available" = (false, false)
  /\ textCheck "Agent: ok" = (false, false)
  /\ textCheck "Agent: hello there" = (true, false).
Proof. repeat split; reflexivity. Qed.

(** ** Facts about the store *)

Section StoreFacts.

Context {R : Type} (key_of : R -> string).

Lemma find_rows_of (k : string) (l : list R) :
  find (has_key key_of k) l = hd_error (rows_of key_of k l).
Proof.
  unfold rows_of. induction l as [|r l IH]; simpl; [reflexivity|].
  destruct (has_key key_of k r); simpl; auto.
Qed.

Lemma find_absent (k : string) (l : list R) :
  rows_of key_of k l = [] -> find (has_key key_of k) l = None.
Proof. intros H. rewrite find_rows_of, H. reflexivity. Qed.

Lemma find_present (k : string) (l : list R) (r : R) :
  find (has_key key_of k) l = Some r -> rows_of key_of k l <> [].
Proof. rewrite find_rows_of. destruct (rows_of key_of k l); simpl; congruence. Qed.

Lemma rows_of_app (k : string) (l l' : list R) :
  rows_of key_of k (l ++ l') = rows_of key_of k l ++ rows_of key_of k l'.
Proof. apply filter_app. Qed.

Lemma rows_of_update_where (k : string) (f : R -> R) (l : list R) :
  (forall r, has_key key_of k r = true -> key_of (f r) = k) ->
  rows_of key_of k (update_where key_of k f l) = map f (rows_of key_of k l).
Proof.
  intros Hf. unfold rows_of, update_where.
  induction l as [|r l IH]; simpl; [reflexivity|].
  destruct (has_key key_of k r) eqn:E; simpl.
  - unfold has_key at 1. rewrite (Hf r E), String.eqb_refl. simpl. now rewrite IH.
  - rewrite E. exact IH.
Qed.

Lemma update_where_absent (k : string) (f : R -> R) (l : list R) :
  rows_of key_of k l = [] -> update_where key_of k f l = l.
Proof.
  unfold rows_of, update_where.
  induction l as [|r l IH]; simpl; [reflexivity|].
  destruct (has_key key_of k r) eqn:E; [discriminate|].
  intros H. now rewrite IH.
Qed.

Lemma update_where_same (k : string) (row : R) (l : list R) :
  rows_of key_of k l = [row] -> update_where key_of k (fun _ => row) l = l.
Proof.
  unfold rows_of, update_where.
  induction l as [|r l IH]; simpl; [reflexivity|].
  destruct (has_key key_of k r) eqn:E.
  - intros H. injection H as -> Hl. f_equal. now apply update_where_absent.
  - intros H. now rewrite IH.
Qed.

End StoreFacts.

Lemma with_tables_same (w : World) : with_tables w (tables w) = w.
Proof. now destruct w. Qed.

Lemma with_calls_same (d : Db) : with_calls d (calls d) = d.
Proof. now destruct d. Qed.

Lemma getDb_available (w : World) :
  db_available w = true -> getDb w = (Ret tt, w).
Proof. unfold getDb. now intros ->. Qed.

(** ** Column types *)

Lemma num_is_integer (z : Z) : is_integer (num z) = true.
Proof.
  unfold is_integer, num, Q2Qc. cbn [this].
  rewrite Qred_identity; [reflexivity|]. simpl. apply Z.gcd_1_r.
Qed.

Lemma round_half_away_num (z : Z) : round_half_away (num z) = z.
Proof.
  unfold round_half_away, num, Q2Qc. cbn [this].
  rewrite Qred_identity by (simpl; apply Z.gcd_1_r).
  cbn [Qnum Qden inject_Z].
  destruct (Z.leb_spec 0 z).
  - symmetry. apply Z.div_unique with (r := 1%Z); lia.
  - assert (E : ((2 * - z + 1) / (2 * 1) = - z)%Z)
      by (symmetry; apply Z.div_unique with (r := 1%Z); lia).
    rewrite E. lia.
Qed.

Lemma int_column_num (z : Z) : int_column (num z) = num z.
Proof. unfold int_column. now rewrite round_half_away_num. Qed.

Lemma int_column_is_integer (q : Qc) : is_integer (int_column q) = true.
Proof. apply num_is_integer. Qed.

Lemma is_integer_num (q : Qc) : is_integer q = true -> q = num (Qnum q).
Proof.
  unfold is_integer. intros H. apply Pos.eqb_eq in H.
  apply Qc_is_canon. unfold num, Q2Qc. cbn [this].
  rewrite Qred_correct. destruct q as [[n d] Hq]. simpl in *. subst d.
  reflexivity.
Qed.

(** A whole number is kept as it is. *)
Lemma int_column_whole (q : Qc) : is_integer q = true -> int_column q = q.
Proof. intros H. rewrite (is_integer_num q H) at 1 2. apply int_column_num. Qed.

Lemma int_column_idem (q : Qc) : int_column (int_column q) = int_column q.
Proof. unfold int_column at 2 3. apply int_column_num. Qed.

Lemma num_le (a b : Z) : (a <= b)%Z -> (num a <= num b)%Qc.
Proof.
  intros H. unfold Qcle, num, Q2Qc. cbn [this].
  rewrite !Qred_correct. unfold Qle. simpl. lia.
Qed.

(** Rounding keeps a number between the whole numbers that bound it. *)
Lemma round_half_away_bounds (q : Qc) (lo hi : Z) :
  (num lo <= q)%Qc -> (q <= num hi)%Qc ->
  (lo <= round_half_away q <= hi)%Z.
Proof.
  unfold Qcle, num, Q2Qc. cbn [this]. rewrite !Qred_correct.
  unfold Qle. cbn [Qnum Qden inject_Z]. intros Hlo Hhi.
  unfold round_half_away.
  set (n := Qnum q) in *. set (d := Z.pos (Qden q)) in *.
  assert (Hd : (0 < d)%Z) by (unfold d; lia).
  rewrite Z.mul_1_r in Hhi. rewrite Z.mul_1_r in Hlo.
  destruct (Z.leb_spec 0 n) as [Hn|Hn].
  - pose proof (Z.div_mod (2 * n + d) (2 * d) ltac:(lia)) as E.
    pose proof (Z.mod_pos_bound (2 * n + d) (2 * d) ltac:(lia)) as B.
    set (k := ((2 * n + d) / (2 * d))%Z) in *.
    split; nia.
  - pose proof (Z.div_mod (2 * - n + d) (2 * d) ltac:(lia)) as E.
    pose proof (Z.mod_pos_bound (2 * - n + d) (2 * d) ltac:(lia)) as B.
    set (k := ((2 * - n + d) / (2 * d))%Z) in *.
    split; nia.
Qed.

Lemma int_column_bounds (q : Qc) (lo hi : Z) :
  (num lo <= q)%Qc -> (q <= num hi)%Qc ->
  (num lo <= int_column q)%Qc /\ (int_column q <= num hi)%Qc.
Proof.
  intros Hlo Hhi. destruct (round_half_away_bounds q lo hi Hlo Hhi).
  unfold int_column. split; now apply num_le.
Qed.

Lemma call_columns_idem (row : CallRow) :
  call_columns (call_columns row) = call_columns row.
Proof. unfold call_columns. simpl. now rewrite int_column_idem. Qed.

Lemma call_columns_whole (row : CallRow) :
  is_integer (r_duration row) = true -> call_columns row = row.
Proof.
  intros H. unfold call_columns. rewrite (int_column_whole _ H). now destruct row.
Qed.

Lemma transcript_columns_idem (row : TranscriptRow) :
  transcript_columns (transcript_columns row) = transcript_columns row.
Proof.
  unfold transcript_columns. simpl.
  destruct (t_duration row); simpl; [now rewrite int_column_idem|reflexivity].
Qed.

Lemma analysis_columns_idem (row : AnalysisRow) :
  analysis_columns (analysis_columns row) = analysis_columns row.
Proof. unfold analysis_columns. simpl. now rewrite int_column_idem. Qed.

(** ** Idempotent upsert *)

(** C6. Upserting the same call twice into a store that has no row for
    its id: the first call inserts and returns [false], the second updates
    and returns [true], the store then holds exactly one row for that id,
    the record built from the call as the table keeps it, and the second
    call leaves the store as the first one left it. *)
Theorem upsertCall_twice (env : Env) (call : OpenPhoneCall) (w : World) :
  db_available w = true ->
  write_fault env (c_id call) = None ->
  rows_of r_callId (c_id call) (calls (tables w)) = [] ->
  exists w1 w2,
    Sync.upsertCall env call w = (Ret false, w1)
    /\ Sync.upsertCall env call w1 = (Ret true, w2)
    /\ rows_of r_callId (c_id call) (calls (tables w1))
       = [call_columns (Sync.callData call)]
    /\ rows_of r_callId (c_id call) (calls (tables w2))
       = [call_columns (Sync.callData call)]
    /\ tables w2 = tables w1.
Proof.
  intros Hdb Hfault Habsent.
  set (row := call_columns (Sync.callData call)).
  set (w1 := with_tables w (with_calls (tables w) (calls (tables w) ++ [row]))).
  assert (Hrows1 : rows_of r_callId (c_id call) (calls (tables w1)) = [row]).
  { unfold w1; simpl. rewrite rows_of_app, Habsent. simpl.
    unfold has_key. simpl. now rewrite String.eqb_refl. }
  assert (H1 : Sync.upsertCall env call w = (Ret false, w1)).
  { unfold Sync.upsertCall, bind. rewrite (getDb_available w Hdb).
    unfold select_call. rewrite (find_absent _ _ _ Habsent).
    unfold insert_call, reject. simpl. rewrite Hfault. reflexivity. }
  assert (H2 : Sync.upsertCall env call w1 = (Ret true, w1)).
  { unfold Sync.upsertCall, bind. rewrite (getDb_available w1 Hdb).
    unfold select_call. rewrite find_rows_of, Hrows1. simpl.
    unfold update_call, reject. rewrite Hfault. unfold modify. cbv beta. fold row.
    rewrite (update_where_same _ _ _ _ Hrows1).
    now rewrite with_calls_same, with_tables_same. }
  exists w1, w1. auto.
Qed.

(** ** Frame properties of the monad *)

Section Frame.

Context {X : Type} (proj : World -> X).

Lemma keeps_ret {A : Type} (a : A) : keeps proj (ret a).
Proof. intros w. reflexivity. Qed.

Lemma keeps_throw {A : Type} (msg : string) : keeps proj (@throw A msg).
Proof. intros w. reflexivity. Qed.

Lemma keeps_bind {A B : Type} (m : M A) (k : A -> M B) :
  keeps proj m -> (forall a, keeps proj (k a)) -> keeps proj (bind m k).
Proof.
  intros Hm Hk w. unfold bind. specialize (Hm w).
  destruct (m w) as [[a|msg] w1]; simpl in *.
  - now rewrite Hk.
  - exact Hm.
Qed.

Lemma keeps_try_catch {A : Type} (m : M A) (h : string -> M A) :
  keeps proj m -> (forall msg, keeps proj (h msg)) -> keeps proj (try_catch m h).
Proof.
  intros Hm Hh w. unfold try_catch. specialize (Hm w).
  destruct (m w) as [[a|msg] w1]; simpl in *.
  - exact Hm.
  - now rewrite Hh.
Qed.

Lemma keeps_getDb : keeps proj getDb.
Proof. intros w. unfold getDb. now destruct (db_available w). Qed.

Lemma keeps_select_call (k : string) : keeps proj (select_call k).
Proof. intros w. reflexivity. Qed.

Lemma keeps_select_transcript (k : string) : keeps proj (select_transcript k).
Proof. intros w. reflexivity. Qed.

Lemma keeps_select_analysis (k : string) : keeps proj (select_analysis k).
Proof. intros w. reflexivity. Qed.

Lemma keeps_reject {A : Type} (env : Env) (k : string) (m : M A) :
  keeps proj m -> keeps proj (reject env k m).
Proof. intros Hm. unfold reject. destruct (write_fault env k); auto using keeps_throw. Qed.

Hypothesis proj_table_free : table_free proj.

Lemma keeps_modify (f : Db -> Db) : keeps proj (modify f).
Proof. intros w. unfold modify. simpl. apply proj_table_free. Qed.

Lemma keeps_update_call env k f : keeps proj (update_call env k f).
Proof. apply keeps_reject, keeps_modify. Qed.

Lemma keeps_update_transcript env k f : keeps proj (update_transcript env k f).
Proof. apply keeps_reject, keeps_modify. Qed.

Lemma keeps_update_analysis env k f : keeps proj (update_analysis env k f).
Proof. apply keeps_reject, keeps_modify. Qed.

Lemma keeps_insert_call env row : keeps proj (insert_call env row).
Proof. apply keeps_reject, keeps_modify. Qed.

Lemma keeps_insert_transcript env row : keeps proj (insert_transcript env row).
Proof. apply keeps_reject, keeps_modify. Qed.

Lemma keeps_insert_analysis env row : keeps proj (insert_analysis env row).
Proof. apply keeps_reject, keeps_modify. Qed.

Lemma keeps_insert_health env row : keeps proj (insert_health env row).
Proof.
  unfold insert_health. destruct (health_fault env row);
    [apply keeps_throw|apply keeps_modify].
Qed.

End Frame.

Lemma db_available_table_free : table_free db_available.
Proof. intros w d. reflexivity. Qed.

Lemma fetch_log_table_free : table_free fetch_log.
Proof. intros w d. reflexivity. Qed.

Lemma llm_log_table_free : table_free llm_log.
Proof. intros w d. reflexivity. Qed.

Create HintDb frame.
#[export] Hint Resolve keeps_ret keeps_throw keeps_getDb keeps_select_call
  keeps_select_transcript keeps_select_analysis keeps_update_call
  keeps_update_transcript keeps_update_analysis keeps_insert_call
  keeps_insert_transcript keeps_insert_analysis keeps_insert_health
  db_available_table_free fetch_log_table_free llm_log_table_free : frame.

(** Splits a [keeps] goal along the structure of the program. *)
Ltac frame :=
  repeat first
    [ progress (auto with frame)
    | apply keeps_bind
    | apply keeps_try_catch
    | match goal with
      | |- keeps _ (match ?x with _ => _ end) => destruct x
      | |- keeps _ (if ?b then _ else _) => destruct b
      | |- forall _, _ => intro
      end ].

Lemma keeps_prop {X : Type} (proj : World -> X) v k : keeps proj (prop v k).
Proof. unfold prop. frame. Qed.

Lemma keeps_complianceOf {X : Type} (proj : World -> X) env analysis dir :
  keeps proj (complianceOf env analysis dir).
Proof. unfold complianceOf. pose proof (@keeps_prop X proj). frame. Qed.

Lemma keeps_saveAnalysisToDatabase {X : Type} (proj : World -> X) env callId a pn dir :
  table_free proj -> keeps proj (saveAnalysisToDatabase env callId a pn dir).
Proof.
  intros H. unfold saveAnalysisToDatabase.
  pose proof (@keeps_complianceOf X proj). frame.
Qed.

Lemma keeps_savePlaceholder {X : Type} (proj : World -> X) env callId pn isBroken :
  table_free proj -> keeps proj (savePlaceholder env callId pn isBroken).
Proof.
  intros H. unfold savePlaceholder.
  pose proof (@keeps_saveAnalysisToDatabase X proj). frame.
Qed.

(** ** Saving an analysis *)

Lemma complianceOf_pure env analysis dir w :
  snd (complianceOf env analysis dir w) = w.
Proof. exact (keeps_complianceOf (fun w => w) env analysis dir w). Qed.

Lemma has_key_eq {R : Type} (key_of : R -> string) k r :
  has_key key_of k r = true -> key_of r = k.
Proof. unfold has_key. apply String.eqb_eq. Qed.

(** When the save returns, the rows stored under the call id are copies
    of [analysisData] as the table keeps it, and there is at least one. *)
Lemma saveAnalysis_returns env callId a pn dir w w' :
  saveAnalysisToDatabase env callId a pn dir w = (Ret tt, w') ->
  exists c rows',
    complianceOf env a dir w = (Ret c, w)
    /\ w' = with_tables w (with_analyses (tables w) rows')
    /\ rows_of a_callId callId rows' <> []
    /\ Forall (fun r => r = analysis_columns (analysisData env callId a pn c))
              (rows_of a_callId callId rows').
Proof.
  unfold saveAnalysisToDatabase, bind, getDb.
  destruct (db_available w); [|discriminate].
  pose proof (complianceOf_pure env a dir w) as Hpure.
  destruct (complianceOf env a dir w) as [[c|msg] w1]; simpl in Hpure; subst w1;
    [|discriminate].
  unfold select_analysis.
  set (data := analysis_columns (analysisData env callId a pn c)).
  destruct (find (has_key a_callId callId) (analyses (tables w))) as [r|] eqn:Hfind.
  - unfold update_analysis, reject.
    destruct (write_fault env callId); [discriminate|].
    unfold modify. intros [= <-].
    exists c, (update_where a_callId callId (fun _ => data) (analyses (tables w))).
    repeat split.
    + rewrite rows_of_update_where by reflexivity.
      apply find_present in Hfind.
      destruct (rows_of a_callId callId (analyses (tables w))); simpl; congruence.
    + rewrite rows_of_update_where by reflexivity.
      apply Forall_forall. intros x Hx. apply in_map_iff in Hx.
      now destruct Hx as [? [<- _]].
  - unfold insert_analysis, reject. simpl.
    destruct (write_fault env callId); [discriminate|].
    unfold modify. intros [= <-].
    exists c, (analyses (tables w) ++ [data]).
    assert (Hrows : rows_of a_callId callId (analyses (tables w) ++ [data]) = [data]).
    { rewrite rows_of_app.
      rewrite find_rows_of in Hfind.
      destruct (rows_of a_callId callId (analyses (tables w))); [|discriminate].
      simpl. unfold has_key. simpl. now rewrite String.eqb_refl. }
    repeat split.
    + rewrite Hrows. discriminate.
    + rewrite Hrows. now constructor.
Qed.

Lemma saveAnalysis_runs env callId a pn dir w c :
  db_available w = true ->
  write_fault env callId = None ->
  complianceOf env a dir w = (Ret c, w) ->
  exists w', saveAnalysisToDatabase env callId a pn dir w = (Ret tt, w').
Proof.
  intros Hdb Hfault Hc.
  unfold saveAnalysisToDatabase, bind. rewrite (getDb_available w Hdb), Hc.
  unfold select_analysis.
  destruct (find (has_key a_callId callId) (analyses (tables w))).
  - unfold update_analysis, reject. rewrite Hfault. unfold modify. eauto.
  - unfold insert_analysis, reject. simpl. rewrite Hfault. unfold modify. eauto.
Qed.

Lemma saveAnalysis_throws env callId a pn dir w w' msg :
  saveAnalysisToDatabase env callId a pn dir w = (Throw msg, w') -> w' = w.
Proof.
  unfold saveAnalysisToDatabase, bind, getDb.
  destruct (db_available w); [|now intros [= _ <-]].
  pose proof (complianceOf_pure env a dir w) as Hpure.
  destruct (complianceOf env a dir w) as [[c|m] w1]; simpl in Hpure; subst w1;
    [|now intros [= _ <-]].
  unfold select_analysis.
  destruct (find (has_key a_callId callId) (analyses (tables w))).
  - unfold update_analysis, reject.
    destruct (write_fault env callId); [now intros [= _ <-]|discriminate].
  - unfold insert_analysis, reject. simpl.
    destruct (write_fault env callId); [now intros [= _ <-]|discriminate].
Qed.

(** ** The placeholder path *)

Lemma minimal_compliance env isBroken w :
  complianceOf env (minimalAnalysis isBroken) None w = (Ret (Review, JStr ""), w).
Proof. reflexivity. Qed.

Lemma savePlaceholder_runs env callId pn isBroken w :
  db_available w = true ->
  write_fault env callId = None ->
  exists rows',
    savePlaceholder env callId pn isBroken w
    = (Ret {| success := true; res_callId := callId;
              analysis := Some (noContentResult env pn isBroken);
              error := None |},
       with_tables w (with_analyses (tables w) rows'))
    /\ rows_of a_callId callId rows' <> []
    /\ Forall (fun r => a_score r = num 0 /\ a_complianceCheck r = Review)
              (rows_of a_callId callId rows').
Proof.
  intros Hdb Hfault.
  destruct (saveAnalysis_runs env callId (minimalAnalysis isBroken) pn None w _
              Hdb Hfault (minimal_compliance env isBroken w)) as [w1 Hsave].
  destruct (saveAnalysis_returns _ _ _ _ _ _ _ Hsave) as (c & rows1 & _ & -> & Hne & _).
  unfold savePlaceholder, bind. rewrite Hsave.
  unfold update_analysis, reject. rewrite Hfault. unfold modify, ret. simpl.
  eexists. split; [reflexivity|].
  rewrite rows_of_update_where
    by (intros r Hr; simpl; now apply has_key_eq in Hr).
  split.
  - destruct (rows_of a_callId callId rows1); simpl; congruence.
  - apply Forall_forall. intros x Hx. apply in_map_iff in Hx.
    destruct Hx as [r [<- _]]. split; [apply (int_column_num 0)|reflexivity].
Qed.

(** ** Empty-or-broken short circuit *)


(** ** Numbers *)

Lemma num_ltb_true (a b : Qc) : num_ltb a b = true <-> (a < b)%Qc.
Proof.
  unfold num_ltb. rewrite Qclt_alt.
  destruct (a ?= b)%Qc; split; congruence.
Qed.

Lemma num_ltb_false (a b : Qc) : num_ltb a b = false <-> (b <= a)%Qc.
Proof.
  pose proof (num_ltb_true a b) as H.
  destruct (num_ltb a b); split; intros H0; try congruence.
  - exfalso. apply (Qcle_not_lt _ _ H0). now apply H.
  - apply Qcnot_lt_le. intros Hlt. apply H in Hlt. discriminate.
Qed.

Lemma score_in_range_bounds (s : jsval) :
  score_in_range s = true <->
  exists q, s = JNum q /\ (num 0 <= q)%Qc /\ (q <= num 100)%Qc.
Proof.
  destruct s; simpl; try (split; [discriminate | intros (q & [=] & _)]).
  rewrite andb_true_iff, !negb_true_iff, !num_ltb_false.
  split.
  - intros [H0 H100]. eauto.
  - intros (q & [= ->] & H). exact H.
Qed.

(** ** The scoring path, step by step *)

Lemma scoreWithLLM_steps env callId call dir pn text w :
  let callDirection := opt_or dir (r_direction call) in
  let inbound := opt_eqb callDirection (Some "incoming") in
  let request :=
    {| llm_inbound_schema := inbound;
       llm_prompt := if inbound then inboundPromptBody env text
                     else outboundPromptBody env text |} in
  let w1 := log_llm w request in
  scoreWithLLM env callId call dir pn text w =
  if corrupted_or_empty text
  then (Throw "Cannot analyze corrupted or empty transcript", w)
  else
    match invokeLLM env request with
    | LLMThrows msg => (Throw msg, w1)
    | LLMNoContent => (Throw "No response from LLM", w1)
    | LLMParseError msg => (Throw msg, w1)
    | LLMParsed v =>
        match get v "score" with
        | None => (Throw (type_error v "score"), w1)
        | Some s =>
            if score_in_range s then
              match saveAnalysisToDatabase env callId v pn callDirection w1 with
              | (Ret _, w2) =>
                  (Ret {| success := true; res_callId := callId;
                          analysis := Some v; error := None |}, w2)
              | (Throw msg, w2) => (Throw msg, w2)
              end
            else (Throw "Invalid score in analysis result", w1)
        end
    end.
Proof.
  intros callDirection inbound request w1.
  unfold scoreWithLLM, bind. fold callDirection. fold inbound.
  unfold buildInboundQAPrompt, buildOutboundQAPrompt.
  destruct inbound eqn:Hin;
    (destruct (corrupted_or_empty text); [reflexivity|]);
    unfold ret at 1; unfold askLLM; fold request; fold w1;
    (destruct (invokeLLM env request); try reflexivity);
    unfold prop; (destruct (get analysisResult "score") as [s|]; [|reflexivity]);
    unfold ret at 1; (destruct (score_in_range s); [|reflexivity]); simpl;
    destruct (saveAnalysisToDatabase env callId analysisResult pn callDirection w1)
      as [[[]|msg] w2]; reflexivity.
Qed.

Lemma resolveTranscript_pure callId provided w :
  snd (resolveTranscript callId provided w) = w.
Proof.
  unfold resolveTranscript.
  destruct (nonempty (str_or provided "")); [reflexivity|].
  unfold bind, select_transcript.
  now destruct (find (has_key t_callId callId) (transcripts (tables w))).
Qed.

Lemma savePlaceholder_returns env callId pn isBroken w r w' :
  savePlaceholder env callId pn isBroken w = (Ret r, w') ->
  success r = true /\ res_callId r = callId.
Proof.
  unfold savePlaceholder, bind.
  destruct (saveAnalysisToDatabase env callId (minimalAnalysis isBroken) pn None w)
    as [[[]|msg] w1]; [|discriminate].
  destruct (update_analysis env callId (noContentUpdate env pn isBroken) w1)
    as [[[]|msg] w2]; [|discriminate].
  unfold ret. intros [= <- _]. auto.
Qed.

Lemma scoreWithLLM_returns env callId call dir pn text w r w' :
  scoreWithLLM env callId call dir pn text w = (Ret r, w') ->
  success r = true /\ res_callId r = callId.
Proof.
  rewrite scoreWithLLM_steps.
  destruct (corrupted_or_empty text); [discriminate|].
  destruct (invokeLLM env _); try discriminate.
  destruct (get analysisResult "score") as [s|]; [|discriminate].
  destruct (score_in_range s); [|discriminate].
  destruct (saveAnalysisToDatabase _ _ _ _ _ _) as [[[]|msg] w2]; [|discriminate].
  intros [= <- _]. auto.
Qed.

(** What the [try] block can return. *)
Lemma analyzeCall_try_returns env options w r w' :
  analyzeCall_try env options w = (Ret r, w') ->
  res_callId r = o_callId options
  /\ (success r = false -> exists msg, error r = Some msg).
Proof.
  unfold analyzeCall_try, bind.
  destruct (getDb w) as [[[]|msg] w0]; [|discriminate].
  destruct (select_call (o_callId options) w0) as [[[call|]|msg] w1]; try discriminate.
  2:{ unfold ret. intros [= <- _]. simpl. eauto. }
  destruct (resolveTranscript _ _ w1) as [[[[text rec]|]|msg] w2]; try discriminate.
  2:{ unfold ret. intros [= <- _]. simpl. eauto. }
  destruct (contentCheck text rec) as [hasContent isBroken].
  destruct (negb hasContent || isBroken); intros H.
  - apply savePlaceholder_returns in H. destruct H as [H1 H2].
    split; [exact H2|]. congruence.
  - apply scoreWithLLM_returns in H. destruct H as [H1 H2].
    split; [exact H2|]. congruence.
Qed.

Lemma analyzeCall_try_call_missing env options w :
  db_available w = true ->
  find (has_key r_callId (o_callId options)) (calls (tables w)) = None ->
  analyzeCall_try env options w
  = (Ret (failure (o_callId options) "Call not found"), w).
Proof.
  intros Hdb Hcall. unfold analyzeCall_try, bind.
  rewrite (getDb_available w Hdb). unfold select_call. now rewrite Hcall.
Qed.

Lemma analyzeCall_try_transcript_missing env options w call :
  db_available w = true ->
  find (has_key r_callId (o_callId options)) (calls (tables w)) = Some call ->
  nonempty (str_or (o_transcriptText options) "") = false ->
  find (has_key t_callId (o_callId options)) (transcripts (tables w)) = None ->
  analyzeCall_try env options w
  = (Ret (failure (o_callId options) "Transcript not found for this call"), w).
Proof.
  intros Hdb Hcall Hnone Htr. unfold analyzeCall_try, bind.
  rewrite (getDb_available w Hdb). unfold select_call. rewrite Hcall.
  unfold resolveTranscript. rewrite Hnone.
  unfold bind, select_transcript. now rewrite Htr.
Qed.

(** ** The dispatcher never throws *)

(** C4. [analyzeCall] returns a result for every input: the result names
    the call, a failure carries an error string, and whatever the body of
    the [try] throws becomes a failure with the thrown message.  With the
    database available, a missing Call row gives "Call not found", and an
    existing call with no supplied text and no Transcript row gives
    "Transcript not found for this call". *)
Theorem analyzeCall_never_throws (env : Env) (options : AnalyzeCallOptions) (w : World) :
  let (result, w') := analyzeCall env options w in
  res_callId result = o_callId options
  /\ (success result = false -> exists msg, error result = Some msg)
  /\ (forall msg w1,
        analyzeCall_try env options w = (Throw msg, w1) ->
        result = failure (o_callId options) msg /\ w' = w1)
  /\ (db_available w = true ->
      find (has_key r_callId (o_callId options)) (calls (tables w)) = None ->
      result = failure (o_callId options) "Call not found" /\ w' = w)
  /\ (forall call,
        db_available w = true ->
        find (has_key r_callId (o_callId options)) (calls (tables w)) = Some call ->
        nonempty (str_or (o_transcriptText options) "") = false ->
        find (has_key t_callId (o_callId options)) (transcripts (tables w)) = None ->
        result = failure (o_callId options) "Transcript not found for this call"
        /\ w' = w
        /\ includes "Transcript not found for this call" "Transcript not found" = true).
Proof.
  unfold analyzeCall.
  destruct (analyzeCall_try env options w) as [[r|msg] w1] eqn:Htry.
  - destruct (analyzeCall_try_returns _ _ _ _ _ Htry) as [Hid Herr].
    split; [exact Hid|]. split; [exact Herr|]. split; [discriminate|]. split.
    + intros Hdb Hcall.
      rewrite (analyzeCall_try_call_missing env options w Hdb Hcall) in Htry.
      now injection Htry as <- <-.
    + intros call Hdb Hcall Hnone Htr.
      rewrite (analyzeCall_try_transcript_missing env options w call
                 Hdb Hcall Hnone Htr) in Htry.
      now injection Htry as <- <-.
  - split; [reflexivity|]. split; [simpl; eauto|]. split.
    + now intros m w2 [= <- <-].
    + split.
      * intros Hdb Hcall.
        rewrite (analyzeCall_try_call_missing env options w Hdb Hcall) in Htry.
        discriminate.
      * intros call Hdb Hcall Hnone Htr.
        rewrite (analyzeCall_try_transcript_missing env options w call
                   Hdb Hcall Hnone Htr) in Htry.
        discriminate.
Qed.

(** The three ways through the [try] block. *)
Lemma analyzeCall_try_cases env options w out w' :
  analyzeCall_try env options w = (out, w') ->
  (w' = w /\ forall r, out = Ret r -> success r = false)
  \/ (exists isBroken,
        savePlaceholder env (o_callId options) (o_phoneNumberId options) isBroken w
        = (out, w'))
  \/ (exists call text,
        scoreWithLLM env (o_callId options) call (o_callDirection options)
                     (o_phoneNumberId options) text w = (out, w')).
Proof.
  unfold analyzeCall_try, bind, getDb.
  destruct (db_available w).
  2:{ intros [= <- <-]. left. split; [reflexivity|discriminate]. }
  unfold select_call.
  destruct (find (has_key r_callId (o_callId options)) (calls (tables w))) as [call|].
  2:{ intros [= <- <-]. left. split; [reflexivity|]. now intros r [= <-]. }
  pose proof (resolveTranscript_pure (o_callId options) (o_transcriptText options) w) as Hp.
  destruct (resolveTranscript _ _ w) as [[[[text rec]|]|msg] w1]; simpl in Hp; subst w1.
  - destruct (contentCheck text rec) as [hasContent isBroken].
    destruct (negb hasContent || isBroken); intros H; eauto.
  - intros [= <- <-]. left. split; [reflexivity|]. now intros r [= <-].
  - intros [= <- <-]. left. split; [reflexivity|discriminate].
Qed.

Lemma app_one_neq {A : Type} (l : list A) (x : A) : l ++ [x] <> l.
Proof.
  intros H. apply (f_equal (@List.length A)) in H.
  rewrite length_app in H. simpl in H. lia.
Qed.

Lemma app_one_inj {A : Type} (l : list A) (x y : A) : l ++ [x] = l ++ [y] -> x = y.
Proof. intros H. apply app_inv_head in H. now injection H. Qed.

(** ** Score bounds *)

(** C3. Whenever [analyzeCall] succeeds after consulting the LLM, the
    parsed response carries a numeric score between 0 and 100, and every
    Analysis row stored for the call, of which there is at least one, has
    as its score that number as the [int] column keeps it: a whole number
    between 0 and 100, the score itself when it is whole.  A response
    whose score is not a number in that range (150 and the string "abc"
    are such scores) makes the call fail with "Invalid score in analysis
    result" and leaves the tables as they were. *)
Theorem persisted_score_in_range (env : Env) (options : AnalyzeCallOptions) (w : World) :
  let (result, w') := analyzeCall env options w in
  (success result = true ->
   llm_log w' <> llm_log w ->
   exists request v q,
     llm_log w' = llm_log w ++ [request]
     /\ invokeLLM env request = LLMParsed v
     /\ get v "score" = Some (JNum q)
     /\ (num 0 <= q)%Qc /\ (q <= num 100)%Qc
     /\ analysis result = Some v
     /\ rows_of a_callId (o_callId options) (analyses (tables w')) <> []
     /\ Forall (fun row =>
                  a_score row = int_column q
                  /\ is_integer (a_score row) = true
                  /\ (num 0 <= a_score row)%Qc /\ (a_score row <= num 100)%Qc
                  /\ (is_integer q = true -> a_score row = q))
               (rows_of a_callId (o_callId options) (analyses (tables w'))))
  /\ (forall request v s,
        llm_log w' = llm_log w ++ [request] ->
        invokeLLM env request = LLMParsed v ->
        get v "score" = Some s ->
        score_in_range s = false ->
        result = failure (o_callId options) "Invalid score in analysis result"
        /\ tables w' = tables w)
  /\ score_in_range (JNum (num 150)) = false
  /\ score_in_range (JStr "abc") = false.
Proof.
  unfold analyzeCall.
  destruct (analyzeCall_try env options w) as [out w'] eqn:Htry.
  apply analyzeCall_try_cases in Htry.
  assert (Hkeep : forall isBroken,
             savePlaceholder env (o_callId options) (o_phoneNumberId options) isBroken w
             = (out, w') -> llm_log w' = llm_log w).
  { intros b Hb.
    pose proof (keeps_savePlaceholder llm_log env (o_callId options)
                  (o_phoneNumberId options) b llm_log_table_free w) as K.
    now rewrite Hb in K. }
  set (callId := o_callId options) in *.
  assert (Hscore :
    forall call text,
      scoreWithLLM env callId call (o_callDirection options)
                   (o_phoneNumberId options) text w = (out, w') ->
      (llm_log w' = llm_log w /\ exists msg, out = Throw msg)
      \/ exists request,
           llm_log w' = llm_log w ++ [request]
           /\ match invokeLLM env request with
              | LLMParsed v =>
                  match get v "score" with
                  | Some s =>
                      if score_in_range s then
                        (exists msg, out = Throw msg)
                        \/ (out = Ret {| success := true; res_callId := callId;
                                         analysis := Some v; error := None |}
                            /\ rows_of a_callId callId (analyses (tables w')) <> []
                            /\ Forall (fun row =>
                                         a_score row =
                                         int_column
                                           match s with JNum n => n | _ => num 0 end)
                                      (rows_of a_callId callId (analyses (tables w'))))
                      else out = Throw "Invalid score in analysis result"
                           /\ tables w' = tables w
                  | None => exists msg, out = Throw msg
                  end
              | _ => exists msg, out = Throw msg
              end).
  { intros call text. rewrite scoreWithLLM_steps.
    destruct (corrupted_or_empty text).
    { intros [= <- <-]. left. eauto. }
    match goal with |- context [invokeLLM env ?r] => set (request := r) end.
    intros H. right. exists request.
    destruct (invokeLLM env request) as [msg| |msg|v].
    1-3: injection H as <- <-; split; [reflexivity|eauto].
    destruct (get v "score") as [s|] eqn:Hs.
    2:{ injection H as <- <-. split; [reflexivity|eauto]. }
    destruct (score_in_range s).
    2:{ injection H as <- <-. split; [reflexivity|]. split; reflexivity. }
    destruct (saveAnalysisToDatabase _ _ _ _ _ _) as [[[]|msg] w2] eqn:Hsave.
    - injection H as <- <-.
      destruct (saveAnalysis_returns _ _ _ _ _ _ _ Hsave)
        as (c & rows' & _ & -> & Hne & Hall).
      split; [reflexivity|]. right. split; [reflexivity|]. simpl.
      split; [exact Hne|].
      eapply Forall_impl; [|exact Hall]. intros row ->. simpl.
      unfold get_opt. now rewrite Hs.
    - injection H as <- <-. apply saveAnalysis_throws in Hsave. subst w2.
      split; [reflexivity|]. left. eauto. }
  assert (Hrej :
    forall request v s,
      llm_log w' = llm_log w ++ [request] ->
      invokeLLM env request = LLMParsed v ->
      get v "score" = Some s ->
      score_in_range s = false ->
      out = Throw "Invalid score in analysis result" /\ tables w' = tables w).
  { intros request v s Happ Hllm Hs Hrange.
    destruct Htry as [[-> Hfail]|[[b Hb]|[call [text Hsc]]]].
    + exfalso. symmetry in Happ. exact (app_one_neq _ _ Happ).
    + exfalso. rewrite (Hkeep b Hb) in Happ. symmetry in Happ.
      exact (app_one_neq _ _ Happ).
    + destruct (Hscore call text Hsc) as [[Hsame _]|[request' [Happ' Hcase]]].
      * exfalso. rewrite Hsame in Happ. symmetry in Happ. exact (app_one_neq _ _ Happ).
      * rewrite Happ in Happ'. apply app_one_inj in Happ'. subst request'.
        rewrite Hllm, Hs, Hrange in Hcase. exact Hcase. }
  destruct out as [r|msg].
  - split; [|split; [|split; reflexivity]].
    + (* a success after the LLM was consulted *)
      intros Hsucc Hlog.
      destruct Htry as [[-> Hfail]|[[b Hb]|[call [text Hsc]]]].
      * congruence.
      * exfalso. apply Hlog. eauto.
      * destruct (Hscore call text Hsc) as [[Hsame _]|[request [Happ Hcase]]];
          [congruence|].
        exists request.
        destruct (invokeLLM env request) as [msg| |msg|v];
          try (destruct Hcase as [m [=]]).
        destruct (get v "score") as [s|] eqn:Hs; [|destruct Hcase as [m [=]]].
        destruct (score_in_range s) eqn:Hrange; [|destruct Hcase as [[=] _]].
        destruct Hcase as [[m [=]]|(Hr & Hne & Hall)].
        apply score_in_range_bounds in Hrange. destruct Hrange as (q & -> & H0 & H100).
        injection Hr as ->. exists v, q. simpl.
        do 7 (split; [auto|]).
        eapply Forall_impl; [|exact Hall]. intros row Hrow. rewrite Hrow.
        split; [reflexivity|]. split; [apply int_column_is_integer|].
        split; [exact (proj1 (int_column_bounds q 0 100 H0 H100))|].
        split; [exact (proj2 (int_column_bounds q 0 100 H0 H100))|].
        apply int_column_whole.
    + (* a response whose score is rejected *)
      intros request v s Happ Hllm Hs Hrange.
      destruct (Hrej request v s Happ Hllm Hs Hrange) as [[=] _].
  - split; [discriminate|]. split; [|split; reflexivity].
    intros request v s Happ Hllm Hs Hrange.
    destruct (Hrej request v s Happ Hllm Hs Hrange) as [[= ->] Htab].
    split; [reflexivity|exact Htab].
Qed.

(** ** Batch analysis *)

Lemma analyzeCall_names_call env options w :
  res_callId (fst (analyzeCall env options w)) = o_callId options.
Proof.
  unfold analyzeCall.
  destruct (analyzeCall_try env options w) as [[r|msg] w'] eqn:Htry; simpl.
  - now apply analyzeCall_try_returns in Htry.
  - reflexivity.
Qed.

Lemma batchLoop_spec env callIds :
  forall acc successful failed w,
    exists new,
      fst (batchLoop env callIds acc successful failed w)
      = (acc ++ new,
         successful + List.length (filter success new),
         failed + List.length (filter (fun r => negb (success r)) new))
      /\ map res_callId new = callIds.
Proof.
  induction callIds as [|callId rest IH]; intros acc successful failed w; simpl.
  - exists []. rewrite app_nil_r, !Nat.add_0_r. auto.
  - pose proof (analyzeCall_names_call env (defaultOptions callId) w) as Hid.
    destruct (analyzeCall env (defaultOptions callId) w) as [result w'].
    simpl in Hid.
    destruct (success result) eqn:Hs.
    + destruct (IH (acc ++ [result]) (S successful) failed w') as [new [E M]].
      exists (result :: new). rewrite E. simpl. rewrite Hs. simpl.
      rewrite <- app_assoc. simpl. split; [|congruence].
      repeat f_equal. lia.
    + destruct (IH (acc ++ [result]) successful (S failed) w') as [new [E M]].
      exists (result :: new). rewrite E. simpl. rewrite Hs. simpl.
      rewrite <- app_assoc. simpl. split; [|congruence].
      repeat f_equal. lia.
Qed.

(** C10. [batchAnalyzeCalls] reports as [total] the number of ids it was
    given, returns one result per id, in the order of the ids, and counts
    each result once: as successful when its flag is set, as failed
    otherwise, so that the two counts add up to [total]. *)
Theorem batchAnalyzeCalls_counts (env : Env) (callIds : list string) (w : World) :
  let (batch, w') := batchAnalyzeCalls env callIds w in
  total batch = List.length callIds
  /\ List.length (results batch) = List.length callIds
  /\ map res_callId (results batch) = callIds
  /\ successful batch = List.length (filter success (results batch))
  /\ failed batch = List.length (filter (fun r => negb (success r)) (results batch))
  /\ successful batch + failed batch = total batch.
Proof.
  unfold batchAnalyzeCalls.
  destruct (batchLoop_spec env callIds [] 0 0 w) as [new [E M]].
  destruct (batchLoop env callIds [] 0 0 w) as [[[res s] f] w']. simpl in *.
  injection E as -> -> ->.
  assert (L : List.length new = List.length callIds)
    by (rewrite <- M; now rewrite length_map).
  repeat split; auto.
  rewrite <- L. apply filter_length.
Qed.

(** ** Line routing *)

Lemma opt_eqb_eq (a b : option string) : opt_eqb a b = true <-> a = b.
Proof.
  destruct a as [x|], b as [y|]; simpl; try (split; congruence).
  rewrite String.eqb_eq. split; congruence.
Qed.

Lemma opt_eqb_neq (a b : option string) : opt_eqb a b = false <-> a <> b.
Proof.
  pose proof (opt_eqb_eq a b) as H.
  destruct (opt_eqb a b); split; try congruence.
  - intros N. exfalso. apply N. now apply H.
  - intros _ E. apply H in E. discriminate.
Qed.

Lemma startsWith_app (p s : string) : startsWith (p ++ s)%string p = true.
Proof.
  induction p as [|c p IH]; simpl.
  - now destruct s.
  - now rewrite Ascii.eqb_refl.
Qed.

Lemma includes_startsWith (s p : string) :
  startsWith s p = true -> includes s p = true.
Proof. intros H. destruct s; cbn [includes]; rewrite H; reflexivity. Qed.

Lemma includes_prefix (p s : string) : includes (p ++ s)%string p = true.
Proof. apply includes_startsWith, startsWith_app. Qed.

(** C2 (amended). With two distinct line ids configured, the poll
    filter and the webhook's inline decision agree with the routing table:
    on the main line a call qualifies iff it is incoming and lasts strictly
    more than 30 seconds; on the outbound line iff it is outgoing, whatever
    its duration; on any other line it never qualifies.  For such a line
    the webhook records the reason "Unknown phone number: <id>", and the
    poll filter records no reason: its log entry names the "unknown line". *)
Theorem line_routing (env : Env) :
  (mainPhoneId env <> outboundPhoneId env ->
   forall (line : string) (call : OpenPhoneCall),
     (line = mainPhoneId env ->
      (Sync.qualifies env line call = true <->
       c_direction call = "incoming"
       /\ (num 30 < num_or_zero (c_duration call))%Qc))
     /\ (line = outboundPhoneId env ->
         (Sync.qualifies env line call = true <-> c_direction call = "outgoing"))
     /\ (line <> mainPhoneId env -> line <> outboundPhoneId env ->
         Sync.qualifies env line call = false
         /\ Sync.loggedLine env line = "unknown line"))
  /\ (OPENPHONE_MAIN_PHONE_NUMBER_ID env <> OPENPHONE_OUTBOUND_PHONE_NUMBER_ID env ->
      forall (line direction : option string) (duration : Qc),
        let r := Webhook.routing env line direction duration in
        (line = OPENPHONE_MAIN_PHONE_NUMBER_ID env ->
         (Webhook.shouldAnalyze r = true <->
          direction = Some "incoming" /\ (num 30 < duration)%Qc))
        /\ (line = OPENPHONE_OUTBOUND_PHONE_NUMBER_ID env ->
            (Webhook.shouldAnalyze r = true <-> direction = Some "outgoing"))
        /\ (line <> OPENPHONE_MAIN_PHONE_NUMBER_ID env ->
            line <> OPENPHONE_OUTBOUND_PHONE_NUMBER_ID env ->
            Webhook.shouldAnalyze r = false
            /\ Webhook.filterReason r = ("Unknown phone number: " ++ render line)%string
            /\ includes (Webhook.filterReason r) "Unknown phone number" = true)).
Proof.
  split.
  - intros Hdistinct line call. unfold Sync.qualifies, Sync.loggedLine.
    split; [|split].
    + intros ->. rewrite String.eqb_refl.
      destruct (String.eqb_spec (mainPhoneId env) (outboundPhoneId env)) as [E|_];
        [contradiction|].
      simpl.
      split.
      * destruct (String.eqb (c_direction call) "incoming"
                  && num_ltb (num 30) (num_or_zero (c_duration call))) eqn:B;
          [|discriminate].
        intros _. now rewrite andb_true_iff, String.eqb_eq, num_ltb_true in B.
      * intros [D L]. apply String.eqb_eq in D. apply num_ltb_true in L.
        now rewrite D, L.
    + intros ->. rewrite String.eqb_refl.
      destruct (String.eqb_spec (outboundPhoneId env) (mainPhoneId env)) as [E|_];
        [symmetry in E; contradiction|].
      simpl. destruct (String.eqb_spec (c_direction call) "outgoing");
        split; congruence.
    + intros Hm Ho.
      destruct (String.eqb_spec line (mainPhoneId env)); [contradiction|].
      destruct (String.eqb_spec line (outboundPhoneId env)); [contradiction|].
      split; reflexivity.
  - intros Hdistinct line direction duration. unfold Webhook.routing.
    split; [|split].
    + intros ->. rewrite (proj2 (opt_eqb_eq _ _) eq_refl). simpl.
      rewrite andb_true_iff, opt_eqb_eq, num_ltb_true. tauto.
    + intros ->.
      rewrite (proj2 (opt_eqb_neq _ _) (fun E => Hdistinct (eq_sym E))).
      rewrite (proj2 (opt_eqb_eq _ _) eq_refl). simpl.
      now rewrite opt_eqb_eq.
    + intros Hm Ho.
      rewrite (proj2 (opt_eqb_neq _ _) Hm), (proj2 (opt_eqb_neq _ _) Ho).
      cbn [Webhook.shouldAnalyze Webhook.filterReason].
      split; [reflexivity|]. split; [reflexivity|].
      change ("Unknown phone number: " ++ render line)%string
        with ("Unknown phone number" ++ (": " ++ render line))%string.
      apply includes_prefix.
Qed.

(** ** The two transcript normalisers *)

Lemma num_is_zero_eq (q : Qc) : num_is_zero q = true -> q = num 0.
Proof.
  unfold num_is_zero, num. intros H. apply Qeq_bool_eq in H.
  apply Qc_is_canon. unfold Q2Qc. cbn [this].
  transitivity (inject_Z 0); [exact H | symmetry; apply Qred_correct].
Qed.

Lemma num_or_zero_some (q : Qc) : num_or_zero (Some q) = q.
Proof.
  simpl. destruct (num_is_zero q) eqn:E; [|reflexivity].
  symmetry. now apply num_is_zero_eq.
Qed.

Lemma filter_all {A : Type} (f : A -> bool) (l : list A) :
  Forall (fun x => f x = true) l -> filter f l = l.
Proof.
  induction 1 as [|x l Hx _ IH]; simpl; [reflexivity|].
  now rewrite Hx, IH.
Qed.

Lemma segmentOf_agree (d : DialogueItem) :
  d_start d <> None -> d_end d <> None ->
  Webhook.segmentOf d = Sync.segmentOf d.
Proof.
  unfold Webhook.segmentOf, Sync.segmentOf.
  destruct (d_start d) as [s|], (d_end d) as [e|]; try congruence.
  intros _ _. now rewrite !num_or_zero_some.
Qed.

(** C9 (amended). For a dialogue in which every item is valid for the
    webhook (non-blank content and a non-null [userId] or [identifier])
    and carries its start and end times, the transcript record built by
    the push path has the same [fullText] and the same segments as the
    one built by the poll path: the lines "speaker: text" joined by
    newlines, the speaker being [userId], else [identifier], else
    "Unknown". *)
Theorem push_and_poll_transcripts_agree
        (callId : string) (x : Webhook.Extracted)
        (transcript : OpenPhoneTranscript) (dialogue : list DialogueItem) :
  Forall (fun d => Webhook.validItem d = true) dialogue ->
  Forall (fun d => d_start d <> None /\ d_end d <> None) dialogue ->
  let pushed :=
    Webhook.transcriptData callId x (filter Webhook.validItem dialogue) in
  let polled := Sync.transcriptData transcript dialogue in
  t_fullText pushed = t_fullText polled
  /\ t_jsonPayload pushed = t_jsonPayload polled
  /\ t_fullText polled
     = join_lines
         (map (fun d =>
                 (str_or (d_userId d) (str_or (d_identifier d) "Unknown")
                  ++ ": " ++ str_or (d_content d) "")%string)
              dialogue).
Proof.
  intros Hvalid Htimes pushed polled. unfold pushed, polled.
  rewrite (filter_all _ _ Hvalid).
  split; [reflexivity|]. split; [|reflexivity].
  simpl. do 3 f_equal.
  induction Htimes as [|d l [Hs He] _ IH]; simpl; [reflexivity|].
  inversion Hvalid; subst. rewrite IH by assumption.
  now rewrite segmentOf_agree.
Qed.

Lemma push_and_poll_transcripts_agree_witness :
  Forall (fun d => Webhook.validItem d = true) Scenario.dialogue_ok
  /\ Forall (fun d => d_start d <> None /\ d_end d <> None) Scenario.dialogue_ok
  /\ (let pushed :=
        Webhook.transcriptData "AC1"
          (Webhook.extractCallCompleted Scenario.noCallData)
          (filter Webhook.validItem Scenario.dialogue_ok) in
      let polled :=
        Sync.transcriptData
          {| tr_callId := "AC1"; tr_duration := None; tr_status := None;
             tr_dialogue := Some Scenario.dialogue_ok |}
          Scenario.dialogue_ok in
      t_fullText pushed = t_fullText polled
      /\ t_jsonPayload pushed = t_jsonPayload polled
      /\ t_fullText polled
         = join_lines
             (map (fun d =>
                     (str_or (d_userId d) (str_or (d_identifier d) "Unknown")
                      ++ ": " ++ str_or (d_content d) "")%string)
                  Scenario.dialogue_ok)).
Proof.
  assert (Hv : Forall (fun d => Webhook.validItem d = true) Scenario.dialogue_ok)
    by (repeat constructor).
  assert (Ht : Forall (fun d => d_start d <> None /\ d_end d <> None)
                      Scenario.dialogue_ok)
    by (repeat constructor; discriminate).
  split; [exact Hv|]. split; [exact Ht|].
  exact (push_and_poll_transcripts_agree "AC1"
           (Webhook.extractCallCompleted Scenario.noCallData)
           {| tr_callId := "AC1"; tr_duration := None; tr_status := None;
              tr_dialogue := Some Scenario.dialogue_ok |}
           Scenario.dialogue_ok Hv Ht).
Defined.

(** The claim C9 as stated fails on a dialogue with an item the webhook
    drops: pushed by the webhook and fetched by the poll path into the same
    store, the dialogue [dialogue_mixed] leaves transcripts with different
    texts and different numbers of segments.  It also fails on an item
    without times: for [dialogue_untimed] the texts agree and the segments
    differ, the webhook storing the times as 0 and the poll path leaving
    them out. *)
Lemma push_and_poll_transcripts_differ :
  (let pushed :=
     transcripts
       (tables (snd (Webhook.handler Scenario.env_mixed
                       (Some (Scenario.body_transcript Scenario.dialogue_mixed))
                       Scenario.world1))) in
   let polled :=
     transcripts
       (tables (snd (Sync.fetchTranscriptForCall Scenario.env_mixed "AC1"
                       Scenario.world1))) in
   map t_fullText pushed = ["US1: Thank you for calling, how can I help?"]
   /\ map t_fullText polled
      = [("US1: Thank you for calling, how can I help?" ++ newline
          ++ "+14125550100: ")%string]
   /\ map t_fullText pushed <> map t_fullText polled
   /\ map t_jsonPayload pushed <> map t_jsonPayload polled)
  /\ (let pushed :=
        transcripts
          (tables (snd (Webhook.handler Scenario.env_untimed
                          (Some (Scenario.body_transcript Scenario.dialogue_untimed))
                          Scenario.world1))) in
      let polled :=
        transcripts
          (tables (snd (Sync.fetchTranscriptForCall Scenario.env_untimed "AC1"
                          Scenario.world1))) in
      map t_fullText pushed = map t_fullText polled
      /\ map t_jsonPayload pushed
         = [Some {| segments :=
                      Some [ {| seg_start := JNum (num 0); seg_end := JNum (num 0);
                                seg_speaker := JStr "US1";
                                seg_text :=
                                  JStr "Thank you for calling, how can I help?" |} ] |}]
      /\ map t_jsonPayload polled
         = [Some {| segments :=
                      Some [ {| seg_start := JUndefined; seg_end := JUndefined;
                                seg_speaker := JStr "US1";
                                seg_text :=
                                  JStr "Thank you for calling, how can I help?" |} ] |}]
      /\ map t_jsonPayload pushed <> map t_jsonPayload polled).
Proof.
  vm_compute. repeat split; discriminate.
Qed.

(** ** Dialogues without text or speaker *)

Lemma filter_none {A : Type} (f : A -> bool) (l : list A) :
  Forall (fun x => f x = false) l -> filter f l = [].
Proof.
  induction 1 as [|x l Hx _ IH]; simpl; [reflexivity|].
  now rewrite Hx.
Qed.

(** The webhook stores nothing for a dialogue whose items all lack text
    and speaker: the normaliser raises "No valid dialogue items in
    transcript", and the handler leaves the world as it was. *)
Lemma webhook_drops_blank_dialogue env isCallCompleted x r w :
  Webhook.x_dialogue x <> [] ->
  Forall (fun d => Webhook.hasContent d = false /\ Webhook.hasSpeaker d = false)
         (Webhook.x_dialogue x) ->
  (db_available w = true ->
   Webhook.saveTranscript env x r w
   = (Throw "No valid dialogue items in transcript", w))
  /\ Webhook.afterResponse env isCallCompleted x r w = w.
Proof.
  intros Hne Hblank.
  assert (Hnone : filter Webhook.validItem (Webhook.x_dialogue x) = []).
  { apply filter_none. eapply Forall_impl; [|exact Hblank].
    intros d [Hc _]. unfold Webhook.validItem. now rewrite Hc. }
  split.
  - intros Hdb. unfold Webhook.saveTranscript, bind.
    rewrite (getDb_available w Hdb), Hnone. reflexivity.
  - unfold Webhook.afterResponse.
    destruct (Webhook.x_dialogue x) as [|d l] eqn:E; [congruence|].
    simpl. unfold try_catch, Webhook.saveTranscript, bind, getDb.
    destruct (db_available w); [|reflexivity].
    rewrite E, Hnone. reflexivity.
Qed.

(** The dispatcher flags stored segments without text as broken when the
    stored text gives it the occasion to look at them. *)
Lemma blank_segments_are_broken (t : TranscriptRow) (segs : list Segment) :
  textCheck (t_fullText t) = (false, false) ->
  t_jsonPayload t = Some {| segments := Some segs |} ->
  Forall (fun s => truthy (seg_text s) = false) segs ->
  (exists s, In s segs /\ seg_start s <> JUndefined /\ seg_end s <> JUndefined) ->
  classify (t_fullText t) (Some t) = Broken.
Proof.
  intros Htext Hpayload Hblank (s & Hin & Hs & He).
  unfold classify, contentCheck, segmentsCheck. rewrite Htext, Hpayload. simpl.
  assert (Hvalid : filter validSegment segs = []).
  { apply filter_none. eapply Forall_impl; [|exact Hblank].
    intros s' Hs'. cbv beta in Hs'. unfold validSegment. revert Hs'.
    destruct (seg_text s'); simpl; intros Hs'; try reflexivity. now rewrite Hs'. }
  rewrite Hvalid. simpl.
  assert (Hbroken : In s (filter brokenSegment segs)).
  { apply filter_In. split; [exact Hin|].
    unfold brokenSegment.
    rewrite Forall_forall in Hblank. rewrite (Hblank s Hin).
    destruct (seg_start s), (seg_end s); try congruence; reflexivity. }
  destruct (filter brokenSegment segs); [contradiction|]. reflexivity.
Qed.

(** C5 (the code at the failing input). The dialogue [dialogue_blank],
    whose two items have neither text nor speaker, is stored by the poll
    path as the transcript "Unknown: \nUnknown: " with two segments; the
    dispatcher classifies that transcript as valid, sends it to the LLM
    and stores the LLM's score. *)
Theorem blank_dialogue_is_scored :
  Forall (fun d => Webhook.hasContent d = false /\ Webhook.hasSpeaker d = false)
         Scenario.dialogue_blank
  /\ let w1 := snd (Sync.fetchTranscriptForCall Scenario.env_blank "AC1"
                      Scenario.world1) in
     map t_fullText (transcripts (tables w1))
     = [("Unknown: " ++ newline ++ "Unknown: ")%string]
     /\ (forall t, In t (transcripts (tables w1)) ->
                   classify (t_fullText t) (Some t) = Valid)
     /\ let (result, w2) :=
          analyzeCall Scenario.env_blank
                      (Sync.analysisOptions Scenario.options Scenario.call1) w1 in
        success result = true
        /\ List.length (llm_log w2) = 1
        /\ map a_score (analyses (tables w2)) = [num 85]
        /\ map a_complianceCheck (analyses (tables w2)) = [Pass].
Proof.
  split; [repeat constructor|].
  vm_compute. repeat split.
  intros t [<-|[]]. reflexivity.
Qed.

(** ** Frame properties of the dispatcher and of the poll steps *)

Lemma db_available_llm_free : llm_free db_available.
Proof. intros w r. reflexivity. Qed.

Lemma fetch_log_llm_free : llm_free fetch_log.
Proof. intros w r. reflexivity. Qed.

Lemma db_available_fetch_free : fetch_free db_available.
Proof. intros w k. reflexivity. Qed.

Lemma llm_log_fetch_free : fetch_free llm_log.
Proof. intros w k. reflexivity. Qed.

#[export] Hint Resolve db_available_llm_free fetch_log_llm_free
  db_available_fetch_free llm_log_fetch_free : frame.

Section DispatcherFrame.

Context {X : Type} (proj : World -> X).
Hypothesis proj_table_free : table_free proj.
Hypothesis proj_llm_free : llm_free proj.

Lemma keeps_askLLM env request : keeps proj (askLLM env request).
Proof.
  intros w. unfold askLLM.
  destruct (invokeLLM env request); simpl; apply proj_llm_free.
Qed.

Lemma keeps_buildInboundQAPrompt env text : keeps proj (buildInboundQAPrompt env text).
Proof. unfold buildInboundQAPrompt. frame. Qed.

Lemma keeps_buildOutboundQAPrompt env text : keeps proj (buildOutboundQAPrompt env text).
Proof. unfold buildOutboundQAPrompt. frame. Qed.

Lemma keeps_scoreWithLLM env callId call dir pn text :
  keeps proj (scoreWithLLM env callId call dir pn text).
Proof.
  unfold scoreWithLLM.
  pose proof keeps_askLLM. pose proof keeps_buildInboundQAPrompt.
  pose proof keeps_buildOutboundQAPrompt. pose proof (@keeps_prop X proj).
  pose proof (@keeps_saveAnalysisToDatabase X proj).
  frame.
Qed.

Lemma keeps_resolveTranscript callId provided :
  keeps proj (resolveTranscript callId provided).
Proof. unfold resolveTranscript. frame. Qed.

Lemma keeps_analyzeCall_try env options : keeps proj (analyzeCall_try env options).
Proof.
  unfold analyzeCall_try.
  pose proof keeps_scoreWithLLM. pose proof keeps_resolveTranscript.
  pose proof (@keeps_savePlaceholder X proj).
  repeat first
    [ progress (auto with frame)
    | apply keeps_bind
    | match goal with
      | |- keeps _ (match ?x with _ => _ end) => destruct x
      | |- keeps _ (if ?b then _ else _) => destruct b
      | |- keeps _ (let (_, _) := ?p in _) => destruct p
      | |- forall _, _ => intro
      end ].
Qed.

Lemma analyzeCall_keeps env options w :
  proj (snd (analyzeCall env options w)) = proj w.
Proof.
  pose proof (keeps_analyzeCall_try env options w) as K. unfold analyzeCall.
  now destruct (analyzeCall_try env options w) as [[r|msg] w'].
Qed.

End DispatcherFrame.

Lemma keeps_upsertCall {X : Type} (proj : World -> X) env call :
  table_free proj -> keeps proj (Sync.upsertCall env call).
Proof. intros H. unfold Sync.upsertCall. frame. Qed.

Lemma keeps_upsertTranscript {X : Type} (proj : World -> X) env callId row :
  table_free proj -> keeps proj (Sync.upsertTranscript env callId row).
Proof. intros H. unfold Sync.upsertTranscript. frame. Qed.

Lemma keeps_requestTranscript {X : Type} (proj : World -> X) env callId :
  fetch_free proj -> keeps proj (Sync.requestTranscript env callId).
Proof.
  intros H w. unfold Sync.requestTranscript.
  destruct (fetchTranscript env callId); simpl; apply H.
Qed.

Lemma keeps_fetchTranscriptForCall {X : Type} (proj : World -> X) env callId :
  table_free proj -> fetch_free proj ->
  keeps proj (Sync.fetchTranscriptForCall env callId).
Proof.
  intros Ht Hf. unfold Sync.fetchTranscriptForCall.
  pose proof (@keeps_requestTranscript X proj).
  pose proof (@keeps_upsertTranscript X proj).
  frame.
Qed.

(** A transcript fetch sends exactly one request to the provider, whatever
    its outcome. *)
Lemma fetchTranscriptForCall_logs env callId w :
  db_available w = true ->
  fetch_log (snd (Sync.fetchTranscriptForCall env callId w))
  = fetch_log w ++ [callId].
Proof.
  intros Hdb. unfold Sync.fetchTranscriptForCall, bind at 1.
  rewrite (getDb_available w Hdb).
  unfold try_catch, bind, Sync.requestTranscript.
  assert (Hup : forall row w0,
             fetch_log (snd (Sync.upsertTranscript env callId row w0)) = fetch_log w0)
    by (intros; apply keeps_upsertTranscript; auto with frame).
  destruct (fetchTranscript env callId) as [[t|]|msg]; simpl.
  - destruct (tr_dialogue t) as [[|d l]|]; simpl; try reflexivity.
    specialize (Hup (Sync.transcriptData t (d :: l)) (log_fetch w callId)).
    destruct (Sync.upsertTranscript env callId _ _) as [[[]|msg] w1];
      simpl in *; [exact Hup|].
    destruct (includes msg "404"); simpl; exact Hup.
  - reflexivity.
  - destruct (includes msg "404"); reflexivity.
Qed.

(** ** The three loops of the poll pipeline *)

Section PollLoops.

Import Sync.

Lemma saveCalls_spec env completedCalls :
  forall result w,
    let (result', w') := saveCalls env completedCalls result w in
    s_success result' = s_success result
    /\ transcriptsSynced result' = transcriptsSynced result
    /\ analysesTriggered result' = analysesTriggered result
    /\ callsSynced result' + List.length (errors result')
       = callsSynced result + List.length (errors result) + List.length completedCalls
    /\ db_available w' = db_available w
    /\ fetch_log w' = fetch_log w
    /\ llm_log w' = llm_log w.
Proof.
  induction completedCalls as [|call rest IH]; intros result w; simpl.
  - repeat split; lia.
  - pose proof (keeps_upsertCall db_available env call db_available_table_free w) as Kd.
    pose proof (keeps_upsertCall fetch_log env call fetch_log_table_free w) as Kf.
    pose proof (keeps_upsertCall llm_log env call llm_log_table_free w) as Kl.
    destruct (upsertCall env call w) as [[b|msg] w1]; simpl in *.
    + specialize (IH (count_call result) w1).
      destruct (saveCalls env rest (count_call result) w1) as [r' w'].
      simpl in IH. destruct IH as (? & ? & ? & ? & ? & ? & ?).
      repeat split; try congruence; lia.
    + specialize (IH (add_error result
                        ("Failed to save call " ++ c_id call ++ ": " ++ msg)%string) w1).
      destruct (saveCalls env rest _ w1) as [r' w'].
      simpl in IH. rewrite length_app in IH. simpl in IH.
      destruct IH as (? & ? & ? & ? & ? & ? & ?).
      repeat split; try congruence; lia.
Qed.

(** A failed transcript fetch changes neither the success flag nor the
    error list; every call has its transcript requested. *)
Lemma saveTranscripts_spec env completedCalls :
  forall result w,
    let (result', w') := saveTranscripts env completedCalls result w in
    errors result' = errors result
    /\ s_success result' = s_success result
    /\ callsSynced result' = callsSynced result
    /\ analysesTriggered result' = analysesTriggered result
    /\ db_available w' = db_available w
    /\ llm_log w' = llm_log w
    /\ (db_available w = true ->
        fetch_log w' = fetch_log w ++ map c_id completedCalls).
Proof.
  induction completedCalls as [|call rest IH]; intros result w; simpl.
  - repeat split; auto. intros _. now rewrite app_nil_r.
  - pose proof (keeps_fetchTranscriptForCall db_available env (c_id call)
                  db_available_table_free db_available_fetch_free w) as Kd.
    pose proof (keeps_fetchTranscriptForCall llm_log env (c_id call)
                  llm_log_table_free llm_log_fetch_free w) as Kl.
    pose proof (fetchTranscriptForCall_logs env (c_id call) w) as Kf.
    destruct (fetchTranscriptForCall env (c_id call) w) as [[[|]|msg] w1];
      simpl in *;
      match goal with
      | |- context [saveTranscripts env rest ?r w1] =>
          specialize (IH r w1); destruct (saveTranscripts env rest r w1) as [r' w']
      end;
      simpl in IH; destruct IH as (? & ? & ? & ? & ? & ? & Hlog);
      (repeat split; try congruence);
      intros Hdb; rewrite Hlog by congruence; rewrite Kf by exact Hdb;
      now rewrite <- app_assoc.
Qed.

Lemma analyzeCalls_spec env options callsToAnalyze :
  forall result w,
    let (result', w') := analyzeCalls env options callsToAnalyze result w in
    s_success result' = s_success result
    /\ callsSynced result' = callsSynced result
    /\ transcriptsSynced result' = transcriptsSynced result
    /\ analysesTriggered result' + List.length (errors result')
       = analysesTriggered result + List.length (errors result)
         + List.length callsToAnalyze
    /\ db_available w' = db_available w
    /\ fetch_log w' = fetch_log w.
Proof.
  induction callsToAnalyze as [|call rest IH]; intros result w; simpl.
  - repeat split; lia.
  - pose proof (analyzeCall_keeps db_available db_available_table_free
                  db_available_llm_free env (analysisOptions options call) w) as Kd.
    pose proof (analyzeCall_keeps fetch_log fetch_log_table_free
                  fetch_log_llm_free env (analysisOptions options call) w) as Kf.
    destruct (analyzeCall env (analysisOptions options call) w) as [r w1].
    simpl in *.
    destruct (success r);
      match goal with
      | |- context [analyzeCalls env options rest ?r0 w1] =>
          specialize (IH r0 w1); destruct (analyzeCalls env options rest r0 w1) as [r' w']
      end;
      simpl in IH; try rewrite length_app in IH; simpl in IH;
      destruct IH as (? & ? & ? & ? & ? & ?);
      repeat split; try congruence; lia.
Qed.

(** Paging: a run that ended within some fuel ends the same way with
    more, and a provider whose first page names no next page needs one
    unit. *)
Lemma fetchAllPages_more_fuel env options (extra : nat) :
  forall fuel pageToken allCalls r,
    fetchAllPages fuel env options pageToken allCalls = Some r ->
    fetchAllPages (fuel + extra) env options pageToken allCalls = Some r.
Proof.
  induction fuel as [|fuel IH]; intros pageToken allCalls r; simpl; [discriminate|].
  destruct (fetchCalls env (fetchParams options pageToken)) as [data next|msg];
    [|auto].
  destruct (nonempty (str_or next "")); [apply IH|auto].
Qed.

Lemma syncCalls_more_fuel env options w (fuel extra : nat) r :
  syncCalls fuel env options w = Some r ->
  syncCalls (fuel + extra) env options w = Some r.
Proof.
  unfold syncCalls. destruct (db_available w); [|auto].
  destruct (fetchAllPages fuel env options None []) as [[allCalls fetchError]|] eqn:E;
    [|discriminate].
  now rewrite (fetchAllPages_more_fuel env options extra _ _ _ _ E).
Qed.

Lemma fetchAllPages_last_page env options fuel data :
  fetchCalls env (fetchParams options None) = CallsPage data None ->
  fetchAllPages (S fuel) env options None [] = Some (data, None).
Proof. intros H. simpl. now rewrite H. Qed.

(** ** Resilience of the poll pipeline *)


End PollLoops.

(** ** The webhook always acknowledges *)

Section Acknowledgment.

Import Webhook.

Lemma trackHealth_returns env eventType callData w :
  exists w', trackHealth env eventType callData w = (Ret tt, w')
             /\ calls (tables w') = calls (tables w)
             /\ transcripts (tables w') = transcripts (tables w)
             /\ analyses (tables w') = analyses (tables w)
             /\ fetch_log w' = fetch_log w
             /\ llm_log w' = llm_log w.
Proof.
  unfold trackHealth, try_catch. destruct (db_available w).
  - unfold insert_health.
    destruct (health_fault env (healthRecord eventType callData)).
    + eexists. split; [reflexivity|]. auto.
    + unfold modify. eexists. split; [reflexivity|]. simpl. auto.
  - eexists. split; [reflexivity|]. auto.
Qed.

(** Whatever the [try] block responds is a 200 acknowledgment. *)
Lemma respond_returns env body w response pending w' :
  respond env body w = (Ret (response, pending), w') ->
  status response = 200 /\ received response = true.
Proof.
  unfold respond. destruct body as [body|]; [|discriminate].
  unfold bind at 1.
  destruct (trackHealth_returns env (b_type body) (callDataOf (b_data body)) w)
    as (w1 & -> & _).
  destruct (negb (opt_eqb (b_type body) (Some "call.completed"))
            && negb (opt_eqb (b_type body) (Some "call.transcript.completed"))).
  - unfold ret. intros [= <- _ _]. auto.
  - destruct (callDataOf (b_data body)) as [callData|]; [|discriminate].
    unfold bind.
    destruct (saveCall env (b_type body) _ _ w1) as [[[]|msg] w2]; [|discriminate].
    unfold ret. intros [= <- _ _]. auto.
Qed.

(** C8. The handler answers every POST with HTTP 200 and [received:
    true].  An event whose type is neither "call.completed" nor
    "call.transcript.completed" is acknowledged with [processed: false]
    and touches no call, transcript or analysis, and neither the provider
    nor the LLM; an exception in the synchronous part, such as a missing
    body, gives the 200 response "Internal processing error". *)
Theorem webhook_always_acknowledges (env : Env) (body : option Body) (w : World) :
  let (response, w') := handler env body w in
  status response = 200
  /\ received response = true
  /\ (forall b,
        body = Some b ->
        b_type b <> Some "call.completed" ->
        b_type b <> Some "call.transcript.completed" ->
        response = ignored (b_type b)
        /\ processed response = Some false
        /\ calls (tables w') = calls (tables w)
        /\ transcripts (tables w') = transcripts (tables w)
        /\ analyses (tables w') = analyses (tables w)
        /\ fetch_log w' = fetch_log w
        /\ llm_log w' = llm_log w)
  /\ (forall msg w1,
        respond env body w = (Throw msg, w1) ->
        response = internalError /\ w' = w1)
  /\ (body = None -> response = internalError /\ w' = w).
Proof.
  unfold handler.
  destruct (respond env body w) as [[[response [p|]]|msg] w1] eqn:Hr.
  - destruct (respond_returns _ _ _ _ _ _ Hr) as [Hs Hrec].
    split; [exact Hs|]. split; [exact Hrec|]. split; [|split].
    + intros b -> Hc Ht. exfalso. revert Hr. unfold respond, bind at 1.
      destruct (trackHealth_returns env (b_type b) (callDataOf (b_data b)) w)
        as (w2 & -> & _).
      rewrite (proj2 (opt_eqb_neq _ _) Hc), (proj2 (opt_eqb_neq _ _) Ht). simpl.
      unfold ret. discriminate.
    + discriminate.
    + intros ->. discriminate.
  - destruct (respond_returns _ _ _ _ _ _ Hr) as [Hs Hrec].
    split; [exact Hs|]. split; [exact Hrec|]. split; [|split].
    + intros b -> Hc Ht. revert Hr. unfold respond, bind at 1.
      destruct (trackHealth_returns env (b_type b) (callDataOf (b_data b)) w)
        as (w2 & -> & Hcalls & Htr & Han & Hf & Hl).
      rewrite (proj2 (opt_eqb_neq _ _) Hc), (proj2 (opt_eqb_neq _ _) Ht). simpl.
      unfold ret. intros [= <- <-]. repeat split; assumption.
    + discriminate.
    + intros ->. discriminate.
  - split; [reflexivity|]. split; [reflexivity|]. split; [|split].
    + intros b -> Hc Ht. exfalso. revert Hr. unfold respond, bind at 1.
      destruct (trackHealth_returns env (b_type b) (callDataOf (b_data b)) w)
        as (w2 & -> & _).
      rewrite (proj2 (opt_eqb_neq _ _) Hc), (proj2 (opt_eqb_neq _ _) Ht). simpl.
      unfold ret. discriminate.
    + now intros m w2 [= <- <-].
    + intros ->. simpl in Hr. unfold throw in Hr. injection Hr as _ <-. auto.
Qed.

End Acknowledgment.

(** ** The statements on concrete runs *)

Section ConcreteRuns.

Import Scenario.


Lemma line_routing_witness :
  mainPhoneId env_ok <> outboundPhoneId env_ok
  /\ OPENPHONE_MAIN_PHONE_NUMBER_ID env_ok <> OPENPHONE_OUTBOUND_PHONE_NUMBER_ID env_ok
  /\ Sync.qualifies env_ok mainLine (call "AC9" "incoming" "completed" 31) = true
  /\ Sync.qualifies env_ok outboundLine (call "AC9" "outgoing" "completed" 0) = true
  /\ Sync.qualifies env_ok "PNother" call1 = false
  /\ Webhook.shouldAnalyze
       (Webhook.routing env_ok (Some mainLine) (Some "incoming") (num 31)) = true
  /\ Webhook.shouldAnalyze
       (Webhook.routing env_ok (Some outboundLine) (Some "outgoing") (num 0)) = true
  /\ Webhook.filterReason
       (Webhook.routing env_ok (Some "PNother") (Some "incoming") (num 45))
     = "Unknown phone number: PNother".
Proof.
  assert (H1 : mainPhoneId env_ok <> outboundPhoneId env_ok) by discriminate.
  assert (H2 : OPENPHONE_MAIN_PHONE_NUMBER_ID env_ok
               <> OPENPHONE_OUTBOUND_PHONE_NUMBER_ID env_ok) by discriminate.
  destruct (line_routing env_ok) as [Hpoll Hpush].
  split; [exact H1|]. split; [exact H2|].
  split.
  { destruct (Hpoll H1 mainLine (call "AC9" "incoming" "completed" 31)) as [Hm _].
    apply (Hm eq_refl). split; reflexivity. }
  split.
  { destruct (Hpoll H1 outboundLine (call "AC9" "outgoing" "completed" 0))
      as (_ & Ho & _).
    apply (Ho eq_refl). reflexivity. }
  split.
  { destruct (Hpoll H1 "PNother" call1) as (_ & _ & Hu).
    apply Hu; discriminate. }
  split.
  { destruct (Hpush H2 (Some mainLine) (Some "incoming") (num 31)) as [Hm _].
    apply (Hm eq_refl). split; reflexivity. }
  split.
  { destruct (Hpush H2 (Some outboundLine) (Some "outgoing") (num 0)) as (_ & Ho & _).
    apply (Ho eq_refl). reflexivity. }
  destruct (Hpush H2 (Some "PNother") (Some "incoming") (num 45)) as (_ & _ & Hu).
  apply Hu; discriminate.
Defined.

(** The claim C2 as stated fails on the reason string: for an unknown
    line the webhook records "Unknown phone number: PNother", which does
    not contain "unknown phone number", and the poll filter records no
    reason: its log names the "unknown line".  It also fails when both
    line variables name the same line: the poll filter then accepts an
    outgoing call of 0 seconds on what is also the main line, and the
    webhook refuses it on what is also the outbound line. *)
Lemma unknown_line_reason_is_capitalised :
  (let r := Webhook.routing env_ok (Some "PNother") (Some "incoming") (num 45) in
   Webhook.shouldAnalyze r = false
   /\ Webhook.filterReason r = "Unknown phone number: PNother"
   /\ includes (Webhook.filterReason r) "unknown phone number" = false
   /\ Sync.qualifies env_ok "PNother" call1 = false
   /\ Sync.loggedLine env_ok "PNother" = "unknown line"
   /\ includes (Sync.loggedLine env_ok "PNother") "unknown phone number" = false)
  /\ (mainPhoneId env_same = "PNsame"
      /\ outboundPhoneId env_same = "PNsame"
      /\ Sync.qualifies env_same "PNsame" (call "AC9" "outgoing" "completed" 0) = true
      /\ Webhook.shouldAnalyze
           (Webhook.routing env_same (Some "PNsame") (Some "outgoing") (num 0)) = false).
Proof. vm_compute. repeat split. Qed.

Lemma persisted_score_in_range_witness :
  (let (result, w') := analyzeCall env_ok (defaultOptions "AC1") world2 in
   success result = true
   /\ llm_log w' <> llm_log world2
   /\ (exists request v q,
          llm_log w' = llm_log world2 ++ [request]
          /\ invokeLLM env_ok request = LLMParsed v
          /\ get v "score" = Some (JNum q)
          /\ (num 0 <= q)%Qc /\ (q <= num 100)%Qc
          /\ analysis result = Some v
          /\ rows_of a_callId "AC1" (analyses (tables w')) <> []
          /\ Forall (fun row =>
                       a_score row = int_column q
                       /\ is_integer (a_score row) = true
                       /\ (num 0 <= a_score row)%Qc /\ (a_score row <= num 100)%Qc
                       /\ (is_integer q = true -> a_score row = q))
                    (rows_of a_callId "AC1" (analyses (tables w')))))
  /\ (let (result, w') := analyzeCall env_150 (defaultOptions "AC1") world2 in
      get (response (num 150)) "score" = Some (JNum (num 150))
      /\ score_in_range (JNum (num 150)) = false
      /\ result = failure "AC1" "Invalid score in analysis result"
      /\ tables w' = tables world2)
  /\ (let (result, w') := analyzeCall env_half (defaultOptions "AC1") world2 in
      success result = true
      /\ (exists v, analysis result = Some v
                    /\ get v "score" = Some (JNum (Q2Qc (101 # 2))))
      /\ map a_score (analyses (tables w')) = [num 51]).
Proof.
  split; [|split].
  - pose proof (persisted_score_in_range env_ok (defaultOptions "AC1") world2) as H.
    destruct (analyzeCall env_ok (defaultOptions "AC1") world2) as [result w'] eqn:E.
    destruct H as [HA _].
    assert (Hs : success result = true)
      by (apply (f_equal (fun p => success (fst p))) in E; cbn [fst] in E;
          rewrite <- E; vm_compute; reflexivity).
    assert (Hl : llm_log w' <> llm_log world2)
      by (intros C; apply (f_equal (fun p => List.length (llm_log (snd p)))) in E;
          cbn [snd] in E; rewrite C in E; vm_compute in E; discriminate).
    split; [exact Hs|]. split; [exact Hl|]. exact (HA Hs Hl).
  - pose proof (persisted_score_in_range env_150 (defaultOptions "AC1") world2) as H.
    destruct (analyzeCall env_150 (defaultOptions "AC1") world2) as [result w'] eqn:E.
    destruct H as (_ & HB & _).
    assert (Hl : exists request, llm_log w' = llm_log world2 ++ [request])
      by (apply (f_equal (fun p => llm_log (snd p))) in E; cbn [snd] in E;
          rewrite <- E; vm_compute; eexists; reflexivity).
    destruct Hl as [request Hl].
    split; [reflexivity|]. split; [reflexivity|].
    exact (HB request (response (num 150)) (JNum (num 150)) Hl eq_refl eq_refl eq_refl).
  - destruct (analyzeCall env_half (defaultOptions "AC1") world2) as [result w'] eqn:E.
    vm_compute in E. injection E as <- <-.
    split; [reflexivity|]. split; [eexists; split; reflexivity|reflexivity].
Defined.

Lemma analyzeCall_never_throws_witness :
  db_available world1 = true
  /\ find (has_key r_callId "AC7") (calls (tables world1)) = None
  /\ find (has_key r_callId "AC1") (calls (tables world1)) = Some (Sync.callData call1)
  /\ find (has_key t_callId "AC1") (transcripts (tables world1)) = None
  /\ fst (analyzeCall env_ok (defaultOptions "AC7") world1)
     = failure "AC7" "Call not found"
  /\ fst (analyzeCall env_ok (defaultOptions "AC1") world1)
     = failure "AC1" "Transcript not found for this call".
Proof.
  do 4 (split; [reflexivity|]).
  split.
  - pose proof (analyzeCall_never_throws env_ok (defaultOptions "AC7") world1) as H.
    destruct (analyzeCall env_ok (defaultOptions "AC7") world1) as [result w'].
    destruct H as (_ & _ & _ & H & _).
    exact (proj1 (H eq_refl eq_refl)).
  - pose proof (analyzeCall_never_throws env_ok (defaultOptions "AC1") world1) as H.
    destruct (analyzeCall env_ok (defaultOptions "AC1") world1) as [result w'].
    destruct H as (_ & _ & _ & _ & H).
    exact (proj1 (H (Sync.callData call1) eq_refl eq_refl eq_refl eq_refl)).
Defined.

Lemma upsertCall_twice_witness :
  db_available world0 = true
  /\ write_fault env_ok (c_id call1) = None
  /\ rows_of r_callId (c_id call1) (calls (tables world0)) = []
  /\ exists w1 w2,
       Sync.upsertCall env_ok call1 world0 = (Ret false, w1)
       /\ Sync.upsertCall env_ok call1 w1 = (Ret true, w2)
       /\ rows_of r_callId (c_id call1) (calls (tables w1)) = [Sync.callData call1]
       /\ rows_of r_callId (c_id call1) (calls (tables w2)) = [Sync.callData call1]
       /\ tables w2 = tables w1.
Proof.
  do 3 (split; [reflexivity|]).
  exact (upsertCall_twice env_ok call1 world0 eq_refl eq_refl eq_refl).
Defined.



Lemma webhook_always_acknowledges_witness :
  Webhook.b_type body_other <> Some "call.completed"
  /\ Webhook.b_type body_other <> Some "call.transcript.completed"
  /\ fst (Webhook.handler env_ok (Some body_other) world1)
     = Webhook.ignored (Some "message.received")
  /\ tables (snd (Webhook.handler env_ok (Some body_other) world1))
     = with_webhookHealth (tables world1)
         [ {| h_lastWebhookReceived := DateNow;
              h_eventType := Some "message.received"; h_callId := None |} ]
  /\ fst (Webhook.handler env_ok None world1) = Webhook.internalError
  /\ fst (Webhook.handler env_ok (Some body_no_data) world1) = Webhook.internalError.
Proof.
  assert (H1 : Webhook.b_type body_other <> Some "call.completed") by discriminate.
  assert (H2 : Webhook.b_type body_other <> Some "call.transcript.completed")
    by discriminate.
  split; [exact H1|]. split; [exact H2|].
  split.
  { pose proof (webhook_always_acknowledges env_ok (Some body_other) world1) as H.
    destruct (Webhook.handler env_ok (Some body_other) world1) as [response w'].
    destruct H as (_ & _ & H & _).
    exact (proj1 (H body_other eq_refl H1 H2)). }
  split; [reflexivity|].
  split.
  { pose proof (webhook_always_acknowledges env_ok None world1) as H.
    destruct (Webhook.handler env_ok None world1) as [response w'].
    destruct H as (_ & _ & _ & _ & H).
    exact (proj1 (H eq_refl)). }
  pose proof (webhook_always_acknowledges env_ok (Some body_no_data) world1) as H.
  destruct (Webhook.handler env_ok (Some body_no_data) world1) as [response w'].
  destruct H as (_ & _ & _ & H & _).
  eapply proj1, H. reflexivity.
Defined.

End ConcreteRuns.

(* ================================================================== *)
(** * Part III: further properties of the pipeline *)
(* ================================================================== *)

(** ** Frames, table by table *)

Section TableFrame.

Context {X : Type} (proj : World -> X).

Lemma keeps_modify_quiet (f : Db -> Db) :
  (forall w, proj (with_tables w (f (tables w))) = proj w) -> keeps proj (modify f).
Proof. intros H w. unfold modify. simpl. apply H. Qed.

Lemma keeps_update_call_free env k f :
  calls_free proj -> keeps proj (update_call env k f).
Proof. intros H. apply keeps_reject, keeps_modify_quiet. intros w. apply H. Qed.

Lemma keeps_insert_call_free env row :
  calls_free proj -> keeps proj (insert_call env row).
Proof. intros H. apply keeps_reject, keeps_modify_quiet. intros w. apply H. Qed.

Lemma keeps_update_transcript_free env k f :
  transcripts_free proj -> keeps proj (update_transcript env k f).
Proof. intros H. apply keeps_reject, keeps_modify_quiet. intros w. apply H. Qed.

Lemma keeps_insert_transcript_free env row :
  transcripts_free proj -> keeps proj (insert_transcript env row).
Proof. intros H. apply keeps_reject, keeps_modify_quiet. intros w. apply H. Qed.

Lemma keeps_update_analysis_free env k f :
  analyses_free proj -> keeps proj (update_analysis env k f).
Proof. intros H. apply keeps_reject, keeps_modify_quiet. intros w. apply H. Qed.

Lemma keeps_insert_analysis_free env row :
  analyses_free proj -> keeps proj (insert_analysis env row).
Proof. intros H. apply keeps_reject, keeps_modify_quiet. intros w. apply H. Qed.

Lemma keeps_insert_health_free env row :
  health_free proj -> keeps proj (insert_health env row).
Proof.
  intros H. unfold insert_health. destruct (health_fault env row).
  - intros w. reflexivity.
  - apply keeps_modify_quiet. intros w. apply H.
Qed.

End TableFrame.

Create HintDb tables.
#[export] Hint Resolve keeps_update_call_free keeps_insert_call_free
  keeps_update_transcript_free keeps_insert_transcript_free
  keeps_update_analysis_free keeps_insert_analysis_free
  keeps_insert_health_free : tables.
#[export] Hint Extern 1 (calls_free _) => (intros ? ?; reflexivity) : tables.
#[export] Hint Extern 1 (transcripts_free _) => (intros ? ?; reflexivity) : tables.
#[export] Hint Extern 1 (analyses_free _) => (intros ? ?; reflexivity) : tables.
#[export] Hint Extern 1 (health_free _) => (intros ? ?; reflexivity) : tables.
#[export] Hint Extern 1 (llm_free _) => (intros ? ?; reflexivity) : tables.
#[export] Hint Extern 1 (fetch_free _) => (intros ? ?; reflexivity) : tables.

(** Splits a [keeps] goal along the structure of the program, one table
    at a time. *)
Ltac tframe :=
  repeat first
    [ progress (auto with frame tables)
    | apply keeps_bind
    | apply keeps_try_catch
    | match goal with
      | |- keeps _ (match ?x with _ => _ end) => destruct x
      | |- keeps _ (if ?b then _ else _) => destruct b
      | |- keeps _ (let (_, _) := ?p in _) => destruct p
      | |- forall _, _ => intro
      end ].

Lemma keeps_upsertCall_free {X : Type} (proj : World -> X) env call :
  calls_free proj -> keeps proj (Sync.upsertCall env call).
Proof. intros H. unfold Sync.upsertCall. tframe. Qed.

Lemma keeps_upsertTranscript_free {X : Type} (proj : World -> X) env callId row :
  transcripts_free proj -> keeps proj (Sync.upsertTranscript env callId row).
Proof. intros H. unfold Sync.upsertTranscript. tframe. Qed.

Lemma keeps_fetchTranscriptForCall_free {X : Type} (proj : World -> X) env callId :
  transcripts_free proj -> fetch_free proj ->
  keeps proj (Sync.fetchTranscriptForCall env callId).
Proof.
  intros Ht Hf. unfold Sync.fetchTranscriptForCall.
  pose proof (@keeps_requestTranscript X proj).
  pose proof (@keeps_upsertTranscript_free X proj).
  tframe.
Qed.

(** ** What an analysis writes *)

Lemma blind_of_free {X : Type} (proj : World -> X) (k : string) :
  analyses_free proj -> llm_free proj -> analysis_blind proj k.
Proof.
  intros Ha Hl. split; [exact Hl|]. split.
  - intros f w _. apply Ha.
  - intros row w _. apply Ha.
Qed.

Lemma others_update_where {R : Type} (key_of : R -> string) k (f : R -> R) l :
  (forall r, has_key key_of k r = true -> key_of (f r) = k) ->
  others key_of k (update_where key_of k f l) = others key_of k l.
Proof.
  intros Hf. unfold others, update_where.
  induction l as [|r l IH]; simpl; [reflexivity|].
  destruct (has_key key_of k r) eqn:E; simpl.
  - unfold has_key at 1. rewrite (Hf r E), String.eqb_refl. simpl. exact IH.
  - rewrite E. simpl. now rewrite IH.
Qed.

Lemma others_app_own {R : Type} (key_of : R -> string) k l row :
  key_of row = k -> others key_of k (l ++ [row]) = others key_of k l.
Proof.
  intros H. unfold others. rewrite filter_app. simpl.
  unfold has_key. rewrite H, String.eqb_refl. simpl. apply app_nil_r.
Qed.

Lemma others_blind (k : string) :
  analysis_blind (fun w => others a_callId k (analyses (tables w))) k.
Proof.
  split; [intros w r; reflexivity|]. split.
  - intros f w Hf. simpl. now apply others_update_where.
  - intros row w Hrow. simpl. now apply others_app_own.
Qed.

Section AnalysisFrame.

Context {X : Type} (proj : World -> X) (callId : string).
Hypothesis blind : analysis_blind proj callId.

Lemma keeps_update_analysis_blind env f :
  (forall r, has_key a_callId callId r = true -> a_callId (f r) = callId) ->
  keeps proj (update_analysis env callId f).
Proof.
  intros Hf. apply keeps_reject, keeps_modify_quiet. intros w.
  now apply blind.
Qed.

Lemma keeps_saveAnalysis_blind env a pn dir :
  keeps proj (saveAnalysisToDatabase env callId a pn dir).
Proof.
  unfold saveAnalysisToDatabase.
  apply keeps_bind; [apply keeps_getDb|]. intros _.
  apply keeps_bind; [apply keeps_complianceOf|]. intros c.
  apply keeps_bind; [apply keeps_select_analysis|]. intros [r|].
  - apply keeps_update_analysis_blind. reflexivity.
  - apply keeps_reject, keeps_modify_quiet. intros w. now apply blind.
Qed.

Lemma keeps_savePlaceholder_blind env pn isBroken :
  keeps proj (savePlaceholder env callId pn isBroken).
Proof.
  unfold savePlaceholder.
  apply keeps_bind; [apply keeps_saveAnalysis_blind|]. intros _.
  apply keeps_bind; [|intros; apply keeps_ret].
  apply keeps_update_analysis_blind. intros r Hr. simpl. now apply has_key_eq in Hr.
Qed.

Lemma keeps_scoreWithLLM_blind env call dir pn text :
  keeps proj (scoreWithLLM env callId call dir pn text).
Proof.
  intros w. rewrite scoreWithLLM_steps. cbv zeta.
  destruct (corrupted_or_empty text); [reflexivity|].
  match goal with |- context [invokeLLM env ?r] => set (request := r) end.
  assert (Hl : proj (log_llm w request) = proj w) by apply blind.
  destruct (invokeLLM env request) as [msg| |msg|v]; simpl; try exact Hl.
  destruct (get v "score") as [s|]; simpl; [|exact Hl].
  destruct (score_in_range s); simpl; [|exact Hl].
  pose proof (keeps_saveAnalysis_blind env v pn
                (opt_or dir (r_direction call)) (log_llm w request)) as K.
  destruct (saveAnalysisToDatabase _ _ _ _ _ _) as [[[]|msg] w2];
    simpl in *; congruence.
Qed.

End AnalysisFrame.

Lemma keeps_analyzeCall_try_blind {X : Type} (proj : World -> X) env options :
  analysis_blind proj (o_callId options) ->
  keeps proj (analyzeCall_try env options).
Proof.
  intros blind. unfold analyzeCall_try.
  apply keeps_bind; [apply keeps_getDb|]. intros _.
  apply keeps_bind; [apply keeps_select_call|]. intros [call|]; [|apply keeps_ret].
  apply keeps_bind.
  { unfold resolveTranscript.
    destruct (nonempty _); [apply keeps_ret|].
    apply keeps_bind; [apply keeps_select_transcript|].
    intros [t|]; apply keeps_ret. }
  intros [[text rec]|]; [|apply keeps_ret].
  destruct (contentCheck text rec) as [hasContent isBroken].
  destruct (negb hasContent || isBroken).
  - now apply keeps_savePlaceholder_blind.
  - now apply keeps_scoreWithLLM_blind.
Qed.

Lemma analyzeCall_keeps_blind {X : Type} (proj : World -> X) env options w :
  analysis_blind proj (o_callId options) ->
  proj (snd (analyzeCall env options w)) = proj w.
Proof.
  intros blind.
  pose proof (keeps_analyzeCall_try_blind proj env options blind w) as K.
  unfold analyzeCall. now destruct (analyzeCall_try env options w) as [[r|msg] w'].
Qed.

Lemma analyzeCall_keeps_free {X : Type} (proj : World -> X) env options w :
  analyses_free proj -> llm_free proj ->
  proj (snd (analyzeCall env options w)) = proj w.
Proof. intros Ha Hl. apply analyzeCall_keeps_blind. now apply blind_of_free. Qed.

(** X1. [analyzeCall] writes nothing but the Analysis rows of the call
    it was given: the calls, the transcripts, the webhook health records
    and the Analysis rows of every other call are as they were, and no
    transcript is requested from the provider. *)
Theorem analyzeCall_touches_only_its_own_analysis
        (env : Env) (options : AnalyzeCallOptions) (w : World) :
  let w' := snd (analyzeCall env options w) in
  calls (tables w') = calls (tables w)
  /\ transcripts (tables w') = transcripts (tables w)
  /\ webhookHealth (tables w') = webhookHealth (tables w)
  /\ others a_callId (o_callId options) (analyses (tables w'))
     = others a_callId (o_callId options) (analyses (tables w))
  /\ fetch_log w' = fetch_log w
  /\ db_available w' = db_available w.
Proof.
  cbv zeta.
  split; [apply (analyzeCall_keeps_free (fun w => calls (tables w))); auto with tables|].
  split; [apply (analyzeCall_keeps_free (fun w => transcripts (tables w)));
          auto with tables|].
  split; [apply (analyzeCall_keeps_free (fun w => webhookHealth (tables w)));
          auto with tables|].
  split; [apply (analyzeCall_keeps_blind
                   (fun w => others a_callId (o_callId options) (analyses (tables w))));
          apply others_blind|].
  split; [apply (analyzeCall_keeps_free fetch_log); auto with tables|].
  apply (analyzeCall_keeps_free db_available); auto with tables.
Qed.

(** ** One row per call id *)

Lemma keys_update_where {R : Type} (key_of : R -> string) k (f : R -> R) l :
  (forall r, has_key key_of k r = true -> key_of (f r) = k) ->
  map key_of (update_where key_of k f l) = map key_of l.
Proof.
  intros Hf. unfold update_where. rewrite map_map. apply map_ext_in.
  intros r _. destruct (has_key key_of k r) eqn:E; [|reflexivity].
  rewrite (Hf r E). symmetry. now apply has_key_eq.
Qed.

Lemma find_none_keys {R : Type} (key_of : R -> string) k l :
  find (has_key key_of k) l = None -> ~ In k (map key_of l).
Proof.
  intros Hfind Hin. apply in_map_iff in Hin. destruct Hin as (r & Hk & Hr).
  apply (find_none _ _ Hfind) in Hr. unfold has_key in Hr.
  rewrite Hk, String.eqb_refl in Hr. discriminate.
Qed.

Lemma grows_by_refl {A : Type} (k : A) l : grows_by k l l.
Proof. now left. Qed.

Lemma grows_by_NoDup {A : Type} (k : A) l l' :
  grows_by k l l' -> NoDup l -> NoDup l'.
Proof.
  intros [->|[-> Hnew]] Hl; [exact Hl|].
  apply NoDup_app; [exact Hl|repeat constructor; intros []|].
  intros x Hx [<-|[]]. contradiction.
Qed.

Lemma grows_by_incl {A : Type} (k : A) l l' x :
  grows_by k l l' -> In x l -> In x l'.
Proof. intros [->|[-> _]] Hx; [exact Hx|]. apply in_or_app. now left. Qed.

Lemma saveAnalysis_ids env callId a pn dir w :
  grows_by callId (analysis_ids w)
           (analysis_ids (snd (saveAnalysisToDatabase env callId a pn dir w))).
Proof.
  unfold saveAnalysisToDatabase, bind, getDb.
  destruct (db_available w); [|apply grows_by_refl].
  pose proof (complianceOf_pure env a dir w) as Hpure.
  destruct (complianceOf env a dir w) as [[c|msg] w1]; simpl in Hpure; subst w1;
    [|apply grows_by_refl].
  unfold select_analysis.
  destruct (find (has_key a_callId callId) (analyses (tables w))) as [r|] eqn:Hfind.
  - unfold update_analysis, reject.
    destruct (write_fault env callId); [apply grows_by_refl|].
    left. unfold analysis_ids. simpl. now apply keys_update_where.
  - unfold insert_analysis, reject. simpl.
    destruct (write_fault env callId); [apply grows_by_refl|].
    right. unfold analysis_ids. simpl. rewrite map_app. simpl.
    split; [reflexivity|]. now apply find_none_keys.
Qed.

Lemma update_analysis_ids env callId f w :
  (forall r, has_key a_callId callId r = true -> a_callId (f r) = callId) ->
  analysis_ids (snd (update_analysis env callId f w)) = analysis_ids w.
Proof.
  intros Hf. unfold update_analysis, reject.
  destruct (write_fault env callId); [reflexivity|].
  unfold analysis_ids. simpl. now apply keys_update_where.
Qed.

Lemma savePlaceholder_ids env callId pn isBroken w :
  grows_by callId (analysis_ids w)
           (analysis_ids (snd (savePlaceholder env callId pn isBroken w))).
Proof.
  unfold savePlaceholder, bind.
  pose proof (saveAnalysis_ids env callId (minimalAnalysis isBroken) pn None w) as H.
  destruct (saveAnalysisToDatabase env callId (minimalAnalysis isBroken) pn None w)
    as [[[]|msg] w1]; simpl in H; [|exact H].
  pose proof (update_analysis_ids env callId (noContentUpdate env pn isBroken) w1) as U.
  destruct (update_analysis env callId (noContentUpdate env pn isBroken) w1)
    as [[[]|msg] w2]; simpl in *; rewrite U; auto;
    intros r Hr; simpl; now apply has_key_eq in Hr.
Qed.

Lemma scoreWithLLM_ids env callId call dir pn text w :
  grows_by callId (analysis_ids w)
           (analysis_ids (snd (scoreWithLLM env callId call dir pn text w))).
Proof.
  rewrite scoreWithLLM_steps. cbv zeta.
  destruct (corrupted_or_empty text); [apply grows_by_refl|].
  match goal with |- context [invokeLLM env ?r] => set (request := r) end.
  destruct (invokeLLM env request) as [msg| |msg|v]; try apply grows_by_refl.
  destruct (get v "score") as [s|]; [|apply grows_by_refl].
  destruct (score_in_range s); [|apply grows_by_refl].
  pose proof (saveAnalysis_ids env callId v pn (opt_or dir (r_direction call))
                (log_llm w request)) as H.
  destruct (saveAnalysisToDatabase _ _ _ _ _ _) as [[[]|msg] w2]; exact H.
Qed.

Lemma analyzeCall_ids env options w :
  grows_by (o_callId options) (analysis_ids w)
           (analysis_ids (snd (analyzeCall env options w))).
Proof.
  unfold analyzeCall.
  destruct (analyzeCall_try env options w) as [out w'] eqn:Htry.
  assert (H : grows_by (o_callId options) (analysis_ids w) (analysis_ids w')).
  { apply analyzeCall_try_cases in Htry.
    destruct Htry as [[-> _]|[[b Hb]|[call [text Hs]]]].
    - apply grows_by_refl.
    - pose proof (savePlaceholder_ids env (o_callId options) (o_phoneNumberId options)
                    b w) as H. now rewrite Hb in H.
    - pose proof (scoreWithLLM_ids env (o_callId options) call (o_callDirection options)
                    (o_phoneNumberId options) text w) as H. now rewrite Hs in H. }
  now destruct out.
Qed.

(** X7. An analysis adds at most one Analysis row, and only for a call
    that had none: the call ids of the Analysis table are as before, or
    as before followed by the id of the analysed call, which was not
    among them.  Analysing a call again updates its row in place. *)
Theorem analyzeCall_adds_at_most_one_row
        (env : Env) (options : AnalyzeCallOptions) (w : World) :
  let w' := snd (analyzeCall env options w) in
  analysis_ids w' = analysis_ids w
  \/ (analysis_ids w' = analysis_ids w ++ [o_callId options]
      /\ ~ In (o_callId options) (analysis_ids w)).
Proof. exact (analyzeCall_ids env options w). Qed.

Lemma upsertCall_ids env call w :
  grows_by (c_id call) (call_ids w) (call_ids (snd (Sync.upsertCall env call w))).
Proof.
  unfold Sync.upsertCall, bind, getDb.
  destruct (db_available w); [|apply grows_by_refl].
  unfold select_call.
  destruct (find (has_key r_callId (c_id call)) (calls (tables w))) as [r|] eqn:Hfind.
  - unfold update_call, reject.
    destruct (write_fault env (c_id call)); [apply grows_by_refl|].
    left. unfold call_ids. simpl. now apply keys_update_where.
  - unfold insert_call, reject. simpl.
    destruct (write_fault env (c_id call)); [apply grows_by_refl|].
    right. unfold call_ids. simpl. rewrite map_app. simpl.
    split; [reflexivity|]. now apply find_none_keys.
Qed.

Lemma upsertTranscript_ids env callId row w :
  t_callId row = callId ->
  grows_by callId (transcript_ids w)
           (transcript_ids (snd (Sync.upsertTranscript env callId row w))).
Proof.
  intros Hkey. unfold Sync.upsertTranscript, bind, select_transcript.
  destruct (find (has_key t_callId callId) (transcripts (tables w))) as [r|] eqn:Hfind.
  - unfold update_transcript, reject.
    destruct (write_fault env callId); [apply grows_by_refl|].
    left. unfold transcript_ids. simpl. now apply keys_update_where.
  - unfold insert_transcript, reject. rewrite Hkey.
    destruct (write_fault env callId); [apply grows_by_refl|].
    right. unfold transcript_ids. simpl. rewrite map_app. simpl. rewrite Hkey.
    split; [reflexivity|]. now apply find_none_keys.
Qed.

Lemma fetchTranscriptForCall_ids env callId w :
  echoes env ->
  grows_by callId (transcript_ids w)
           (transcript_ids (snd (Sync.fetchTranscriptForCall env callId w))).
Proof.
  intros Hecho. unfold Sync.fetchTranscriptForCall, bind at 1, getDb.
  destruct (db_available w); [|apply grows_by_refl].
  unfold try_catch, bind, Sync.requestTranscript.
  destruct (fetchTranscript env callId) as [[t|]|msg] eqn:Hfetch; simpl.
  - destruct (tr_dialogue t) as [[|d l]|]; simpl; try apply grows_by_refl.
    pose proof (upsertTranscript_ids env callId (Sync.transcriptData t (d :: l))
                  (log_fetch w callId) (Hecho _ _ Hfetch)) as H.
    destruct (Sync.upsertTranscript env callId _ _) as [[[]|msg] w1];
      simpl in *; [exact H|].
    destruct (includes msg "404"); exact H.
  - apply grows_by_refl.
  - destruct (includes msg "404"); apply grows_by_refl.
Qed.

(** *** The loops of the poll pipeline *)

Lemma saveCalls_keeps {X : Type} (proj : World -> X) env completedCalls :
  calls_free proj ->
  forall result w, proj (snd (Sync.saveCalls env completedCalls result w)) = proj w.
Proof.
  intros H. induction completedCalls as [|call rest IH]; intros result w; simpl;
    [reflexivity|].
  pose proof (keeps_upsertCall_free proj env call H w) as K.
  destruct (Sync.upsertCall env call w) as [[b|msg] w1]; simpl in K;
    rewrite IH; exact K.
Qed.

Lemma saveTranscripts_keeps {X : Type} (proj : World -> X) env completedCalls :
  transcripts_free proj -> fetch_free proj ->
  forall result w, proj (snd (Sync.saveTranscripts env completedCalls result w)) = proj w.
Proof.
  intros Ht Hf. induction completedCalls as [|call rest IH]; intros result w; simpl;
    [reflexivity|].
  pose proof (keeps_fetchTranscriptForCall_free proj env (c_id call) Ht Hf w) as K.
  destruct (Sync.fetchTranscriptForCall env (c_id call) w) as [[[|]|msg] w1];
    simpl in K; rewrite IH; exact K.
Qed.

Lemma analyzeCalls_keeps {X : Type} (proj : World -> X) env options callsToAnalyze :
  analyses_free proj -> llm_free proj ->
  forall result w,
    proj (snd (Sync.analyzeCalls env options callsToAnalyze result w)) = proj w.
Proof.
  intros Ha Hl. induction callsToAnalyze as [|call rest IH]; intros result w; simpl;
    [reflexivity|].
  pose proof (analyzeCall_keeps_free proj env (Sync.analysisOptions options call) w
                Ha Hl) as K.
  destruct (analyzeCall env (Sync.analysisOptions options call) w) as [r w1].
  simpl in K. destruct (success r); rewrite IH; exact K.
Qed.

Lemma saveCalls_unique env completedCalls :
  forall result w,
    NoDup (call_ids w) ->
    NoDup (call_ids (snd (Sync.saveCalls env completedCalls result w))).
Proof.
  induction completedCalls as [|call rest IH]; intros result w Hw; simpl; [exact Hw|].
  pose proof (upsertCall_ids env call w) as G.
  destruct (Sync.upsertCall env call w) as [[b|msg] w1]; simpl in G;
    apply IH; exact (grows_by_NoDup _ _ _ G Hw).
Qed.

Lemma saveTranscripts_unique env completedCalls :
  echoes env ->
  forall result w,
    NoDup (transcript_ids w) ->
    NoDup (transcript_ids (snd (Sync.saveTranscripts env completedCalls result w))).
Proof.
  intros Hecho.
  induction completedCalls as [|call rest IH]; intros result w Hw; simpl; [exact Hw|].
  pose proof (fetchTranscriptForCall_ids env (c_id call) w Hecho) as G.
  destruct (Sync.fetchTranscriptForCall env (c_id call) w) as [[[|]|msg] w1];
    simpl in G; apply IH; exact (grows_by_NoDup _ _ _ G Hw).
Qed.

Lemma analyzeCalls_unique env options callsToAnalyze :
  forall result w,
    NoDup (analysis_ids w) ->
    NoDup (analysis_ids (snd (Sync.analyzeCalls env options callsToAnalyze result w))).
Proof.
  induction callsToAnalyze as [|call rest IH]; intros result w Hw; simpl; [exact Hw|].
  pose proof (analyzeCall_ids env (Sync.analysisOptions options call) w) as G.
  destruct (analyzeCall env (Sync.analysisOptions options call) w) as [r w1].
  simpl in G. destruct (success r); apply IH; exact (grows_by_NoDup _ _ _ G Hw).
Qed.

(** X8. A poll run keeps the call ids unique: if no table holds two rows
    for one call id before the run, none does after it, provided the
    provider answers each transcript request with the transcript of the
    call asked for. *)
Theorem syncCalls_keeps_call_ids_unique
        (fuel : nat) (env : Env) (options : Sync.SyncOptions) (w w' : World)
        (result : Sync.SyncResult) :
  echoes env ->
  ids_unique w ->
  Sync.syncCalls fuel env options w = Some (result, w') ->
  ids_unique w'.
Proof.
  intros Hecho (Hc & Ht & Ha). unfold Sync.syncCalls.
  destruct (db_available w); [|intros [= _ <-]; repeat split; assumption].
  destruct (Sync.fetchAllPages fuel env options None []) as [[allCalls fetchError]|];
    [|discriminate].
  intros [= Hrun]. unfold Sync.processCalls in Hrun.
  set (r0 := Sync.afterPaging options allCalls fetchError) in Hrun.
  set (done := Sync.completed allCalls) in Hrun.
  pose proof (saveCalls_unique env done r0 w Hc) as C1.
  pose proof (saveCalls_keeps transcript_ids env done ltac:(auto with tables) r0 w) as T1.
  pose proof (saveCalls_keeps analysis_ids env done ltac:(auto with tables) r0 w) as A1.
  destruct (Sync.saveCalls env done r0 w) as [r1 w1]. simpl in C1, T1, A1.
  rewrite <- T1 in Ht. rewrite <- A1 in Ha.
  pose proof (saveTranscripts_unique env done Hecho r1 w1 Ht) as T2.
  pose proof (saveTranscripts_keeps call_ids env done ltac:(auto with tables)
                ltac:(auto with tables) r1 w1) as C2.
  pose proof (saveTranscripts_keeps analysis_ids env done ltac:(auto with tables)
                ltac:(auto with tables) r1 w1) as A2.
  destruct (Sync.saveTranscripts env done r1 w1) as [r2 w2]. simpl in C2, T2, A2.
  rewrite <- C2 in C1. rewrite <- A2 in Ha.
  destruct (Sync.shouldAutoAnalyze options).
  - set (todo := Sync.filterCallsForAnalysis env done (Sync.s_phoneNumberId options))
      in Hrun.
    pose proof (analyzeCalls_unique env options todo r2 w2 Ha) as A3.
    pose proof (analyzeCalls_keeps call_ids env options todo ltac:(auto with tables)
                  ltac:(auto with tables) r2 w2) as C3.
    pose proof (analyzeCalls_keeps transcript_ids env options todo
                  ltac:(auto with tables) ltac:(auto with tables) r2 w2) as T3.
    destruct (Sync.analyzeCalls env options todo r2 w2) as [r3 w3].
    injection Hrun as _ <-. simpl in *.
    repeat split; congruence.
  - injection Hrun as _ <-. repeat split; assumption.
Qed.

(** *** The webhook receiver *)

Section Preservation.

Context (I : World -> Prop).

Lemma preserves_ret {A : Type} (a : A) : preserves I (ret a).
Proof. intros w H. exact H. Qed.

Lemma preserves_throw {A : Type} (msg : string) : preserves I (@throw A msg).
Proof. intros w H. exact H. Qed.

Lemma preserves_bind {A B : Type} (m : M A) (k : A -> M B) :
  preserves I m -> (forall a, preserves I (k a)) -> preserves I (bind m k).
Proof.
  intros Hm Hk w H. unfold bind. specialize (Hm w H).
  destruct (m w) as [[a|msg] w1]; simpl in *; [now apply Hk|exact Hm].
Qed.

Lemma preserves_try_catch {A : Type} (m : M A) (h : string -> M A) :
  preserves I m -> (forall msg, preserves I (h msg)) -> preserves I (try_catch m h).
Proof.
  intros Hm Hh w H. unfold try_catch. specialize (Hm w H).
  destruct (m w) as [[a|msg] w1]; simpl in *; [exact Hm|now apply Hh].
Qed.

End Preservation.

Lemma keeps_ids_preserves {A : Type} (m : M A) :
  keeps call_ids m -> keeps transcript_ids m -> keeps analysis_ids m ->
  preserves ids_unique m.
Proof.
  intros Kc Kt Ka w (Hc & Ht & Ha). unfold ids_unique.
  now rewrite Kc, Kt, Ka.
Qed.

Lemma grows_ids_preserves {A : Type} (m : M A) :
  (forall w, exists k, grows_by k (call_ids w) (call_ids (snd (m w)))) ->
  (forall w, exists k, grows_by k (transcript_ids w) (transcript_ids (snd (m w)))) ->
  (forall w, exists k, grows_by k (analysis_ids w) (analysis_ids (snd (m w)))) ->
  preserves ids_unique m.
Proof.
  intros Gc Gt Ga w (Hc & Ht & Ha).
  destruct (Gc w) as [kc Gc'], (Gt w) as [kt Gt'], (Ga w) as [ka Ga'].
  repeat split; eapply grows_by_NoDup; eassumption.
Qed.

Lemma keeps_grows {X : Type} (proj : World -> list X) {A : Type} (m : M A) (k : X) :
  keeps proj m -> forall w, exists k', grows_by k' (proj w) (proj (snd (m w))).
Proof. intros K w. exists k. rewrite K. apply grows_by_refl. Qed.

Lemma preserves_getDb : preserves ids_unique getDb.
Proof. apply keeps_ids_preserves; apply keeps_getDb. Qed.

Lemma preserves_upsertTranscript env callId row :
  t_callId row = callId ->
  preserves ids_unique (Sync.upsertTranscript env callId row).
Proof.
  intros Hkey. apply grows_ids_preserves.
  - apply (keeps_grows call_ids _ callId).
    apply keeps_upsertTranscript_free. auto with tables.
  - intros w. exists callId. now apply upsertTranscript_ids.
  - apply (keeps_grows analysis_ids _ callId).
    apply keeps_upsertTranscript_free. auto with tables.
Qed.

Lemma preserves_fetchTranscriptForCall env callId :
  echoes env -> preserves ids_unique (Sync.fetchTranscriptForCall env callId).
Proof.
  intros Hecho. apply grows_ids_preserves.
  - apply (keeps_grows call_ids _ callId).
    apply keeps_fetchTranscriptForCall_free; auto with tables.
  - intros w. exists callId. now apply fetchTranscriptForCall_ids.
  - apply (keeps_grows analysis_ids _ callId).
    apply keeps_fetchTranscriptForCall_free; auto with tables.
Qed.

Lemma preserves_dispatch env callId pn :
  preserves ids_unique (Webhook.dispatch env callId pn).
Proof.
  set (options := {| o_callId := callId; o_transcriptText := None;
                     o_callDirection := None; o_phoneNumberId := pn |}).
  intros w (Hc & Ht & Ha). unfold Webhook.dispatch. fold options.
  pose proof (analyzeCall_keeps_free call_ids env options w
                ltac:(auto with tables) ltac:(auto with tables)) as Kc.
  pose proof (analyzeCall_keeps_free transcript_ids env options w
                ltac:(auto with tables) ltac:(auto with tables)) as Kt.
  pose proof (analyzeCall_ids env options w) as Ga.
  destruct (analyzeCall env options w) as [r w']. simpl in *.
  repeat split; try congruence. exact (grows_by_NoDup _ _ _ Ga Ha).
Qed.

Lemma preserves_saveCall env eventType x r :
  preserves ids_unique (Webhook.saveCall env eventType x r).
Proof.
  unfold Webhook.saveCall.
  apply preserves_try_catch; [|intros; apply preserves_ret].
  apply preserves_bind; [apply preserves_getDb|]. intros _.
  unfold Webhook.keyed. destruct (Webhook.x_callId x) as [callId|];
    [|apply preserves_throw].
  apply grows_ids_preserves.
  - intros w. exists callId. unfold bind, select_call.
    destruct (find (has_key r_callId callId) (calls (tables w))) as [row|] eqn:Hfind.
    + unfold update_call, reject.
      destruct (write_fault env callId); [apply grows_by_refl|].
      left. unfold call_ids. simpl. apply keys_update_where. intros r0 Hr0. simpl.
      now apply has_key_eq.
    + unfold insert_call, reject. simpl.
      destruct (write_fault env callId); [apply grows_by_refl|].
      right. unfold call_ids. simpl. rewrite map_app. simpl.
      split; [reflexivity|]. now apply find_none_keys.
  - apply (keeps_grows transcript_ids _ callId). tframe.
  - apply (keeps_grows analysis_ids _ callId). tframe.
Qed.

Lemma preserves_saveTranscript env x r :
  preserves ids_unique (Webhook.saveTranscript env x r).
Proof.
  unfold Webhook.saveTranscript.
  apply preserves_bind; [apply preserves_getDb|]. intros _.
  destruct (filter Webhook.validItem (Webhook.x_dialogue x)) as [|d l];
    [apply preserves_throw|].
  unfold Webhook.keyed. destruct (Webhook.x_callId x) as [callId|];
    [|apply preserves_throw].
  apply preserves_bind; [now apply preserves_upsertTranscript|]. intros _.
  destruct (Webhook.shouldAnalyze r); [|apply preserves_ret].
  apply preserves_bind; [apply preserves_dispatch|]. intros _. apply preserves_ret.
Qed.

Lemma preserves_delayedFetch env x :
  echoes env -> preserves ids_unique (Webhook.delayedFetch env x).
Proof.
  intros Hecho. unfold Webhook.delayedFetch.
  destruct (Webhook.x_callId x) as [callId|].
  - apply preserves_bind; [now apply preserves_fetchTranscriptForCall|].
    intros [|]; [|apply preserves_ret].
    apply preserves_bind; [apply preserves_dispatch|]. intros _. apply preserves_ret.
  - apply keeps_ids_preserves;
      (apply keeps_bind; [apply keeps_getDb|]; intros _;
       apply keeps_try_catch;
       [ apply keeps_bind;
         [ apply keeps_requestTranscript; auto with tables
         | intros [t|]; [|apply keeps_ret];
           destruct (tr_dialogue t) as [[|d l]|]; try apply keeps_ret;
           apply keeps_throw ]
       | intros msg; destruct (includes msg "404");
         [apply keeps_ret|apply keeps_throw] ]).
Qed.

Lemma preserves_trackHealth env eventType callData :
  preserves ids_unique (Webhook.trackHealth env eventType callData).
Proof.
  intros w H. unfold Webhook.trackHealth, try_catch.
  destruct (db_available w); [|exact H].
  unfold insert_health. destruct (health_fault env _); [exact H|].
  unfold modify. simpl. exact H.
Qed.

Lemma preserves_respond env body : preserves ids_unique (Webhook.respond env body).
Proof.
  unfold Webhook.respond. destruct body as [body|]; [|apply preserves_throw].
  apply preserves_bind; [apply preserves_trackHealth|]. intros _.
  destruct (negb _ && negb _); [apply preserves_ret|].
  destruct (Webhook.callDataOf (Webhook.b_data body)) as [callData|];
    [|apply preserves_throw].
  apply preserves_bind; [apply preserves_saveCall|]. intros _. apply preserves_ret.
Qed.

Lemma afterResponse_unique env isCallCompleted x r w :
  echoes env -> ids_unique w ->
  ids_unique (Webhook.afterResponse env isCallCompleted x r w).
Proof.
  intros Hecho H. unfold Webhook.afterResponse.
  destruct (Nat.ltb 0 (List.length (Webhook.x_dialogue x))).
  - apply (preserves_try_catch ids_unique); auto.
    + apply preserves_saveTranscript.
    + intros; apply preserves_ret.
  - destruct (Webhook.shouldAnalyze r && isCallCompleted); [|exact H].
    apply (preserves_try_catch ids_unique); auto.
    + now apply preserves_delayedFetch.
    + intros; apply preserves_ret.
Qed.

(** X9. The webhook receiver keeps the call ids unique: whatever the
    event, if no table holds two rows for one call id before it is
    handled, none does afterwards, provided the provider answers a
    transcript request with the transcript of the call asked for. *)
Theorem webhook_keeps_call_ids_unique
        (env : Env) (body : option Webhook.Body) (w : World) :
  echoes env ->
  ids_unique w ->
  ids_unique (snd (Webhook.handler env body w)).
Proof.
  intros Hecho H. unfold Webhook.handler.
  pose proof (preserves_respond env body w H) as R.
  destruct (Webhook.respond env body w) as [[[response [p|]]|msg] w1]; simpl in *;
    auto.
  now apply afterResponse_unique.
Qed.

(** ** The requests sent to the LLM *)

Lemma scoreWithLLM_log env callId call dir pn text w :
  llm_log (snd (scoreWithLLM env callId call dir pn text w))
  = if corrupted_or_empty text then llm_log w
    else llm_log w ++ [llmRequest env dir call text].
Proof.
  rewrite scoreWithLLM_steps. cbv zeta. fold (llmRequest env dir call text).
  destruct (corrupted_or_empty text); [reflexivity|].
  set (request := llmRequest env dir call text).
  destruct (invokeLLM env request) as [msg| |msg|v]; try reflexivity.
  destruct (get v "score") as [s|]; [|reflexivity].
  destruct (score_in_range s); [|reflexivity].
  pose proof (keeps_saveAnalysisToDatabase llm_log env callId v pn
                (opt_or dir (r_direction call)) llm_log_table_free
                (log_llm w request)) as K.
  destruct (saveAnalysisToDatabase _ _ _ _ _ _) as [[[]|msg] w2]; exact K.
Qed.

(** The ways through the [try] block of [analyzeCall]. *)
Lemma analyzeCall_try_paths env options w :
  let callId := o_callId options in
  analyzeCall_try env options w = (Throw "Database not available", w)
  \/ (db_available w = true
      /\ find (has_key r_callId callId) (calls (tables w)) = None
      /\ analyzeCall_try env options w = (Ret (failure callId "Call not found"), w))
  \/ (db_available w = true
      /\ exists call,
           find (has_key r_callId callId) (calls (tables w)) = Some call
           /\ ((resolveTranscript callId (o_transcriptText options) w = (Ret None, w)
                /\ analyzeCall_try env options w
                   = (Ret (failure callId "Transcript not found for this call"), w))
               \/ exists text rec,
                    resolveTranscript callId (o_transcriptText options) w
                    = (Ret (Some (text, rec)), w)
                    /\ ((classify text rec <> Valid
                         /\ exists isBroken,
                              analyzeCall_try env options w
                              = savePlaceholder env callId (o_phoneNumberId options)
                                                isBroken w)
                        \/ (classify text rec = Valid
                            /\ analyzeCall_try env options w
                               = scoreWithLLM env callId call (o_callDirection options)
                                              (o_phoneNumberId options) text w)))).
Proof.
  cbv zeta. unfold analyzeCall_try, bind, getDb.
  destruct (db_available w) eqn:Hdb; [|now left].
  right. unfold select_call.
  destruct (find (has_key r_callId (o_callId options)) (calls (tables w)))
    as [call|] eqn:Hcall; [|left; repeat split].
  right. split; [reflexivity|]. exists call. split; [reflexivity|].
  assert (Hres : exists out,
             resolveTranscript (o_callId options) (o_transcriptText options) w
             = (Ret out, w)).
  { unfold resolveTranscript. destruct (nonempty _); [eexists; reflexivity|].
    unfold bind, select_transcript.
    destruct (find (has_key t_callId _) _); eexists; reflexivity. }
  destruct Hres as [[[text rec]|] Hres]; rewrite Hres; [|left; repeat split].
  right. exists text, rec. split; [reflexivity|].
  unfold classify.
  destruct (contentCheck text rec) as [hasContent isBroken].
  destruct (negb hasContent || isBroken).
  - left. split; [destruct isBroken; discriminate|]. now exists isBroken.
  - right. split; reflexivity.
Qed.

Lemma savePlaceholder_log env callId pn isBroken w :
  llm_log (snd (savePlaceholder env callId pn isBroken w)) = llm_log w.
Proof. apply keeps_savePlaceholder. exact llm_log_table_free. Qed.

(** Where the text the dispatcher works with comes from. *)
Lemma resolveTranscript_source callId provided w text rec :
  resolveTranscript callId provided w = (Ret (Some (text, rec)), w) ->
  (provided = Some text /\ nonempty text = true /\ rec = None)
  \/ (nonempty (str_or provided "") = false
      /\ exists t,
           find (has_key t_callId callId) (transcripts (tables w)) = Some t
           /\ text = t_fullText t /\ rec = Some t).
Proof.
  unfold resolveTranscript.
  destruct (nonempty (str_or provided "")) eqn:N.
  - unfold ret. intros [= <- <-]. left.
    destruct provided as [s|]; simpl in *; [|discriminate].
    destruct (nonempty s) eqn:Ns; [auto|discriminate].
  - unfold bind, select_transcript.
    destruct (find (has_key t_callId callId) (transcripts (tables w))) as [t|] eqn:F;
      unfold ret; [|discriminate].
    intros [= <- <-]. right. split; [reflexivity|]. exists t. auto.
Qed.

(** X2. [analyzeCall] sends at most one request to the LLM, and only
    with the database available, for a stored call, and on the text the
    dispatcher resolved for it: the text given by the caller when there is
    one, the text of the stored transcript of the call otherwise.  That
    text is classified as valid and passes the guard of the prompt
    builders; the request carries the schema of the call's direction and
    the prompt built from that text, the direction given by the caller
    taking precedence over the stored one. *)
Theorem analyzeCall_sends_at_most_one_request
        (env : Env) (options : AnalyzeCallOptions) (w : World) :
  let w' := snd (analyzeCall env options w) in
  llm_log w' = llm_log w
  \/ exists call text,
       db_available w = true
       /\ find (has_key r_callId (o_callId options)) (calls (tables w)) = Some call
       /\ ((o_transcriptText options = Some text
            /\ nonempty text = true
            /\ classify text None = Valid)
           \/ (nonempty (str_or (o_transcriptText options) "") = false
               /\ exists t,
                    find (has_key t_callId (o_callId options)) (transcripts (tables w))
                    = Some t
                    /\ text = t_fullText t
                    /\ classify text (Some t) = Valid))
       /\ corrupted_or_empty text = false
       /\ llm_log w' = llm_log w ++ [llmRequest env (o_callDirection options) call text].
Proof.
  cbv zeta.
  assert (E : snd (analyzeCall env options w) = snd (analyzeCall_try env options w)).
  { unfold analyzeCall. now destruct (analyzeCall_try env options w) as [[r|msg] w']. }
  rewrite E.
  destruct (analyzeCall_try_paths env options w)
    as [H|[(_ & _ & H)|(Hdb & call & Hcall
                        & [[_ H]|(text & rec & Hres & [[_ [b H]]|[Hvalid H]])])]];
    rewrite H; try (left; reflexivity).
  - left. apply savePlaceholder_log.
  - rewrite scoreWithLLM_log.
    destruct (corrupted_or_empty text) eqn:G; [now left|].
    right. exists call, text.
    split; [exact Hdb|]. split; [exact Hcall|].
    split; [|split; [exact G|reflexivity]].
    destruct (resolveTranscript_source _ _ _ _ _ Hres)
      as [(Hgiven & Hne & ->)|(Hnone & t & Hfind & Htext & ->)].
    + left. auto.
    + right. split; [exact Hnone|]. exists t. auto.
Qed.

Lemma textCheck_accepts (text : string) :
  textCheck text = (true, false) ->
  nonempty text = true /\ corrupted_or_empty text = false.
Proof.
  unfold textCheck, corrupted_or_empty.
  destruct (nonempty text); simpl; [|discriminate].
  destruct (Nat.ltb 0 (String.length (trim text))) eqn:L; [|discriminate].
  destruct (includes text "undefined: undefined"); [discriminate|].
  intros _. split; [reflexivity|].
  apply Nat.ltb_lt in L. destruct (String.length (trim text)); [lia|reflexivity].
Qed.

(** X3. A transcript text handed to [analyzeCall] that the content check
    accepts on its own is not stopped by the guard of the prompt builders:
    with the database available and the call stored, exactly one request
    goes to the LLM, with the prompt built from that text. *)
Theorem accepted_text_is_sent_once
        (env : Env) (options : AnalyzeCallOptions) (w : World)
        (call : CallRow) (text : string) :
  db_available w = true ->
  find (has_key r_callId (o_callId options)) (calls (tables w)) = Some call ->
  o_transcriptText options = Some text ->
  textCheck text = (true, false) ->
  llm_log (snd (analyzeCall env options w))
  = llm_log w ++ [llmRequest env (o_callDirection options) call text].
Proof.
  intros Hdb Hcall Htext Hcheck.
  destruct (textCheck_accepts text Hcheck) as [Hne Hguard].
  assert (E : snd (analyzeCall env options w) = snd (analyzeCall_try env options w)).
  { unfold analyzeCall. now destruct (analyzeCall_try env options w) as [[r|msg] w']. }
  rewrite E. unfold analyzeCall_try, bind. rewrite (getDb_available w Hdb).
  unfold select_call. rewrite Hcall.
  unfold resolveTranscript. rewrite Htext. unfold str_or. rewrite !Hne. unfold ret.
  unfold contentCheck. rewrite Hcheck. simpl.
  rewrite scoreWithLLM_log, Hguard. reflexivity.
Qed.

Lemma existsb_filter {A : Type} (f : A -> bool) (l : list A) :
  existsb f l = true -> Nat.ltb 0 (List.length (filter f l)) = true.
Proof.
  induction l as [|x l IH]; simpl; [discriminate|].
  destruct (f x); simpl; [reflexivity|exact IH].
Qed.

(** X4. A stored transcript whose text is blank while its segments hold
    a valid one passes the content check and is then stopped by the guard
    of the prompt builder: [analyzeCall] fails with "Cannot analyze
    corrupted or empty transcript", sends nothing to the LLM and stores
    nothing. *)
Theorem blank_text_with_valid_segments_is_rejected
        (env : Env) (options : AnalyzeCallOptions) (w : World)
        (call : CallRow) (t : TranscriptRow) (segs : list Segment) :
  db_available w = true ->
  find (has_key r_callId (o_callId options)) (calls (tables w)) = Some call ->
  nonempty (str_or (o_transcriptText options) "") = false ->
  find (has_key t_callId (o_callId options)) (transcripts (tables w)) = Some t ->
  String.length (trim (t_fullText t)) = 0 ->
  t_jsonPayload t = Some {| segments := Some segs |} ->
  existsb validSegment segs = true ->
  classify (t_fullText t) (Some t) = Valid
  /\ analyzeCall env options w
     = (failure (o_callId options) "Cannot analyze corrupted or empty transcript", w).
Proof.
  intros Hdb Hcall Hnone Htr Hblank Hpayload Hvalid.
  assert (Hcheck : contentCheck (t_fullText t) (Some t) = (true, false)).
  { unfold contentCheck, textCheck, segmentsCheck. rewrite Hblank. simpl.
    rewrite andb_false_r. simpl. rewrite Hpayload. simpl.
    now rewrite (existsb_filter _ _ Hvalid). }
  split; [unfold classify; now rewrite Hcheck|].
  unfold analyzeCall, analyzeCall_try, bind. rewrite (getDb_available w Hdb).
  unfold select_call. rewrite Hcall.
  unfold resolveTranscript. rewrite Hnone.
  unfold bind, select_transcript. rewrite Htr. unfold ret.
  rewrite Hcheck. simpl.
  rewrite scoreWithLLM_steps. cbv zeta.
  unfold corrupted_or_empty. rewrite Hblank. simpl. rewrite orb_true_r. reflexivity.
Qed.

(** ** Reading back what was stored *)

Lemma find_update_where {R : Type} (key_of : R -> string) k (row r : R) l :
  key_of row = k ->
  find (has_key key_of k) l = Some r ->
  find (has_key key_of k) (update_where key_of k (fun _ => row) l) = Some row.
Proof.
  intros Hrow. unfold update_where.
  induction l as [|x l IH]; simpl; [discriminate|].
  destruct (has_key key_of k x) eqn:E.
  - intros _. unfold has_key. now rewrite Hrow, String.eqb_refl.
  - rewrite E. exact IH.
Qed.

Lemma find_app_new {R : Type} (key_of : R -> string) k (row : R) l :
  key_of row = k ->
  find (has_key key_of k) l = None ->
  find (has_key key_of k) (l ++ [row]) = Some row.
Proof.
  intros Hrow. induction l as [|x l IH]; simpl.
  - intros _. unfold has_key. now rewrite Hrow, String.eqb_refl.
  - destruct (has_key key_of k x); [discriminate|exact IH].
Qed.

Lemma find_in_keys {R : Type} (key_of : R -> string) k l :
  find (has_key key_of k) l <> None <-> In k (map key_of l).
Proof.
  split.
  - destruct (find (has_key key_of k) l) as [r|] eqn:E; [|congruence].
    intros _. apply find_some in E. destruct E as [Hin Hk].
    apply has_key_eq in Hk. apply in_map_iff. eauto.
  - intros Hin E. exact (find_none_keys _ _ _ E Hin).
Qed.

(** X6. After an [upsertCall] that returns, [getCallById] returns for
    the id of the call the record built from it as the table keeps it:
    with its duration rounded to a whole number, and so the record itself
    when the duration is whole.  The flag returned by [upsertCall] tells
    whether the call was stored before. *)
Theorem upserted_call_can_be_read_back
        (env : Env) (call : OpenPhoneCall) (w w' : World) (updated : bool) :
  Sync.upsertCall env call w = (Ret updated, w') ->
  Queries.getCallById (c_id call) w'
  = (Ret (Some (call_columns (Sync.callData call))), w')
  /\ r_duration (call_columns (Sync.callData call))
     = int_column (r_duration (Sync.callData call))
  /\ (is_integer (r_duration (Sync.callData call)) = true ->
      call_columns (Sync.callData call) = Sync.callData call)
  /\ (updated = true <-> In (c_id call) (call_ids w)).
Proof.
  intros Hrun.
  split; [|split; [reflexivity|split; [apply call_columns_whole|]]]; revert Hrun.
  unfold Queries.getCallById, Sync.upsertCall, bind, getDb.
  destruct (db_available w) eqn:Hdb; [|discriminate].
  unfold select_call.
  destruct (find (has_key r_callId (c_id call)) (calls (tables w))) as [r|] eqn:Hfind.
  - unfold update_call, reject.
    destruct (write_fault env (c_id call)); [discriminate|].
    unfold modify, ret. intros [= <- <-].
    cbn [db_available with_tables tables with_calls calls]. rewrite Hdb.
    do 2 f_equal.
    exact (find_update_where r_callId (c_id call) (call_columns (Sync.callData call))
             r _ eq_refl Hfind).
  - unfold insert_call, reject. simpl.
    destruct (write_fault env (c_id call)); [discriminate|].
    unfold modify, ret. intros [= <- <-].
    cbn [db_available with_tables tables with_calls calls]. rewrite Hdb.
    do 2 f_equal.
    exact (find_app_new r_callId (c_id call) (call_columns (Sync.callData call)) _
             eq_refl Hfind).
  - unfold Sync.upsertCall, bind, getDb.
    destruct (db_available w) eqn:Hdb; [|discriminate].
    unfold select_call.
    destruct (find (has_key r_callId (c_id call)) (calls (tables w))) as [r|] eqn:Hfind.
    + unfold update_call, reject.
      destruct (write_fault env (c_id call)); [discriminate|].
      unfold modify, ret. intros [= <- _].
      split; [intros _|reflexivity]. apply find_in_keys. congruence.
    + unfold insert_call, reject. simpl.
      destruct (write_fault env (c_id call)); [discriminate|].
      unfold modify, ret. intros [= <- _].
      split; [discriminate|]. intros Hin. apply find_in_keys in Hin. congruence.
Qed.

Lemma savePlaceholder_stores env callId pn isBroken w r w' :
  savePlaceholder env callId pn isBroken w = (Ret r, w') ->
  r = {| success := true; res_callId := callId;
         analysis := Some (noContentResult env pn isBroken); error := None |}
  /\ rows_of a_callId callId (analyses (tables w')) <> []
  /\ Forall (fun row => a_score row = num 0 /\ a_complianceCheck row = Review)
            (rows_of a_callId callId (analyses (tables w'))).
Proof.
  intros Hrun.
  assert (Hdb : db_available w = true).
  { revert Hrun. unfold savePlaceholder, saveAnalysisToDatabase, bind at 1 2, getDb.
    destruct (db_available w); [reflexivity|discriminate]. }
  assert (Hfault : write_fault env callId = None).
  { revert Hrun. unfold savePlaceholder, bind.
    destruct (saveAnalysisToDatabase _ _ _ _ _ _) as [[[]|msg] w1]; [|discriminate].
    unfold update_analysis, reject.
    destruct (write_fault env callId); [discriminate|reflexivity]. }
  destruct (savePlaceholder_runs env callId pn isBroken w Hdb Hfault)
    as (rows' & Hok & Hne & Hall).
  rewrite Hok in Hrun. injection Hrun as <- <-. simpl. auto.
Qed.

Lemma scoreWithLLM_stores env callId call dir pn text w r w' :
  scoreWithLLM env callId call dir pn text w = (Ret r, w') ->
  exists v q,
    r = {| success := true; res_callId := callId; analysis := Some v; error := None |}
    /\ get v "score" = Some (JNum q)
    /\ rows_of a_callId callId (analyses (tables w')) <> []
    /\ Forall (fun row => a_score row = int_column q)
              (rows_of a_callId callId (analyses (tables w'))).
Proof.
  rewrite scoreWithLLM_steps. cbv zeta.
  destruct (corrupted_or_empty text); [discriminate|].
  destruct (invokeLLM env _) as [msg| |msg|v]; try discriminate.
  destruct (get v "score") as [s|] eqn:Hs; [|discriminate].
  destruct (score_in_range s) eqn:Hrange; [|discriminate].
  apply score_in_range_bounds in Hrange. destruct Hrange as (q & -> & _).
  destruct (saveAnalysisToDatabase _ _ _ _ _ _) as [[[]|msg] w2] eqn:Hsave;
    [|discriminate].
  intros [= <- <-].
  destruct (saveAnalysis_returns _ _ _ _ _ _ _ Hsave) as (c & rows' & _ & -> & Hne & Hall).
  exists v, q. simpl. repeat split; auto.
  eapply Forall_impl; [|exact Hall]. intros row ->. simpl.
  unfold get_opt. now rewrite Hs.
Qed.

(** X5. After a successful [analyzeCall], [getCallWithDetails] returns
    the call together with an analysis whose score is the score of the
    result handed back to the caller as the [int] column keeps it: that
    score rounded to a whole number, and so the score itself when it is
    whole. *)
Theorem analysis_can_be_read_back
        (env : Env) (options : AnalyzeCallOptions) (w w' : World)
        (result : AnalyzeCallResult) :
  analyzeCall env options w = (result, w') ->
  success result = true ->
  exists details row v q,
    Queries.getCallWithDetails (o_callId options) w' = (Ret (Some details), w')
    /\ r_callId (Queries.call details) = o_callId options
    /\ Queries.analysis details = Some row
    /\ analysis result = Some v
    /\ get_opt v "score" = JNum q
    /\ a_score row = int_column q
    /\ (is_integer q = true -> a_score row = q).
Proof.
  intros Hrun Hsucc.
  pose proof (analyzeCall_keeps_free (fun w => calls (tables w)) env options w
                ltac:(auto with tables) ltac:(auto with tables)) as Fc.
  pose proof (analyzeCall_keeps_free db_available env options w
                ltac:(auto with tables) ltac:(auto with tables)) as Fd.
  rewrite Hrun in Fc, Fd. simpl in Fc, Fd.
  assert (Htry : analyzeCall_try env options w = (Ret result, w')).
  { revert Hrun Hsucc. unfold analyzeCall.
    destruct (analyzeCall_try env options w) as [[r|msg] w1];
      intros [= <- <-]; [reflexivity|discriminate]. }
  assert (Hrows : exists call v q,
             db_available w = true
             /\ find (has_key r_callId (o_callId options)) (calls (tables w)) = Some call
             /\ analysis result = Some v
             /\ get_opt v "score" = JNum q
             /\ rows_of a_callId (o_callId options) (analyses (tables w')) <> []
             /\ Forall (fun row => a_score row = int_column q)
                       (rows_of a_callId (o_callId options) (analyses (tables w')))).
  { destruct (analyzeCall_try_paths env options w)
      as [H|[(_ & _ & H)|(Hdb & call & Hcall
                          & [[_ H]|(text & rec & _ & [[_ [b H]]|[_ H]])])]];
      rewrite H in Htry; try (injection Htry as <- _; discriminate);
      try discriminate.
    - apply savePlaceholder_stores in Htry. destruct Htry as (-> & Hne & Hall).
      exists call, (noContentResult env (o_phoneNumberId options) b), (num 0).
      repeat split; auto.
      eapply Forall_impl; [|exact Hall]. intros row [Hs _].
      rewrite Hs. symmetry. apply int_column_num.
    - apply scoreWithLLM_stores in Htry. destruct Htry as (v & q & -> & Hs & Hne & Hall).
      exists call, v, q. repeat split; auto. unfold get_opt. now rewrite Hs. }
  destruct Hrows as (call & v & q & Hdb & Hcall & Hv & Hscore & Hne & Hall).
  assert (Hfind : exists row,
             find (has_key a_callId (o_callId options)) (analyses (tables w')) = Some row
             /\ a_score row = int_column q).
  { rewrite find_rows_of.
    destruct (rows_of a_callId (o_callId options) (analyses (tables w'))) as [|row l];
      [congruence|].
    exists row. split; [reflexivity|]. now inversion Hall. }
  destruct Hfind as (row & Hfind & Hq).
  exists {| Queries.call := call;
            Queries.transcript :=
              find (has_key t_callId (o_callId options)) (transcripts (tables w'));
            Queries.analysis := Some row |}, row, v, q.
  split.
  - unfold Queries.getCallWithDetails, Queries.getCallById,
      Queries.getTranscriptByCallId, Queries.getAnalysisByCallId, bind, getDb.
    unfold select_call, select_transcript, select_analysis.
    repeat (progress (rewrite ?Fd, ?Hdb, ?Fc, ?Hcall, ?Hfind; cbv beta iota)).
    reflexivity.
  - simpl. split; [apply find_some in Hcall; now apply has_key_eq|].
    split; [reflexivity|]. split; [exact Hv|]. split; [exact Hscore|].
    split; [exact Hq|]. intros Hwhole. rewrite Hq. now apply int_column_whole.
Qed.

(** ** What a poll run stores and analyses *)

Section PollRuns.

Import Sync.

Lemma unknown_line_qualifies_nothing env line (l : list OpenPhoneCall) :
  line <> mainPhoneId env -> line <> outboundPhoneId env ->
  filterCallsForAnalysis env l line = [].
Proof.
  intros Hm Ho. unfold filterCallsForAnalysis. apply filter_none.
  apply Forall_forall. intros call _. unfold qualifies.
  destruct (String.eqb_spec line (mainPhoneId env)); [contradiction|].
  destruct (String.eqb_spec line (outboundPhoneId env)); [contradiction|].
  reflexivity.
Qed.

(** X10. A poll run analyses nothing when auto-analysis is switched off
    or when the line it polls is neither the main nor the outbound line:
    it counts no analysis, sends nothing to the LLM and leaves the Analysis
    table as it was. *)
Theorem syncCalls_analyses_nothing_when_off_or_unknown_line
        (fuel : nat) (env : Env) (options : SyncOptions) (w w' : World)
        (result : SyncResult) :
  s_autoAnalyze options = Some false
  \/ (s_phoneNumberId options <> mainPhoneId env
      /\ s_phoneNumberId options <> outboundPhoneId env) ->
  syncCalls fuel env options w = Some (result, w') ->
  analysesTriggered result = 0
  /\ llm_log w' = llm_log w
  /\ analyses (tables w') = analyses (tables w).
Proof.
  intros Hoff. unfold syncCalls.
  destruct (db_available w); [|intros [= <- <-]; auto].
  destruct (fetchAllPages fuel env options None []) as [[allCalls fetchError]|];
    [|discriminate].
  intros [= Hrun]. unfold processCalls in Hrun.
  set (r0 := afterPaging options allCalls fetchError) in Hrun.
  set (done := completed allCalls) in Hrun.
  pose proof (saveCalls_spec env done r0 w) as S1.
  pose proof (saveCalls_keeps (fun w => analyses (tables w)) env done
                ltac:(auto with tables) r0 w) as A1.
  destruct (saveCalls env done r0 w) as [r1 w1]. simpl in A1.
  destruct S1 as (_ & _ & N1 & _ & _ & _ & L1).
  pose proof (saveTranscripts_spec env done r1 w1) as S2.
  pose proof (saveTranscripts_keeps (fun w => analyses (tables w)) env done
                ltac:(auto with tables) ltac:(auto with tables) r1 w1) as A2.
  destruct (saveTranscripts env done r1 w1) as [r2 w2]. simpl in A2.
  destruct S2 as (_ & _ & _ & N2 & _ & L2 & _).
  assert (Hend : (result, w') = (r2, w2)).
  { destruct Hoff as [Hoff|[Hm Ho]].
    - unfold shouldAutoAnalyze in Hrun. rewrite Hoff in Hrun. now symmetry.
    - rewrite (unknown_line_qualifies_nothing env _ done Hm Ho) in Hrun.
      simpl in Hrun. destruct (shouldAutoAnalyze options); now symmetry. }
  injection Hend as -> ->.
  split; [rewrite N2, N1; reflexivity|]. split; congruence.
Qed.

Lemma upsertCall_rows env call w row :
  In row (calls (tables (snd (upsertCall env call w)))) ->
  In row (calls (tables w)) \/ row = call_columns (callData call).
Proof.
  unfold upsertCall, bind, getDb.
  destruct (db_available w); [|now left].
  unfold select_call.
  destruct (find (has_key r_callId (c_id call)) (calls (tables w))) as [r|].
  - unfold update_call, reject.
    destruct (write_fault env (c_id call)); [now left|].
    simpl. unfold update_where. intros Hin. apply in_map_iff in Hin.
    destruct Hin as (x & Hx & Hin).
    destruct (has_key r_callId (c_id call) x); [now right|left; congruence].
  - unfold insert_call, reject. simpl.
    destruct (write_fault env (c_id call)); [now left|].
    simpl. intros Hin. apply in_app_or in Hin.
    destruct Hin as [Hin|[<-|[]]]; auto.
Qed.

Lemma saveCalls_rows env completedCalls :
  forall result w row,
    In row (calls (tables (snd (saveCalls env completedCalls result w)))) ->
    In row (calls (tables w))
    \/ exists call, In call completedCalls /\ row = call_columns (callData call).
Proof.
  induction completedCalls as [|call rest IH]; intros result w row; simpl; [auto|].
  pose proof (upsertCall_rows env call w row) as U.
  destruct (upsertCall env call w) as [[b|msg] w1]; simpl in U;
    intros Hin; apply IH in Hin;
    (destruct Hin as [Hin|(c & Hc & ->)];
     [destruct (U Hin) as [H| ->]; [now left|right; eauto]|right; eauto]).
Qed.

(** X11. A poll run stores only completed calls: every row of the Call
    table after the run was there before it, or is the record built from
    a fetched call whose status is "completed", as the table keeps it. *)
Theorem syncCalls_stores_only_completed_calls
        (fuel : nat) (env : Env) (options : SyncOptions) (w w' : World)
        (allCalls : list OpenPhoneCall) (fetchError : option string)
        (result : SyncResult) :
  fetchAllPages fuel env options None [] = Some (allCalls, fetchError) ->
  syncCalls fuel env options w = Some (result, w') ->
  forall row,
    In row (calls (tables w')) ->
    In row (calls (tables w))
    \/ exists call,
         In call allCalls /\ c_status call = "completed"
         /\ row = call_columns (callData call).
Proof.
  intros Hpages. unfold syncCalls. rewrite Hpages.
  destruct (db_available w); [|intros [= _ <-]; auto].
  intros [= Hrun] row. unfold processCalls in Hrun.
  set (r0 := afterPaging options allCalls fetchError) in Hrun.
  pose proof (saveCalls_rows env (completed allCalls) r0 w row) as R1.
  destruct (saveCalls env (completed allCalls) r0 w) as [r1 w1]. simpl in R1.
  pose proof (saveTranscripts_keeps (fun w => calls (tables w)) env (completed allCalls)
                ltac:(auto with tables) ltac:(auto with tables) r1 w1) as K2.
  destruct (saveTranscripts env (completed allCalls) r1 w1) as [r2 w2]. simpl in K2.
  assert (K3 : calls (tables w') = calls (tables w2)).
  { destruct (shouldAutoAnalyze options).
    - pose proof (analyzeCalls_keeps (fun w => calls (tables w)) env options
                    (filterCallsForAnalysis env (completed allCalls)
                                            (s_phoneNumberId options))
                    ltac:(auto with tables) ltac:(auto with tables) r2 w2) as K.
      rewrite Hrun in K. exact K.
    - now injection Hrun as _ <-. }
  rewrite K3, K2. intros Hin. destruct (R1 Hin) as [H|(call & Hc & ->)]; [now left|].
  right. exists call. unfold completed in Hc. apply filter_In in Hc.
  destruct Hc as [Hc Hs]. apply String.eqb_eq in Hs. auto.
Qed.

Lemma saveCalls_no_fault env completedCalls :
  (forall k, write_fault env k = None) ->
  forall result w,
    db_available w = true ->
    let (result', w') := saveCalls env completedCalls result w in
    callsSynced result' = callsSynced result + List.length completedCalls
    /\ errors result' = errors result
    /\ (forall k, In k (call_ids w) -> In k (call_ids w'))
    /\ (forall call, In call completedCalls -> In (c_id call) (call_ids w')).
Proof.
  intros Hfault.
  induction completedCalls as [|call rest IH]; intros result w Hdb; simpl.
  - repeat split; auto. contradiction.
  - pose proof (upsertCall_ids env call w) as G.
    pose proof (keeps_upsertCall db_available env call db_available_table_free w) as Kd.
    assert (Hret : exists b, fst (upsertCall env call w) = Ret b
                             /\ In (c_id call) (call_ids (snd (upsertCall env call w)))).
    { unfold upsertCall, bind. rewrite (getDb_available w Hdb). unfold select_call.
      destruct (find (has_key r_callId (c_id call)) (calls (tables w))) as [r|] eqn:Hf.
      - unfold update_call, reject. rewrite Hfault. simpl. eexists. split; [reflexivity|].
        unfold call_ids. simpl. rewrite keys_update_where by reflexivity.
        apply find_in_keys. congruence.
      - unfold insert_call, reject. simpl. rewrite Hfault. simpl.
        eexists. split; [reflexivity|].
        unfold call_ids. simpl. rewrite map_app. apply in_or_app. right. now left. }
    destruct Hret as (b & Hb & Hin).
    destruct (upsertCall env call w) as [out w1]. simpl in *. subst out.
    specialize (IH (count_call result) w1 ltac:(congruence)).
    destruct (saveCalls env rest (count_call result) w1) as [r' w'].
    destruct IH as (Hn & He & Hkeep & Hall). simpl in Hn, He.
    split; [lia|]. split; [exact He|]. split.
    + intros k Hk. apply Hkeep. exact (grows_by_incl _ _ _ _ G Hk).
    + intros c [<-|Hc]; [now apply Hkeep|now apply Hall].
Qed.

Lemma analyzeCalls_errors env options callsToAnalyze :
  forall result w,
    exists more,
      errors (fst (analyzeCalls env options callsToAnalyze result w))
      = errors result ++ more.
Proof.
  induction callsToAnalyze as [|call rest IH]; intros result w; simpl.
  - exists []. now rewrite app_nil_r.
  - destruct (analyzeCall env (analysisOptions options call) w) as [r w1].
    cbv beta iota. destruct (success r).
    + destruct (IH (count_analysis result) w1) as [more Hmore]. exists more. exact Hmore.
    + destruct (IH (add_error result
                      ("Analysis failed for call " ++ c_id call ++ ": "
                       ++ render (error r))%string) w1) as [more Hmore].
      eexists. etransitivity; [exact Hmore|]. simpl. rewrite <- app_assoc. reflexivity.
Qed.

(** X12. A failure to fetch a later page does not discard the pages
    already fetched: when the first page arrives with a page token and the
    request for the second page fails, the run reports failure with the
    fetch error at the head of its error list, and still saves the
    completed calls of the first page (the database being available and
    accepting the writes). *)
Theorem later_page_failure_keeps_earlier_pages
        (fuel : nat) (env : Env) (options : SyncOptions) (w : World)
        (data : list OpenPhoneCall) (token msg : string) :
  fetchCalls env (fetchParams options None) = CallsPage data (Some token) ->
  nonempty token = true ->
  fetchCalls env (fetchParams options (Some token)) = CallsError msg ->
  db_available w = true ->
  (forall k, write_fault env k = None) ->
  exists result w',
    syncCalls (S (S fuel)) env options w = Some (result, w')
    /\ s_success result = false
    /\ hd_error (errors result) = Some ("Failed to fetch calls: " ++ msg)%string
    /\ callsSynced result = List.length (completed data)
    /\ forall call,
         In call data -> c_status call = "completed" -> In (c_id call) (call_ids w').
Proof.
  intros Hfirst Htoken Hsecond Hdb Hfault.
  assert (Hpages : fetchAllPages (S (S fuel)) env options None [] = Some (data, Some msg)).
  { simpl. rewrite Hfirst. simpl. rewrite Htoken, Htoken, Hsecond. reflexivity. }
  unfold syncCalls. rewrite Hdb, Hpages. unfold processCalls.
  set (r0 := afterPaging options data (Some msg)).
  assert (H0 : exists rest, errors r0 = ("Failed to fetch calls: " ++ msg)%string :: rest).
  { unfold r0, afterPaging, fetchErrors. simpl.
    rewrite andb_false_r. eauto. }
  destruct H0 as [rest H0].
  pose proof (saveCalls_no_fault env (completed data) Hfault r0 w Hdb) as S1.
  pose proof (saveCalls_spec env (completed data) r0 w) as P1.
  destruct (saveCalls env (completed data) r0 w) as [r1 w1].
  destruct S1 as (N1 & E1 & _ & I1). destruct P1 as (F1 & _).
  pose proof (saveTranscripts_spec env (completed data) r1 w1) as S2.
  pose proof (saveTranscripts_keeps call_ids env (completed data)
                ltac:(auto with tables) ltac:(auto with tables) r1 w1) as K2.
  destruct (saveTranscripts env (completed data) r1 w1) as [r2 w2]. simpl in K2.
  destruct S2 as (E2 & F2 & N2 & _).
  assert (Hstored : forall call,
             In call data -> c_status call = "completed" -> In (c_id call) (call_ids w2)).
  { intros call Hin Hs. rewrite K2. apply I1. unfold completed.
    apply filter_In. split; [exact Hin|]. now apply String.eqb_eq. }
  destruct (shouldAutoAnalyze options).
  - set (todo := filterCallsForAnalysis env (completed data) (s_phoneNumberId options)).
    pose proof (analyzeCalls_spec env options todo r2 w2) as S3.
    pose proof (analyzeCalls_errors env options todo r2 w2) as [more E3].
    pose proof (analyzeCalls_keeps call_ids env options todo
                  ltac:(auto with tables) ltac:(auto with tables) r2 w2) as K3.
    destruct (analyzeCalls env options todo r2 w2) as [r3 w3]. simpl in E3, K3.
    destruct S3 as (F3 & N3 & _).
    exists r3, w3. split; [reflexivity|].
    split; [rewrite F3, F2, F1; reflexivity|].
    split; [rewrite E3, E2, E1, H0; reflexivity|].
    split; [rewrite N3, N2, N1; reflexivity|].
    intros call Hin Hs. rewrite K3. now apply Hstored.
  - exists r2, w2. split; [reflexivity|].
    split; [rewrite F2, F1; reflexivity|].
    split; [rewrite E2, E1, H0; reflexivity|].
    split; [rewrite N2, N1; reflexivity|].
    exact Hstored.
Qed.

End PollRuns.

(** ** What the webhook receiver sends and records *)

Section Receiver.

Import Webhook.

Lemma keeps_trackHealth {X : Type} (proj : World -> X) env eventType callData :
  health_free proj -> keeps proj (trackHealth env eventType callData).
Proof.
  intros H w. unfold trackHealth, try_catch.
  destruct (db_available w); [|reflexivity].
  unfold insert_health. destruct (health_fault env _); [reflexivity|].
  unfold modify. simpl. apply H.
Qed.

Lemma keeps_saveCall {X : Type} (proj : World -> X) env eventType x r :
  calls_free proj -> keeps proj (saveCall env eventType x r).
Proof.
  intros H. unfold saveCall, keyed.
  apply keeps_try_catch; [|intros; apply keeps_ret].
  apply keeps_bind; [apply keeps_getDb|]. intros _.
  destruct (x_callId x); tframe.
Qed.

Lemma keeps_dispatch {X : Type} (proj : World -> X) env callId pn :
  analyses_free proj -> llm_free proj -> keeps proj (dispatch env callId pn).
Proof.
  intros Ha Hl w. unfold dispatch.
  match goal with |- context [analyzeCall env ?o w] => set (options := o) end.
  pose proof (analyzeCall_keeps_free proj env options w Ha Hl) as K.
  now destruct (analyzeCall env options w).
Qed.

Lemma keeps_saveTranscript {X : Type} (proj : World -> X) env x r :
  transcripts_free proj ->
  (shouldAnalyze r = true -> analyses_free proj /\ llm_free proj) ->
  keeps proj (saveTranscript env x r).
Proof.
  intros Ht Ha. unfold saveTranscript, keyed.
  apply keeps_bind; [apply keeps_getDb|]. intros _.
  destruct (filter validItem (x_dialogue x)) as [|d l]; [apply keeps_throw|].
  destruct (x_callId x) as [callId|]; [|apply keeps_throw].
  apply keeps_bind; [now apply keeps_upsertTranscript_free|]. intros _.
  destruct (shouldAnalyze r); [|apply keeps_ret].
  destruct (Ha eq_refl) as [Ha' Hl].
  apply keeps_bind; [now apply keeps_dispatch|]. intros _. apply keeps_ret.
Qed.

Lemma keeps_delayedFetch {X : Type} (proj : World -> X) env x :
  transcripts_free proj -> fetch_free proj -> analyses_free proj -> llm_free proj ->
  keeps proj (delayedFetch env x).
Proof.
  intros Ht Hf Ha Hl. unfold delayedFetch, keyed.
  destruct (x_callId x) as [callId|].
  - apply keeps_bind; [now apply keeps_fetchTranscriptForCall_free|].
    intros [|]; [|apply keeps_ret].
    apply keeps_bind; [now apply keeps_dispatch|]. intros _. apply keeps_ret.
  - apply keeps_bind; [apply keeps_getDb|]. intros _.
    apply keeps_try_catch.
    + apply keeps_bind; [now apply keeps_requestTranscript|].
      intros [t|]; [|apply keeps_ret].
      destruct (tr_dialogue t) as [[|d l]|]; try apply keeps_ret. apply keeps_throw.
    + intros msg. destruct (includes msg "404"); [apply keeps_ret|apply keeps_throw].
Qed.

Lemma keeps_respond {X : Type} (proj : World -> X) env body :
  health_free proj -> calls_free proj -> keeps proj (respond env body).
Proof.
  intros Hh Hc. unfold respond. destruct body as [body|]; [|apply keeps_throw].
  apply keeps_bind; [now apply keeps_trackHealth|]. intros _.
  destruct (negb _ && negb _); [apply keeps_ret|].
  destruct (callDataOf (b_data body)) as [callData|]; [|apply keeps_throw].
  apply keeps_bind; [now apply keeps_saveCall|]. intros _. apply keeps_ret.
Qed.

(** What the [try] block hands over when it has work left. *)
Lemma respond_pending env body w response p w1 :
  respond env body w = (Ret (response, Some p), w1) ->
  exists b,
    body = Some b
    /\ p_isCallCompleted p = opt_eqb (b_type b) (Some "call.completed")
    /\ response = acknowledged (p_extracted p) (p_routing p).
Proof.
  unfold respond. destruct body as [b|]; [|discriminate].
  unfold bind at 1.
  destruct (trackHealth_returns env (b_type b) (callDataOf (b_data b)) w) as (w0 & -> & _).
  destruct (negb _ && negb _); [discriminate|].
  destruct (callDataOf (b_data b)) as [callData|]; [|discriminate].
  unfold bind.
  destruct (saveCall env (b_type b) _ _ w0) as [[[]|msg] w2]; [|discriminate].
  unfold ret. intros [= <- <- _]. exists b. simpl. auto.
Qed.

(** X13. The webhook receiver sends something to the LLM only for an
    event it has acknowledged with [willAnalyze: true]: after any other
    response, ignored events and internal errors included, the log of LLM
    requests is as it was. *)
Theorem webhook_llm_only_when_announced
        (env : Env) (body : option Body) (w : World) :
  willAnalyze (fst (handler env body w)) <> Some true ->
  llm_log (snd (handler env body w)) = llm_log w.
Proof.
  unfold handler.
  pose proof (keeps_respond llm_log env body ltac:(auto with tables)
                ltac:(auto with tables) w) as K.
  destruct (respond env body w) as [[[response [p|]]|msg] w1] eqn:Hr; simpl in *;
    try (intros _; exact K).
  destruct (respond_pending _ _ _ _ _ _ Hr) as (b & _ & _ & ->). simpl.
  intros Hno. rewrite <- K. unfold afterResponse.
  destruct (shouldAnalyze (p_routing p)) eqn:Hs; [congruence|]. simpl.
  destruct (Nat.ltb 0 (List.length (x_dialogue (p_extracted p)))); [|reflexivity].
  apply (keeps_try_catch llm_log); [|intros; apply keeps_ret].
  apply keeps_saveTranscript; [auto with tables|]. congruence.
Qed.

Lemma afterResponse_keeps {X : Type} (proj : World -> X) env isCallCompleted x r w :
  transcripts_free proj -> fetch_free proj -> analyses_free proj -> llm_free proj ->
  proj (afterResponse env isCallCompleted x r w) = proj w.
Proof.
  intros Ht Hf Ha Hl. unfold afterResponse.
  destruct (Nat.ltb 0 (List.length (x_dialogue x))).
  - apply (keeps_try_catch proj); [|intros; apply keeps_ret].
    apply keeps_saveTranscript; auto.
  - destruct (shouldAnalyze r && isCallCompleted); [|reflexivity].
    apply (keeps_try_catch proj); [|intros; apply keeps_ret].
    now apply keeps_delayedFetch.
Qed.

(** X14. With the database available, every request that has a body
    and whose health record the database accepts adds exactly that record
    to the webhook health table, whatever the type of the event and
    whatever happens to it afterwards: the record carries the event type
    and the call id found in the payload.  When the database refuses the
    record, the table is left as it was. *)
Theorem webhook_tracks_every_event (env : Env) (b : Body) (w : World) :
  db_available w = true ->
  let record := healthRecord (b_type b) (callDataOf (b_data b)) in
  webhookHealth (tables (snd (handler env (Some b) w)))
  = match health_fault env record with
    | None => webhookHealth (tables w) ++ [record]
    | Some _ => webhookHealth (tables w)
    end.
Proof.
  intros Hdb record.
  set (health := fun w : World => webhookHealth (tables w)).
  set (after := match health_fault env record with
                | None => health w ++ [record]
                | Some _ => health w
                end).
  change (health (snd (handler env (Some b) w)) = after).
  assert (Ht : exists w0,
             trackHealth env (b_type b) (callDataOf (b_data b)) w = (Ret tt, w0)
             /\ health w0 = after).
  { unfold trackHealth, try_catch. rewrite Hdb.
    unfold insert_health. fold record. unfold after.
    destruct (health_fault env record).
    - eexists. split; reflexivity.
    - unfold modify. eexists. split; reflexivity. }
  destruct Ht as (w0 & Ht & Hw0).
  assert (Hr : health (snd (respond env (Some b) w)) = after).
  { unfold respond, bind at 1. rewrite Ht, <- Hw0.
    destruct (negb _ && negb _); [reflexivity|].
    destruct (callDataOf (b_data b)) as [callData|]; [|reflexivity].
    match goal with
    | |- context [saveCall env ?t ?x ?r] =>
        pose proof (keeps_saveCall health env t x r ltac:(auto with tables) w0) as K;
        unfold bind; destruct (saveCall env t x r w0) as [[[]|msg] w2]
    end; exact K. }
  unfold handler.
  destruct (respond env (Some b) w) as [[[response [p|]]|msg] w1]; simpl in *;
    try exact Hr.
  rewrite <- Hr. apply (afterResponse_keeps health); auto with tables.
Qed.

(** X15. The webhook receiver asks the provider for at most one
    transcript, and only for a [call.completed] event that it has
    acknowledged with [willAnalyze: true]; the transcript it asks for is
    the one of the acknowledged call id. *)
Theorem webhook_fetches_at_most_once (env : Env) (body : option Body) (w : World) :
  let (response, w') := handler env body w in
  fetch_log w' = fetch_log w
  \/ (exists b,
        body = Some b
        /\ b_type b = Some "call.completed"
        /\ willAnalyze response = Some true
        /\ fetch_log w' = fetch_log w ++ [render (resp_callId response)]).
Proof.
  unfold handler.
  pose proof (keeps_respond fetch_log env body ltac:(auto with tables)
                ltac:(auto with tables) w) as K.
  destruct (respond env body w) as [[[response [p|]]|msg] w1] eqn:Hr; simpl in *;
    try (left; exact K).
  destruct (respond_pending _ _ _ _ _ _ Hr) as (b & -> & Hc & ->). simpl.
  rewrite <- K. unfold afterResponse.
  destruct (Nat.ltb 0 (List.length (x_dialogue (p_extracted p)))).
  { left. apply (keeps_try_catch fetch_log); [|intros; apply keeps_ret].
    apply keeps_saveTranscript; auto with tables. }
  destruct (shouldAnalyze (p_routing p)) eqn:Hs; simpl; [|now left].
  destruct (p_isCallCompleted p) eqn:Hp; [|now left].
  symmetry in Hc. apply opt_eqb_eq in Hc.
  unfold try_catch, delayedFetch.
  destruct (x_callId (p_extracted p)) as [callId|]; simpl.
  - unfold bind.
    pose proof (fetchTranscriptForCall_logs env callId w1) as L.
    pose proof (keeps_fetchTranscriptForCall fetch_log env callId
                  fetch_log_table_free) as L0.
    destruct (db_available w1) eqn:Hdb.
    + specialize (L eq_refl).
      right. exists b. split; [reflexivity|]. split; [exact Hc|].
      split; [reflexivity|].
      destruct (Sync.fetchTranscriptForCall env callId w1) as [[[|]|m] w2];
        simpl in L; try exact L.
      pose proof (keeps_dispatch fetch_log env callId
                    (x_phoneNumberId (p_extracted p)) ltac:(auto with tables)
                    ltac:(auto with tables) w2) as D.
      destruct (dispatch env callId _ w2) as [[r|m] w3]; simpl in *; congruence.
    + left. unfold Sync.fetchTranscriptForCall, bind, getDb. rewrite Hdb. reflexivity.
  - unfold bind, getDb. destruct (db_available w1); [|now left].
    unfold Sync.requestTranscript.
    right. exists b. split; [reflexivity|]. split; [exact Hc|]. split; [reflexivity|].
    unfold try_catch.
    destruct (fetchTranscript env "undefined") as [[t|]|m]; simpl.
    + destruct (tr_dialogue t) as [[|d l]|]; reflexivity.
    + reflexivity.
    + destruct (includes m "404"); reflexivity.
Qed.

End Receiver.

(** ** Phone numbers *)

Section PhoneNumbers.

Import PhoneNumber.

Lemma digits_and_plus_idem (s : string) :
  digits_and_plus (digits_and_plus s) = digits_and_plus s.
Proof.
  induction s as [|c r IH]; simpl; [reflexivity|].
  destruct (is_digit c || Ascii.eqb c "+"%char) eqn:E; simpl; [|exact IH].
  now rewrite E, IH.
Qed.

Lemma digits_and_plus_digits (d : string) :
  all_digits d = true -> digits_and_plus d = d.
Proof.
  induction d as [|c r IH]; simpl; [reflexivity|].
  rewrite andb_true_iff. intros [Hc Hr]. now rewrite Hc, IH.
Qed.

Lemma digits_start (d : string) :
  all_digits d = true -> startsWith d "+" = false.
Proof.
  destruct d as [|c r]; [reflexivity|]. cbn [all_digits startsWith].
  rewrite andb_true_iff. intros [Hc _].
  destruct (Ascii.eqb_spec "+"%char c) as [<-|_]; [discriminate|reflexivity].
Qed.

Lemma startsWith_empty (s : string) : startsWith s "" = true.
Proof. now destruct s. Qed.

(** On a string of digits and plus signs, the function only looks at the
    string itself. *)
Lemma normalize_cleaned (t : string) :
  digits_and_plus t = t ->
  normalizePhoneNumber t
  = if startsWith t "+" then t
    else if Nat.eqb (String.length t) 10 then ("+1" ++ t)%string
    else if Nat.eqb (String.length t) 11 && startsWith t "1" then ("+" ++ t)%string
    else t.
Proof. intros H. unfold normalizePhoneNumber. now rewrite H. Qed.

(** X16. [normalizePhoneNumber] is idempotent: a normalised number is
    left as it is. *)
Theorem normalizePhoneNumber_idempotent (phoneNumber : string) :
  normalizePhoneNumber (normalizePhoneNumber phoneNumber)
  = normalizePhoneNumber phoneNumber.
Proof.
  set (c := digits_and_plus phoneNumber).
  assert (Hc : digits_and_plus c = c) by apply digits_and_plus_idem.
  assert (Hn : normalizePhoneNumber phoneNumber
               = if startsWith c "+" then c
                 else if Nat.eqb (String.length c) 10 then ("+1" ++ c)%string
                 else if Nat.eqb (String.length c) 11 && startsWith c "1"
                      then ("+" ++ c)%string
                      else c) by reflexivity.
  rewrite Hn.
  destruct (startsWith c "+") eqn:Hplus.
  { rewrite (normalize_cleaned c Hc), Hplus. reflexivity. }
  destruct (Nat.eqb (String.length c) 10) eqn:H10.
  { rewrite normalize_cleaned; [reflexivity|]. simpl. now rewrite Hc. }
  destruct (Nat.eqb (String.length c) 11 && startsWith c "1") eqn:H11.
  { rewrite normalize_cleaned; [|simpl; now rewrite Hc].
    change ("+" ++ c)%string with (String "+"%char c). cbn [startsWith].
    rewrite startsWith_empty. reflexivity. }
  rewrite (normalize_cleaned c Hc), Hplus, H10, H11. reflexivity.
Qed.

(** X17. The usual ways of writing a US number normalise to the same
    E.164 number: whatever punctuation surrounds them, the ten digits
    alone, the ten digits after the country code 1, and the ten digits
    after +1 all give +1 followed by the ten digits. *)
Theorem normalizePhoneNumber_us_formats_agree (d national withCode e164 : string) :
  all_digits d = true ->
  String.length d = 10 ->
  digits_and_plus national = d ->
  digits_and_plus withCode = ("1" ++ d)%string ->
  digits_and_plus e164 = ("+1" ++ d)%string ->
  normalizePhoneNumber national = ("+1" ++ d)%string
  /\ normalizePhoneNumber withCode = ("+1" ++ d)%string
  /\ normalizePhoneNumber e164 = ("+1" ++ d)%string.
Proof.
  intros Hd Hlen H1 H2 H3. unfold normalizePhoneNumber.
  rewrite H1, H2, H3. simpl. rewrite (digits_start d Hd), Hlen. simpl.
  rewrite startsWith_empty. auto.
Qed.

End PhoneNumbers.

(** ** The legacy validator *)

Section Validator.

Import Criteria.

Lemma one_of_In (allowed : list string) (v : jsval) :
  one_of allowed v = true -> exists s, v = JStr s /\ In s allowed.
Proof.
  unfold one_of. intros H. apply existsb_exists in H.
  destruct H as (s & Hin & Hs). destruct v; try discriminate.
  simpl in Hs. apply String.eqb_eq in Hs. subst. eauto.
Qed.

Lemma bad_score_range (score : jsval) :
  bad_score score = negb (score_in_range score).
Proof.
  destruct score; simpl; try reflexivity.
  now rewrite negb_andb, !negb_involutive.
Qed.

(** X18. A result that [validateQAResult] accepts has a score that the
    dispatcher accepts too, a number between 0 and 100; its summary is a
    string, its sentiment one of the three sentiments, and each of its
    four compliance checks one of "Yes", "No" and "NA". *)
Theorem validateQAResult_sound (result : jsval) :
  validateQAResult result = true ->
  score_in_range (get_opt result "score") = true
  /\ (exists q, get_opt result "score" = JNum q
                /\ (num 0 <= q)%Qc /\ (q <= num 100)%Qc)
  /\ (exists s, get_opt result "summary" = JStr s)
  /\ (exists s, get_opt result "sentiment" = JStr s
                /\ In s ["Positive"; "Neutral"; "Negative"])
  /\ (forall check,
        In check ["greeting"; "verification"; "recordingConsent"; "professionalism"] ->
        exists s, get_opt (get_opt result "complianceChecks") check = JStr s
                  /\ In s ["Yes"; "No"; "NA"]).
Proof.
  unfold validateQAResult.
  destruct (negb (truthy result) || negb (is_object result)); [discriminate|].
  destruct (is_string (get_opt result "summary")) eqn:Hsum; [|discriminate].
  destruct (one_of ["Positive"; "Neutral"; "Negative"] (get_opt result "sentiment"))
    eqn:Hsent; [|discriminate].
  cbv zeta. set (checks := get_opt result "complianceChecks"). cbn [negb].
  destruct (negb (truthy checks) || negb (is_object checks)); [discriminate|].
  destruct (one_of validValues (get_opt checks "greeting")) eqn:H1; [|discriminate].
  destruct (one_of validValues (get_opt checks "verification")) eqn:H2;
    [|discriminate].
  destruct (one_of validValues (get_opt checks "recordingConsent")) eqn:H3;
    [|discriminate].
  destruct (one_of validValues (get_opt checks "professionalism")) eqn:H4;
    [|discriminate].
  cbn [negb].
  destruct (is_array (get_opt result "keyActionItems")); [|discriminate].
  cbn [negb].
  destruct (bad_score (get_opt result "score")) eqn:Hscore; [discriminate|].
  intros _.
  rewrite bad_score_range in Hscore. apply negb_false_iff in Hscore.
  split; [exact Hscore|]. split; [now apply score_in_range_bounds|].
  split.
  { destruct (get_opt result "summary"); try discriminate. eauto. }
  split; [now apply one_of_In|].
  intros check [<-|[<-|[<-|[<-|[]]]]]; now apply one_of_In.
Qed.

End Validator.

(** ** Provider errors *)

Lemma includes_app_r (a b needle : string) :
  includes b needle = true -> includes (a ++ b)%string needle = true.
Proof.
  intros H. induction a as [|c a IH]; [exact H|].
  change (String c a ++ b)%string with (String c (a ++ b)%string).
  cbn [includes]. rewrite IH. apply orb_true_r.
Qed.

Lemma not_found_default (env : Env) (response : OpenPhone.ErrorResponse) :
  OpenPhone.status response = 404%Z ->
  (forall json,
     OpenPhone.errorJson response = Some json ->
     truthy (get_opt json "message") = false) ->
  OpenPhone.requestError env response
  = ("OpenPhone API error (404): " ++ OpenPhone.errorText response)%string.
Proof.
  intros Hs Hjson. unfold OpenPhone.requestError. rewrite Hs. simpl Z.eqb. cbv iota.
  destruct (OpenPhone.errorJson response) as [json|]; [|reflexivity].
  specialize (Hjson json eq_refl). unfold get_opt in Hjson.
  destruct (get json "message") as [message|]; [|reflexivity].
  now rewrite Hjson.
Qed.

(** X19. A 404 of the transcript endpoint whose body carries no
    message counts as "no transcript": the error names the status, the
    poll path recognises it, and [fetchTranscriptForCall] returns [false]
    after its one request, storing nothing. *)
Theorem transcript_404_without_message_is_no_transcript
        (env : Env) (callId : string) (response : OpenPhone.ErrorResponse)
        (w : World) :
  db_available w = true ->
  OpenPhone.status response = 404%Z ->
  (forall json,
     OpenPhone.errorJson response = Some json ->
     truthy (get_opt json "message") = false) ->
  fetchTranscript env callId = TranscriptError (OpenPhone.requestError env response) ->
  Sync.fetchTranscriptForCall env callId w = (Ret false, log_fetch w callId).
Proof.
  intros Hdb Hs Hjson Hfetch.
  rewrite (not_found_default env response Hs Hjson) in Hfetch.
  unfold Sync.fetchTranscriptForCall, bind. rewrite (getDb_available w Hdb).
  unfold try_catch, bind, Sync.requestTranscript. rewrite Hfetch.
  change ("OpenPhone API error (404): " ++ OpenPhone.errorText response)%string
    with ("OpenPhone API error (" ++ ("404" ++ ("): " ++ OpenPhone.errorText response)))%string.
  rewrite (includes_app_r _ _ _ (includes_prefix "404" _)). reflexivity.
Qed.

(** X20. A 404 of the transcript endpoint whose body is JSON with a
    message is reported with that message alone; when the message does not
    contain "404", the poll path does not recognise the error and
    [fetchTranscriptForCall] throws it. *)
Theorem transcript_404_with_message_is_rethrown
        (env : Env) (callId : string) (response : OpenPhone.ErrorResponse)
        (json : jsval) (message : string) (w : World) :
  db_available w = true ->
  OpenPhone.status response = 404%Z ->
  OpenPhone.errorJson response = Some json ->
  get json "message" = Some (JStr message) ->
  nonempty message = true ->
  includes message "404" = false ->
  fetchTranscript env callId = TranscriptError (OpenPhone.requestError env response) ->
  OpenPhone.requestError env response = message
  /\ Sync.fetchTranscriptForCall env callId w = (Throw message, log_fetch w callId).
Proof.
  intros Hdb Hs Hjson Hmsg Hne H404 Hfetch.
  assert (E : OpenPhone.requestError env response = message).
  { unfold OpenPhone.requestError. rewrite Hs. simpl Z.eqb. cbv iota.
    rewrite Hjson, Hmsg. simpl truthy. rewrite Hne. reflexivity. }
  split; [exact E|]. rewrite E in Hfetch.
  unfold Sync.fetchTranscriptForCall, bind. rewrite (getDb_available w Hdb).
  unfold try_catch, bind, Sync.requestTranscript. rewrite Hfetch, H404. reflexivity.
Qed.

Section FetchFailures.

Import Sync.

Lemma first_page_failure env options w fuel msg :
  fetchCalls env (fetchParams options None) = CallsError msg ->
  db_available w = true ->
  syncCalls (S fuel) env options w
  = Some ({| s_success := false; callsSynced := 0; transcriptsSynced := 0;
             analysesTriggered := 0; errors := fetchErrors options msg |}, w).
Proof.
  intros Hfetch Hdb. unfold syncCalls. rewrite Hdb. simpl fetchAllPages.
  rewrite Hfetch. unfold processCalls, afterPaging, completed. simpl.
  destruct (shouldAutoAnalyze options); reflexivity.
Qed.

(** X21. A key that the provider rejects is explained to the user: when
    the first page request is answered with status 401, [fetchCalls] throws
    "OpenPhone API key is invalid", and the poll run, the database being
    available, ends at once with [success: false], that message as the
    fetch error and the hint "OpenPhone API key is invalid", nothing synced
    and nothing stored. *)
Theorem rejected_api_key_is_explained
        (fuel : nat) (env : Env) (options : SyncOptions) (w : World)
        (data : option OpenPhone.ErrorBody) (message : string) :
  fetchCalls env (fetchParams options None)
  = CallsError (OpenPhone.fetchCallsError (OpenPhone.AxiosError (Some 401%Z) data message)) ->
  db_available w = true ->
  syncCalls (S fuel) env options w
  = Some ({| s_success := false; callsSynced := 0; transcriptsSynced := 0;
             analysesTriggered := 0;
             errors := [ "Failed to fetch calls: OpenPhone API key is invalid";
                         "OpenPhone API key is invalid" ] |}, w).
Proof.
  intros Hfetch Hdb.
  exact (first_page_failure env options w fuel _ Hfetch Hdb).
Qed.

(** X22. A line the provider does not know is explained to the user:
    when the first page request is answered with status 400 and a message
    that mentions the phone number, [fetchCalls] throws "Phone number ID
    not found in your OpenPhone account", and the poll run ends with
    [success: false], that message as the fetch error and a hint that
    quotes the line id it was given. *)
Theorem unknown_line_id_is_explained
        (fuel : nat) (env : Env) (options : SyncOptions) (w : World)
        (m json message : string) :
  fetchCalls env (fetchParams options None)
  = CallsError
      (OpenPhone.fetchCallsError
         (OpenPhone.AxiosError (Some 400%Z)
                               (Some (OpenPhone.BodyObject (Some m) json)) message)) ->
  includes m "phoneNumberId" || includes m "phone number" = true ->
  db_available w = true ->
  syncCalls (S fuel) env options w
  = Some ({| s_success := false; callsSynced := 0; transcriptsSynced := 0;
             analysesTriggered := 0;
             errors :=
               [ "Failed to fetch calls: Phone number ID not found in your OpenPhone account";
                 ("Phone number ID " ++ quote ++ s_phoneNumberId options ++ quote
                  ++ " not found in your OpenPhone account")%string ] |}, w).
Proof.
  intros Hfetch Hm Hdb.
  assert (Hne : nonempty m = true).
  { destruct m; [discriminate|reflexivity]. }
  assert (E : OpenPhone.fetchCallsError
                (OpenPhone.AxiosError (Some 400%Z)
                   (Some (OpenPhone.BodyObject (Some m) json)) message)
              = "Phone number ID not found in your OpenPhone account").
  { simpl. now rewrite Hne, Hm. }
  rewrite E in Hfetch.
  exact (first_page_failure env options w fuel _ Hfetch Hdb).
Qed.

End FetchFailures.

(** ** The historical import *)

Section HistoricalImport.

Import Historical.

Lemma textCheck_marker (text : string) :
  startsWith text "undefined: undefined" = true -> textCheck text = (false, true).
Proof.
  intros H. unfold textCheck.
  rewrite (includes_startsWith _ _ H).
  destruct text as [|c r]; [discriminate|].
  cbn [startsWith] in H. apply andb_true_iff in H. destruct H as [Hc _].
  apply Ascii.eqb_eq in Hc. subst c.
  assert (L : Nat.ltb 0 (String.length (trim (String "u" r))) = true).
  { unfold trim. cbn [trimStart]. change (is_white_space "u") with false. cbv iota.
    cbn [trimEnd]. change (is_white_space "u") with false.
    destruct (trimEnd r); reflexivity. }
  rewrite L. reflexivity.
Qed.

Lemma imported_text_marker env transcript d l :
  startsWith (t_fullText (transcriptData env transcript (d :: l)))
             "undefined: undefined" = true.
Proof.
  unfold transcriptData, join_lines. cbn [t_fullText map].
  change (lineOf env (itemObject d)) with "undefined: undefined".
  cbn [String.concat].
  destruct (map (lineOf env) (map itemObject l)); [reflexivity|].
  apply startsWith_app.
Qed.

Lemma upsertTranscript_found env k data w w' t :
  Sync.upsertTranscript env k data w = (Ret tt, w') ->
  find (has_key t_callId k) (transcripts (tables w')) = Some t ->
  t_fullText t = t_fullText data.
Proof.
  unfold Sync.upsertTranscript, bind, select_transcript.
  destruct (find (has_key t_callId k) (transcripts (tables w))) as [r|] eqn:Hfind.
  - unfold update_transcript, reject.
    destruct (write_fault env k); [discriminate|].
    unfold modify. intros [= <-]. simpl. intros H.
    apply find_some in H. destruct H as [Hin Hkey].
    unfold update_where in Hin. apply in_map_iff in Hin.
    destruct Hin as (x & Hx & _).
    destruct (has_key t_callId k x) eqn:E; [now subst t|]. subst x. congruence.
  - unfold insert_transcript, reject.
    destruct (write_fault env (t_callId data)); [discriminate|].
    unfold modify. intros [= <-]. simpl. intros H.
    apply find_some in H. destruct H as [Hin Hkey].
    apply in_app_or in Hin. destruct Hin as [Hin|[<-|[]]]; [|reflexivity].
    apply (find_none _ _ Hfind) in Hin. congruence.
Qed.

(** No request goes to the LLM for a call whose stored transcript, if
    it has one, bears the marker of a broken transcript. *)
Lemma broken_transcript_keeps_llm_log env options w :
  o_transcriptText options = None ->
  (forall t,
     find (has_key t_callId (o_callId options)) (transcripts (tables w)) = Some t ->
     textCheck (t_fullText t) = (false, true)) ->
  llm_log (snd (analyzeCall env options w)) = llm_log w.
Proof.
  intros Hnone Hbroken.
  assert (E : snd (analyzeCall env options w) = snd (analyzeCall_try env options w)).
  { unfold analyzeCall. now destruct (analyzeCall_try env options w) as [[r|msg] w']. }
  rewrite E.
  destruct (analyzeCall_try_paths env options w)
    as [H|[(_ & _ & H)|(_ & call & Hcall
                        & [[_ H]|(text & rec & Hres & [[_ [b H]]|[Hvalid H]])])]];
    rewrite H; try reflexivity.
  - apply savePlaceholder_log.
  - exfalso. revert Hres Hvalid. unfold resolveTranscript. rewrite Hnone. simpl.
    unfold bind, select_transcript.
    destruct (find (has_key t_callId (o_callId options)) (transcripts (tables w)))
      as [t|] eqn:Hfind; [|discriminate].
    unfold ret. intros [= <- <-].
    unfold classify, contentCheck. rewrite (Hbroken t eq_refl). discriminate.
Qed.

(** X23. The transcript step of the historical import reads the speaker
    and the text of each dialogue item from fields the provider does not
    send, so that every line of the text it stores is "undefined:
    undefined": the dispatcher classifies every such transcript as broken,
    and the step, auto-analysis included, sends nothing to the LLM. *)
Theorem historical_import_never_reaches_llm (env : Env) :
  (forall transcript d l rec,
     classify (t_fullText (transcriptData env transcript (d :: l))) rec = Broken)
  /\ (forall autoAnalyze call stats w,
        llm_log (snd (importTranscript env autoAnalyze call stats w)) = llm_log w).
Proof.
  split.
  - intros transcript d l rec. unfold classify, contentCheck.
    rewrite (textCheck_marker _ (imported_text_marker env transcript d l)).
    reflexivity.
  - intros autoAnalyze call stats w. unfold importTranscript.
    destruct (String.eqb (c_status call) "completed" && has_duration call);
      [|reflexivity].
    unfold try_catch, bind at 1, Sync.requestTranscript.
    destruct (fetchTranscript env (c_id call)) as [[transcript|]|msg]; try reflexivity.
    destruct (tr_dialogue transcript) as [[|d l]|]; try reflexivity.
    set (data := transcriptData env transcript (d :: l)).
    set (w1 := log_fetch w (c_id call)).
    change (llm_log w) with (llm_log w1).
    unfold bind.
    pose proof (keeps_upsertTranscript llm_log env (c_id call) data
                  llm_log_table_free w1) as K.
    destruct (Sync.upsertTranscript env (c_id call) data w1) as [[[]|msg] w2] eqn:Hup;
      simpl in K; [|exact K].
    destruct (autoAnalyze && Nat.ltb 0 (String.length (trim (t_fullText data))));
      [|exact K].
    simpl. rewrite <- K.
    apply broken_transcript_keeps_llm_log; [reflexivity|].
    intros t Ht. simpl in Ht.
    rewrite (upsertTranscript_found _ _ _ _ _ _ Hup Ht).
    apply textCheck_marker. apply imported_text_marker.
Qed.

End HistoricalImport.

(** ** Runs of the further properties *)

Section FurtherRuns.

Import Scenario.
Import Cases.

Lemma echoes_transcriptOf pages dialogue llm :
  echoes (mkEnv pages (fun k => transcriptOf k dialogue) llm).
Proof. intros callId t H. simpl in H. injection H as <-. reflexivity. Qed.

Lemma ids_unique_world0 : ids_unique world0.
Proof. repeat split; constructor. Qed.

Lemma ids_unique_world1 : ids_unique world1.
Proof.
  repeat split; try constructor.
  - intros [].
  - constructor.
Qed.

Lemma accepted_text_is_sent_once_witness :
  db_available world1 = true
  /\ find (has_key r_callId "AC1") (calls (tables world1)) = Some (Sync.callData call1)
  /\ textCheck "Agent: Thank you for calling. Caller: My kitchen sink is leaking."
     = (true, false)
  /\ llm_log (snd (analyzeCall env_ok options_text world1))
     = [ {| llm_inbound_schema := true;
            llm_prompt :=
              "INBOUND Agent: Thank you for calling. Caller: My kitchen sink is leaking."
         |} ].
Proof.
  do 3 (split; [reflexivity|]).
  exact (accepted_text_is_sent_once env_ok options_text world1 (Sync.callData call1) _
           eq_refl eq_refl eq_refl eq_refl).
Defined.

Lemma blank_text_with_valid_segments_is_rejected_witness :
  find (has_key t_callId "AC1") (transcripts (tables world_blank_text))
  = Some transcript_blank_text
  /\ String.length (trim (t_fullText transcript_blank_text)) = 0
  /\ classify (t_fullText transcript_blank_text) (Some transcript_blank_text) = Valid
  /\ analyzeCall env_ok (defaultOptions "AC1") world_blank_text
     = (failure "AC1" "Cannot analyze corrupted or empty transcript", world_blank_text).
Proof.
  do 2 (split; [reflexivity|]).
  exact (blank_text_with_valid_segments_is_rejected
           env_ok (defaultOptions "AC1") world_blank_text (Sync.callData call1)
           transcript_blank_text _ eq_refl eq_refl eq_refl eq_refl eq_refl eq_refl
           eq_refl).
Defined.

Lemma analysis_can_be_read_back_witness :
  let (result, w') := analyzeCall env_half (defaultOptions "AC1") world2 in
  success result = true
  /\ exists details row v q,
       Queries.getCallWithDetails "AC1" w' = (Ret (Some details), w')
       /\ r_callId (Queries.call details) = "AC1"
       /\ Queries.analysis details = Some row
       /\ analysis result = Some v
       /\ get_opt v "score" = JNum q
       /\ a_score row = int_column q
       /\ (is_integer q = true -> a_score row = q).
Proof.
  pose proof (analysis_can_be_read_back env_half (defaultOptions "AC1") world2) as H.
  destruct (analyzeCall env_half (defaultOptions "AC1") world2) as [result w'] eqn:E.
  assert (Hs : success result = true)
    by (apply (f_equal (fun p => success (fst p))) in E; cbn [fst] in E;
        rewrite <- E; vm_compute; reflexivity).
  split; [exact Hs|]. exact (H w' result eq_refl Hs).
Defined.

Lemma upserted_call_can_be_read_back_witness :
  exists w',
    Sync.upsertCall env_ok call_fractional world0 = (Ret false, w')
    /\ Queries.getCallById "AC4" w'
       = (Ret (Some (call_columns (Sync.callData call_fractional))), w')
    /\ r_duration (Sync.callData call_fractional) = Q2Qc (61 # 2)
    /\ r_duration (call_columns (Sync.callData call_fractional)) = num 31
    /\ (false = true <-> In "AC4" (call_ids world0)).
Proof.
  exists (snd (Sync.upsertCall env_ok call_fractional world0)).
  split; [reflexivity|].
  destruct (upserted_call_can_be_read_back env_ok call_fractional world0 _ false eq_refl)
    as (Hread & _ & _ & Hflag).
  split; [exact Hread|]. split; [reflexivity|]. split; [reflexivity|exact Hflag].
Defined.

Lemma syncCalls_keeps_call_ids_unique_witness :
  echoes env_ok
  /\ ids_unique world0
  /\ exists result w',
       Sync.syncCalls 1 env_ok options world0 = Some (result, w')
       /\ ids_unique w'.
Proof.
  split; [apply echoes_transcriptOf|]. split; [exact ids_unique_world0|].
  destruct (Sync.syncCalls 1 env_ok options world0) as [[result w']|] eqn:E.
  - exists result, w'. split; [reflexivity|].
    exact (syncCalls_keeps_call_ids_unique 1 env_ok options world0 w' result
             (echoes_transcriptOf _ _ _) ids_unique_world0 E).
  - exfalso. vm_compute in E. discriminate.
Defined.

Lemma webhook_keeps_call_ids_unique_witness :
  echoes env_ok
  /\ ids_unique world1
  /\ ids_unique (snd (Webhook.handler env_ok (Some (body_transcript dialogue_ok)) world1)).
Proof.
  split; [apply echoes_transcriptOf|]. split; [exact ids_unique_world1|].
  exact (webhook_keeps_call_ids_unique env_ok (Some (body_transcript dialogue_ok)) world1
           (echoes_transcriptOf _ _ _) ids_unique_world1).
Defined.

Lemma syncCalls_analyses_nothing_when_off_or_unknown_line_witness :
  Sync.s_autoAnalyze options_off = Some false
  /\ exists result w',
       Sync.syncCalls 1 env_ok options_off world0 = Some (result, w')
       /\ Sync.callsSynced result = 2
       /\ Sync.analysesTriggered result = 0
       /\ llm_log w' = llm_log world0
       /\ analyses (tables w') = analyses (tables world0).
Proof.
  split; [reflexivity|].
  destruct (Sync.syncCalls 1 env_ok options_off world0) as [[result w']|] eqn:E.
  - exists result, w'. split; [reflexivity|]. split.
    + apply (f_equal (option_map (fun p => Sync.callsSynced (fst p)))) in E.
      vm_compute in E. injection E as E'. symmetry. exact E'.
    + exact (syncCalls_analyses_nothing_when_off_or_unknown_line
               1 env_ok options_off world0 w' result (or_introl eq_refl) E).
  - exfalso. vm_compute in E. discriminate.
Defined.

Lemma syncCalls_stores_only_completed_calls_witness :
  Sync.fetchAllPages 1 env_ok options None [] = Some ([call1; call2; call3], None)
  /\ exists result w',
       Sync.syncCalls 1 env_ok options world0 = Some (result, w')
       /\ forall row,
            In row (calls (tables w')) ->
            In row (calls (tables world0))
            \/ exists call,
                 In call [call1; call2; call3]
                 /\ c_status call = "completed"
                 /\ row = call_columns (Sync.callData call).
Proof.
  assert (Hp : Sync.fetchAllPages 1 env_ok options None []
               = Some ([call1; call2; call3], None)) by reflexivity.
  split; [exact Hp|].
  destruct (Sync.syncCalls 1 env_ok options world0) as [[result w']|] eqn:E.
  - exists result, w'. split; [reflexivity|].
    exact (syncCalls_stores_only_completed_calls 1 env_ok options world0 w' _ _ result
             Hp E).
  - exfalso. vm_compute in E. discriminate.
Defined.

Lemma later_page_failure_keeps_earlier_pages_witness :
  fetchCalls env_second_page_fails (Sync.fetchParams options None)
  = CallsPage [call1; call3] (Some "page-2")
  /\ fetchCalls env_second_page_fails (Sync.fetchParams options (Some "page-2"))
     = CallsError "OpenPhone API error (500): upstream failure"
  /\ exists result w',
       Sync.syncCalls 2 env_second_page_fails options world0 = Some (result, w')
       /\ Sync.s_success result = false
       /\ hd_error (Sync.errors result)
          = Some "Failed to fetch calls: OpenPhone API error (500): upstream failure"
       /\ Sync.callsSynced result = 1
       /\ forall call,
            In call [call1; call3] -> c_status call = "completed" ->
            In (c_id call) (call_ids w').
Proof.
  do 2 (split; [reflexivity|]).
  exact (later_page_failure_keeps_earlier_pages
           0 env_second_page_fails options world0 [call1; call3] "page-2"
           "OpenPhone API error (500): upstream failure"
           eq_refl eq_refl eq_refl eq_refl (fun _ => eq_refl)).
Defined.

Lemma webhook_llm_only_when_announced_witness :
  Webhook.willAnalyze (fst (Webhook.handler env_ok (Some body_other) world1)) <> Some true
  /\ llm_log (snd (Webhook.handler env_ok (Some body_other) world1)) = llm_log world1.
Proof.
  assert (H : Webhook.willAnalyze (fst (Webhook.handler env_ok (Some body_other) world1))
              <> Some true) by (vm_compute; discriminate).
  split; [exact H|].
  exact (webhook_llm_only_when_announced env_ok (Some body_other) world1 H).
Defined.

Lemma webhook_tracks_every_event_witness :
  db_available world1 = true
  /\ health_fault env_ok
       (Webhook.healthRecord (Some "call.transcript.completed")
          (Webhook.callDataOf (Webhook.b_data (body_transcript dialogue_ok))))
     = None
  /\ webhookHealth
       (tables (snd (Webhook.handler env_ok (Some (body_transcript dialogue_ok)) world1)))
     = [ {| h_lastWebhookReceived := DateNow;
            h_eventType := Some "call.transcript.completed";
            h_callId := Some "AC1" |} ]
  /\ webhookHealth
       (tables (snd (Webhook.handler env_refusing_health
                       (Some (body_transcript dialogue_ok)) world1)))
     = [].
Proof.
  do 2 (split; [reflexivity|]). split.
  - exact (webhook_tracks_every_event env_ok (body_transcript dialogue_ok) world1
             eq_refl).
  - exact (webhook_tracks_every_event env_refusing_health (body_transcript dialogue_ok)
             world1 eq_refl).
Defined.

Lemma normalizePhoneNumber_us_formats_agree_witness :
  PhoneNumber.all_digits "4125550100" = true
  /\ PhoneNumber.normalizePhoneNumber "(412) 555-0100" = "+14125550100"
  /\ PhoneNumber.normalizePhoneNumber "1-412-555-0100" = "+14125550100"
  /\ PhoneNumber.normalizePhoneNumber "+1 412 555 0100" = "+14125550100".
Proof.
  split; [reflexivity|].
  exact (normalizePhoneNumber_us_formats_agree
           "4125550100" "(412) 555-0100" "1-412-555-0100" "+1 412 555 0100"
           eq_refl eq_refl eq_refl eq_refl eq_refl).
Defined.

Lemma validateQAResult_sound_witness :
  Criteria.validateQAResult legacyResult = true
  /\ score_in_range (get_opt legacyResult "score") = true
  /\ (exists q, get_opt legacyResult "score" = JNum q
                /\ (num 0 <= q)%Qc /\ (q <= num 100)%Qc)
  /\ (exists s, get_opt legacyResult "summary" = JStr s)
  /\ (exists s, get_opt legacyResult "sentiment" = JStr s
                /\ In s ["Positive"; "Neutral"; "Negative"])
  /\ (forall check,
        In check ["greeting"; "verification"; "recordingConsent"; "professionalism"] ->
        exists s, get_opt (get_opt legacyResult "complianceChecks") check = JStr s
                  /\ In s ["Yes"; "No"; "NA"]).
Proof.
  assert (H : Criteria.validateQAResult legacyResult = true) by (vm_compute; reflexivity).
  split; [exact H|].
  exact (validateQAResult_sound legacyResult H).
Defined.

Lemma transcript_404_without_message_is_no_transcript_witness :
  fetchTranscript (env_failing_transcripts notFoundText) "AC1"
  = TranscriptError "OpenPhone API error (404): Not Found"
  /\ Sync.fetchTranscriptForCall (env_failing_transcripts notFoundText) "AC1" world1
     = (Ret false, log_fetch world1 "AC1").
Proof.
  split; [reflexivity|].
  apply (transcript_404_without_message_is_no_transcript
           (env_failing_transcripts notFoundText) "AC1" notFoundText world1);
    try reflexivity.
  intros json H. discriminate H.
Defined.

Lemma transcript_404_with_message_is_rethrown_witness :
  fetchTranscript (env_failing_transcripts notFoundJson) "AC1"
  = TranscriptError "Transcript is not ready"
  /\ OpenPhone.requestError (env_failing_transcripts notFoundJson) notFoundJson
     = "Transcript is not ready"
  /\ Sync.fetchTranscriptForCall (env_failing_transcripts notFoundJson) "AC1" world1
     = (Throw "Transcript is not ready", log_fetch world1 "AC1").
Proof.
  split; [reflexivity|].
  exact (transcript_404_with_message_is_rethrown
           (env_failing_transcripts notFoundJson) "AC1" notFoundJson
           (JObj [("message", JStr "Transcript is not ready")])
           "Transcript is not ready" world1
           eq_refl eq_refl eq_refl eq_refl eq_refl eq_refl eq_refl).
Defined.

Lemma rejected_api_key_is_explained_witness :
  fetchCalls (env_failing_pages unauthorized) (Sync.fetchParams options None)
  = CallsError "OpenPhone API key is invalid"
  /\ Sync.syncCalls 1 (env_failing_pages unauthorized) options world1
     = Some ({| Sync.s_success := false; Sync.callsSynced := 0;
                Sync.transcriptsSynced := 0; Sync.analysesTriggered := 0;
                Sync.errors := [ "Failed to fetch calls: OpenPhone API key is invalid";
                                 "OpenPhone API key is invalid" ] |}, world1).
Proof.
  split; [reflexivity|].
  exact (rejected_api_key_is_explained
           0 (env_failing_pages unauthorized) options world1 None
           "Request failed with status code 401" eq_refl eq_refl).
Defined.

Lemma unknown_line_id_is_explained_witness :
  fetchCalls (env_failing_pages unknownLine) (Sync.fetchParams options None)
  = CallsError "Phone number ID not found in your OpenPhone account"
  /\ includes "Invalid phoneNumberId" "phoneNumberId" = true
  /\ Sync.syncCalls 1 (env_failing_pages unknownLine) options world1
     = Some ({| Sync.s_success := false; Sync.callsSynced := 0;
                Sync.transcriptsSynced := 0; Sync.analysesTriggered := 0;
                Sync.errors :=
                  [ "Failed to fetch calls: Phone number ID not found in your OpenPhone account";
                    ("Phone number ID " ++ quote ++ "PNVbbBqeqM" ++ quote
                     ++ " not found in your OpenPhone account")%string ] |}, world1).
Proof.
  do 2 (split; [reflexivity|]).
  exact (unknown_line_id_is_explained
           0 (env_failing_pages unknownLine) options world1
           "Invalid phoneNumberId" _ "Request failed with status code 400"
           eq_refl eq_refl eq_refl).
Defined.

End FurtherRuns.
